(** * Shopify discovery and classification scripts: a shallow embedding

    The development follows the TypeScript sources:
    - [src/detect/isShopify.ts]                 (module [Detect])
    - [src/network/fetchHtml.ts], [dnsCheck.ts]  (module [Network])
    - [src/sources/certificateTransparency.ts],
      [src/ct/ctScanner.ts], [src/ct/massCtScanner.ts] (module [CT])
    - [src/pipeline/*.ts]                       (modules [Pipeline],
      [BingBulk], [NicheWithBing], [ScanCT])

    JavaScript strings are modelled as [string]; one [ascii] stands for one
    UTF-16 code unit below 256 (Latin-1 text).  Every literal of the sources
    that matters here is ASCII. *)

From Stdlib Require Import String Ascii List ZArith Lia Bool Floats.
From stdpp Require Import base list strings pretty gmap sorting.

Local Open Scope nat_scope.

(** ** JavaScript string primitives *)

Module JsString.

Definition code (c : ascii) : nat := nat_of_ascii c.

(** [String.prototype.toLowerCase] on one code unit of the Latin-1 range:
    A-Z, and the accented capitals U+00C0..U+00DE except the times sign. *)
Definition lowerChar (c : ascii) : ascii :=
  let n := code c in
  if ((65 <=? n) && (n <=? 90))
     || ((192 <=? n) && (n <=? 222) && negb (n =? 215))
  then ascii_of_nat (n + 32) else c.

(** [Canonicalize] of a non-unicode regular expression with the [i] flag:
    the upper-case form when it is a single code unit; a code unit of 128 or
    more is never folded onto an ASCII one.  In the Latin-1 range, the micro
    sign and y-diaeresis fold outside of the range and are alone in their
    class, so they stay as they are. *)
Definition canonChar (c : ascii) : ascii :=
  let n := code c in
  if ((97 <=? n) && (n <=? 122))
     || ((224 <=? n) && (n <=? 254) && negb (n =? 247))
  then ascii_of_nat (n - 32) else c.

(** White space of [trim] and of the class [\s]: TAB, LF, VT, FF, CR, SP and
    NBSP are the ones below 256. *)
Definition isSpace (c : ascii) : bool :=
  let n := code c in
  ((9 <=? n) && (n <=? 13)) || (n =? 32) || (n =? 160).

Fixpoint map (f : ascii -> ascii) (s : string) : string :=
  match s with
  | EmptyString => EmptyString
  | String c r => String (f c) (map f r)
  end.

Definition toLowerCase (s : string) : string := map lowerChar s.

Fixpoint startsWith (s p : string) : bool :=
  match p, s with
  | EmptyString, _ => true
  | String _ _, EmptyString => false
  | String a p', String b s' => if Ascii.eqb a b then startsWith s' p' else false
  end.

(** [s.includes(p)] *)
Fixpoint includes (s p : string) : bool :=
  startsWith s p ||
  match s with
  | EmptyString => false
  | String _ r => includes r p
  end.

Fixpoint rev_acc (s acc : string) : string :=
  match s with
  | EmptyString => acc
  | String c r => rev_acc r (String c acc)
  end.

Definition rev (s : string) : string := rev_acc s EmptyString.

Definition endsWith (s p : string) : bool := startsWith (rev s) (rev p).

Fixpoint drop (n : nat) (s : string) : string :=
  match n, s with
  | O, _ => s
  | S _, EmptyString => EmptyString
  | S k, String _ r => drop k r
  end.

(** [s.substring(n)] for [0 <= n] *)
Definition substring (n : nat) (s : string) : string := drop n s.

Fixpoint trimStart (s : string) : string :=
  match s with
  | EmptyString => EmptyString
  | String c r => if isSpace c then trimStart r else s
  end.

Definition trim (s : string) : string := rev (trimStart (rev (trimStart s))).

(** [s.replace(/\s+/g, '')] *)
Fixpoint removeSpaces (s : string) : string :=
  match s with
  | EmptyString => EmptyString
  | String c r => if isSpace c then removeSpaces r else String c (removeSpaces r)
  end.

(** [s.replace(p, '')] with a string pattern: the first occurrence only. *)
Fixpoint removeFirst (p s : string) : string :=
  if startsWith s p then drop (String.length p) s
  else match s with
       | EmptyString => EmptyString
       | String c r => String c (removeFirst p r)
       end.

(** [s.split(sep)] for a one-character separator; the accumulator holds the
    current piece, reversed. *)
Fixpoint split_go (sep : ascii) (s : string) (cur : string) : list string :=
  match s with
  | EmptyString => [rev cur]
  | String c r =>
      if Ascii.eqb c sep then rev cur :: split_go sep r EmptyString
      else split_go sep r (String c cur)
  end.

Definition split (sep : ascii) (s : string) : list string :=
  split_go sep s EmptyString.

Definition isEmpty (s : string) : bool :=
  match s with
  | EmptyString => true
  | String _ _ => false
  end.

Definition hexDigit (n : nat) : ascii :=
  ascii_of_nat (if n <? 10 then 48 + n else 55 + n).

Definition percent (byte : nat) : string :=
  String "%" (String (hexDigit (byte / 16)) (String (hexDigit (byte mod 16)) "")).

(** Unreserved by [encodeURIComponent]: letters, digits and [-_.!~*'()]. *)
Definition uriUnreserved (c : ascii) : bool :=
  let n := code c in
  ((65 <=? n) && (n <=? 90)) || ((97 <=? n) && (n <=? 122))
  || ((48 <=? n) && (n <=? 57))
  || existsb (Nat.eqb n) [45; 95; 46; 33; 126; 42; 39; 40; 41].

(** [encodeURIComponent]: every other code unit is written as the
    percent-escaped bytes of its UTF-8 form (two bytes from 128 on). *)
Fixpoint encodeURIComponent (s : string) : string :=
  match s with
  | EmptyString => EmptyString
  | String c r =>
      let n := code c in
      (if uriUnreserved c then String c ""
       else if n <? 128 then percent n
       else percent (192 + n / 64) +:+ percent (128 + n mod 64))
      +:+ encodeURIComponent r
  end.

(** ** Literal regular expressions with the [i] flag *)

(** The pattern matches at the start of [s], code units compared after
    [Canonicalize]. *)
Fixpoint prefix_ci (p s : string) : bool :=
  match p, s with
  | EmptyString, _ => true
  | String _ _, EmptyString => false
  | String a p', String b s' =>
      if Ascii.eqb (canonChar a) (canonChar b) then prefix_ci p' s' else false
  end.

(** [/p/i.test(s)] for a pattern [p] made of literal characters *)
Fixpoint test_ci (p s : string) : bool :=
  prefix_ci p s ||
  match s with
  | EmptyString => false
  | String _ r => test_ci p r
  end.

(** What the search decides: some segment of [s] is [p] up to case. *)
Definition Occurs (p s : string) : Prop :=
  exists pre mid post,
    s = String.append pre (String.append mid post)
    /\ map canonChar mid = map canonChar p.

End JsString.

(** ** [src/detect/isShopify.ts] *)

Module Detect.
Import JsString.

(** The regular expressions of the source are literal: each is written here
    as the text it searches for, with the capital of [/Shopify\.checkout/i]
    kept. *)
Definition highConfidencePatterns : list string :=
  [ "cdn.shopify.com"; "shopifycdn.com"; "window.shopify"; "shopify.theme";
    "shopify.settings"; "shopify.analytics"; "Shopify.checkout" ].

Definition mediumConfidencePatterns : list string :=
  [ ".myshopify.com"; "data-shopify"; "shopify-section"; "shopify-section-id";
    "shopify.js"; "shopify.theme.js"; "/collections/"; "/products/" ].

Definition lowConfidencePatterns : list string :=
  [ "/cart"; "/checkout"; "shopify.com" ].

(** [for (const pattern of ps) if (pattern.test(htmlLower)) return true;] *)
Fixpoint anyMatch (ps : list string) (htmlLower : string) : bool :=
  match ps with
  | [] => false
  | p :: rest => if test_ci p htmlLower then true else anyMatch rest htmlLower
  end.

(** [for (const pattern of ps) if (pattern.test(htmlLower)) count++;] *)
Fixpoint countLoop (ps : list string) (htmlLower : string) (count : nat) : nat :=
  match ps with
  | [] => count
  | p :: rest =>
      countLoop rest htmlLower (if test_ci p htmlLower then S count else count)
  end.

(** [None] is a [null] or [undefined] argument, which [!html] catches. *)
Definition isShopifyHtml (html : option string) : bool :=
  match html with
  | None => false
  | Some html =>
      if String.length html =? 0 then false else
      let htmlLower := toLowerCase html in
      if anyMatch highConfidencePatterns htmlLower then true else
      let highCount := countLoop highConfidencePatterns htmlLower 0 in
      let mediumCount := countLoop mediumConfidencePatterns htmlLower 0 in
      let lowCount := countLoop lowConfidencePatterns htmlLower 0 in
      if 1 <=? highCount then true
      else if 2 <=? mediumCount then true
      else if (1 <=? mediumCount) && (2 <=? lowCount) then true
      else
        let hasMyshopify := test_ci ".myshopify.com" htmlLower in
        if hasMyshopify && (3 <=? mediumCount + lowCount) then true
        else false
  end.

Definition isShopify (html : option string) : bool := isShopifyHtml html.

(** Weights are IEEE-754 doubles, as JavaScript numbers are: each decimal
    literal denotes the nearest double. *)
#[local] Set Warnings "-inexact-float".
Definition weightedPatterns : list (string * float) :=
  [ ("cdn.shopify.com", 0.4%float); (".myshopify.com", 0.4%float);
    ("window.shopify", 0.3%float); ("shopify.theme", 0.3%float);
    ("shopifycdn.com", 0.3%float); ("data-shopify", 0.2%float);
    ("shopify-section", 0.2%float); ("/collections/", 0.1%float);
    ("/products/", 0.1%float) ].

Fixpoint scoreLoop (ws : list (string * float)) (htmlLower : string)
                   (score : float) : float :=
  match ws with
  | [] => score
  | (p, w) :: rest =>
      scoreLoop rest htmlLower
        (if test_ci p htmlLower then PrimFloat.add score w else score)
  end.

(** [Math.min] on two numbers neither of which is NaN *)
Definition Math_min (a b : float) : float :=
  if PrimFloat.ltb b a then b else a.

Definition getShopifyConfidence (html : option string) : float :=
  match html with
  | None => 0%float
  | Some html =>
      if String.length html =? 0 then 0%float else
      let htmlLower := toLowerCase html in
      Math_min (scoreLoop weightedPatterns htmlLower 0%float) 1.0%float
  end.

End Detect.

(** ** Completions, errors and the outside world *)

(** An [Error] object, as far as the sources look into it. *)
Record JsError := mkError {
  err_name : string;
  err_message : string;   (* the empty string when absent *)
  err_code : string
}.

(** The outcome of awaiting a promise or running a block: a value, or a
    thrown error. *)
Inductive Completion (A : Type) : Type :=
| Return (a : A)
| Throw (e : JsError).
Arguments Return {A} a.
Arguments Throw {A} e.

(** Sequencing: a thrown error skips the rest of the block. *)
#[global] Instance Completion_ret : MRet Completion := fun A a => Return a.
#[global] Instance Completion_bind : MBind Completion := fun A B k c =>
  match c with
  | Return a => k a
  | Throw e => Throw e
  end.

(** [try { body } catch (error) { handler }] *)
Definition tryCatch {A} (body : Completion A) (handler : JsError -> Completion A)
  : Completion A :=
  match body with
  | Return a => Return a
  | Throw e => handler e
  end.

(** [a || b] on strings: the empty string is falsy. *)
Definition orElse (a b : string) : string :=
  match a with
  | EmptyString => b
  | _ => a
  end.

(** A [Response] of the fetch API; [B] is what reading the body gives
    ([text()] or [json()]), which may itself fail. *)
Record Response (B : Type) := mkResponse {
  resp_ok : bool;
  resp_status : nat;
  resp_statusText : string;
  resp_body : Completion B
}.
Arguments mkResponse {B}.
Arguments resp_ok {B}.
Arguments resp_status {B}.
Arguments resp_statusText {B}.
Arguments resp_body {B}.

(** ** [src/network/fetchHtml.ts] and [src/network/dnsCheck.ts] *)

Module Network.

Inductive Method := GET | HEAD.

Definition Method_eqb (a b : Method) : bool :=
  match a, b with
  | GET, GET | HEAD, HEAD => true
  | _, _ => false
  end.

Record FetchHtmlOptions := mkFetchHtmlOptions {
  timeoutMs : option Z;
  method : option Method;
  followRedirects : option bool
}.

Definition noOptions : FetchHtmlOptions := mkFetchHtmlOptions None None None.

Inductive Redirect := follow | manual.

(** What [fetch] is called with (the fixed headers are left out). *)
Record Request := mkRequest {
  req_url : string;
  req_method : Method;
  req_redirect : Redirect;
  req_abortAfterMs : Z
}.

(** [{ timeoutMs: t, ...options }]: a property of [options] wins. *)
Definition spreadTimeout (t : Z) (options : option FetchHtmlOptions)
  : FetchHtmlOptions :=
  match options with
  | None => mkFetchHtmlOptions (Some t) None None
  | Some o =>
      mkFetchHtmlOptions
        (match timeoutMs o with Some t' => Some t' | None => Some t end)
        (method o) (followRedirects o)
  end.

(** [x || d] on a number: [undefined] and [0] are falsy. *)
Definition numberOr (x : option Z) (d : Z) : Z :=
  match x with
  | Some v => if (v =? 0)%Z then d else v
  | None => d
  end.

Definition fetchHtml_opts (timeoutOrOptions : option (Z + FetchHtmlOptions))
                          (options : option FetchHtmlOptions) : FetchHtmlOptions :=
  match timeoutOrOptions with
  | Some (inl t) => spreadTimeout t options
  | Some (inr o) => o
  | None => noOptions
  end.

Definition fetchHtml_method (opts : FetchHtmlOptions) : Method :=
  match method opts with Some m => m | None => GET end.

Definition fetchHtml_request (url : string) (opts : FetchHtmlOptions) : Request :=
  let timeoutMs := numberOr (timeoutMs opts) 10000 in
  let method := fetchHtml_method opts in
  let followRedirects :=
    match followRedirects opts with Some false => false | _ => true end in
  mkRequest url method (if followRedirects then follow else manual) timeoutMs.

(** [fetch] is the platform's: it resolves to a response or rejects, with an
    error named [AbortError] when the timer fired first. *)
Definition fetchHtml (fetch : Request -> Completion (Response string))
                     (url : string)
                     (timeoutOrOptions : option (Z + FetchHtmlOptions))
                     (options : option FetchHtmlOptions)
  : Completion (option string) :=
  let opts := fetchHtml_opts timeoutOrOptions options in
  let method := fetchHtml_method opts in
  tryCatch
    (response ← fetch (fetchHtml_request url opts);
     if negb (resp_ok response) then Return None
     else if Method_eqb method HEAD then Return (Some "")
     else html ← resp_body response; Return (Some html))
    (fun error =>
       if String.eqb (err_name error) "AbortError" then Return None
       else Return None).

Record LookupAddress := mkLookupAddress {
  la_address : string;
  la_family : nat
}.

Record DnsLookupResult := mkDnsLookupResult {
  dl_ok : bool;
  dl_address : option string;
  dl_family : option nat;
  dl_error : option string
}.

Record DnsCheckResult := mkDnsCheckResult {
  dc_ok : bool;
  dc_address : option string;
  dc_error : option string
}.

Record CnameResult := mkCnameResult {
  cn_ok : bool;
  cn_cnames : list string;
  cn_error : option string
}.

(** [lookup] is [dns/promises.lookup] with [{ family: 4, all: false }]. *)
Definition dnsLookup (lookup : string -> Completion LookupAddress)
                     (domain : string) : DnsLookupResult :=
  match lookup domain with
  | Return addresses =>
      mkDnsLookupResult true (Some (la_address addresses))
                        (Some (la_family addresses)) None
  | Throw error =>
      mkDnsLookupResult false None None
        (Some (orElse (err_message error) "DNS lookup failed"))
  end.

Definition dnsCheck (lookup : string -> Completion LookupAddress)
                    (domain : string) : DnsCheckResult :=
  let result := dnsLookup lookup domain in
  mkDnsCheckResult (dl_ok result) (dl_address result) (dl_error result).

Definition resolveCname (dnsResolveCname : string -> Completion (list string))
                        (domain : string) : CnameResult :=
  match dnsResolveCname domain with
  | Return cnames => mkCnameResult true cnames None
  | Throw error =>
      if String.eqb (err_code error) "ENODATA"
         || String.eqb (err_code error) "ENOTFOUND"
      then mkCnameResult false [] None
      else mkCnameResult false []
             (Some (orElse (err_message error) "CNAME resolution failed"))
  end.

End Network.

(** What a search or harvest call yields ([navigate/searchGoogle.ts]). *)
Record SearchResult := mkSearchResult {
  sr_title : string;
  sr_url : string
}.

(** A [Set<string>]: its elements in insertion order. *)
Module JsSet.
Definition has (s : list string) (x : string) : bool := bool_decide (x ∈ s).
Definition add (s : list string) (x : string) : list string :=
  if has s x then s else s ++ [x].
End JsSet.

(** ** Certificate-transparency sources *)

Module CT.
Import JsString.

(** One entry of the crt.sh JSON answer. *)
Record Cert := mkCert { name_value : option string }.

(** [fetch(apiUrl, { signal })]: the URL and the delay after which the
    request is aborted. *)
Definition CtFetch : Type := string -> Z -> Completion (Response (list Cert)).

Definition httpError (response : Response (list Cert)) : JsError :=
  mkError "Error"
    ("HTTP " +:+ pretty (resp_status response) +:+ ": "
     +:+ resp_statusText response) "".

(** *** [src/sources/certificateTransparency.ts] *)

Definition invalidStoreNames : list string :=
  [ "www"; "admin"; "cdn"; "login"; "api"; "app"; "mail"; "ftp"; "test" ].

(** The body of [for (const domainLine of domainLines)]. *)
Definition shopifyLine (domains : list string) (domainLine : string) : list string :=
  let domain := toLowerCase (trim domainLine) in
  if endsWith domain ".myshopify.com" then
    let cleanDomain := trim (removeFirst "www." (removeFirst "*." domain)) in
    if negb (isEmpty cleanDomain)
       && negb (String.eqb cleanDomain "myshopify.com")
       && negb (startsWith cleanDomain ".")
    then
      let parts := split "." cleanDomain in
      if (2 <=? length parts) && negb (isEmpty (hd "" parts)) then
        let storeName := hd "" parts in
        if negb (bool_decide (storeName ∈ invalidStoreNames))
        then JsSet.add domains cleanDomain
        else domains
      else domains
    else domains
  else domains.

(** [for (const cert of data)], with its [break] and [continue]. *)
Fixpoint shopifyCerts (maxResults : nat) (data : list Cert) (processed : nat)
                      (domains : list string) : list string :=
  match data with
  | [] => domains
  | cert :: rest =>
      if maxResults <=? processed then domains
      else
        let nameValue := default "" (name_value cert) in
        if isEmpty nameValue then shopifyCerts maxResults rest processed domains
        else
          let domainLines := split "010" nameValue in
          shopifyCerts maxResults rest (S processed)
                       (foldl shopifyLine domains domainLines)
  end.

Definition shopifyApiUrl : string := "https://crt.sh/?q=%.myshopify.com&output=json".

#[local] Set Warnings "-abstract-large-number".

(** [maxResults] is [None] when the argument is left out. *)
Definition getShopifyDomainsFromCT (fetch : CtFetch) (maxResults : option nat)
  : Completion (list SearchResult) :=
  let maxResults := default 10000 maxResults in
  tryCatch
    (response ← fetch shopifyApiUrl 60000%Z;
     if negb (resp_ok response) then Throw (httpError response)
     else
       data ← resp_body response;
       let domains := shopifyCerts maxResults data 0 [] in
       Return (List.map (fun domain => mkSearchResult domain ("https://" +:+ domain))
                        domains))
    (fun error => Throw error).

(** *** [src/ct/ctScanner.ts] *)

Record CtScannerOptions := mkCtScannerOptions {
  limit : option nat;
  timeout : option Z
}.

(** [limit && n >= limit]: an absent or zero limit never triggers. *)
Definition reached (limit : option nat) (n : nat) : bool :=
  match limit with
  | Some (S _ as l) => l <=? n
  | _ => false
  end.

(** The cleaning and validation of one line, shared word for word by
    [fetchDomainsFromCT] and its two variants in [massCtScanner.ts]. *)
Definition scannerLine (domains : list string) (domainLine : string) : list string :=
  let domain := toLowerCase (trim domainLine) in
  let domain := removeSpaces domain in
  let domain := if startsWith domain "*." then substring 2 domain else domain in
  let domain := if startsWith domain "www." then substring 4 domain else domain in
  if negb (isEmpty domain)
     && (0 <? String.length domain)
     && negb (startsWith domain ".")
     && includes domain "."
     && negb (includes domain " ")
     && negb (includes domain (String "010" ""))
     && negb (includes domain (String "013" ""))
  then JsSet.add domains domain
  else domains.

Fixpoint scannerCerts (limit : option nat) (data : list Cert)
                      (domains : list string) : list string :=
  match data with
  | [] => domains
  | cert :: rest =>
      if reached limit (length domains) then domains
      else
        let nameValue := default "" (name_value cert) in
        if isEmpty nameValue then scannerCerts limit rest domains
        else scannerCerts limit rest
               (foldl scannerLine domains (split "010" nameValue))
  end.

(** [if (limit && resultArray.length > limit) resultArray.slice(0, limit)] *)
Definition finalLimit (limit : option nat) (resultArray : list string) : list string :=
  match limit with
  | Some (S _ as l) => if l <? length resultArray then take l resultArray else resultArray
  | _ => resultArray
  end.

Definition numberOr (x : option Z) (d : Z) : Z :=
  match x with
  | Some v => if (v =? 0)%Z then d else v
  | None => d
  end.

(** The [try] block of the three fetchers, run on the set [domains]: its
    completion, and the set as the block leaves it (which is what a [catch]
    clause still sees). *)
Definition scanBlock (fetch : CtFetch) (apiUrl : string) (timeout : Z)
                     (limit : option nat)
                     (notOk : Response (list Cert) -> Completion (list string))
                     (domains : list string)
  : Completion (list string) * list string :=
  match fetch apiUrl timeout with
  | Throw error => (Throw error, domains)
  | Return response =>
      if negb (resp_ok response) then (notOk response, domains)
      else
        match resp_body response with
        | Throw error => (Throw error, domains)
        | Return data =>
            let domains := scannerCerts limit data domains in
            (Return (finalLimit limit domains), domains)
        end
  end.

Definition fetchDomainsFromCT (fetch : CtFetch) (pattern : string)
                              (options : option CtScannerOptions)
  : Completion (list string) :=
  let limit := options ≫= limit in
  let timeout := numberOr (options ≫= timeout) 60000 in
  let apiUrl := "https://crt.sh/?q=" +:+ encodeURIComponent pattern +:+ "&output=json" in
  let '(block, domains) :=
    scanBlock fetch apiUrl timeout limit
              (fun response => Throw (httpError response)) [] in
  match block with
  | Return resultArray => Return resultArray
  | Throw error => Return domains
  end.

(** *** [src/ct/massCtScanner.ts] *)

Record MassCtOptions := mkMassCtOptions {
  limitPerPattern : option nat;
  maxTotalDomains : option nat;
  sleepMsBetweenRequests : option nat;
  mass_timeout : option Z;
  stopAfterConsecutiveErrors : option nat;
  useDateRanges : option bool;
  useDifferentEndpoints : option bool;
  daysBack : option nat
}.

Record MassCtResult := mkMassCtResult {
  patternsUsed : list string;
  totalDomains : nat;
  domains : list string
}.

Inductive Endpoint := q | Identity.

Definition Endpoint_name (e : Endpoint) : string :=
  match e with q => "q" | Identity => "Identity" end.

Record Query := mkQuery {
  pattern : string;
  startDate : option string;
  endDate : option string;
  endpoint : option Endpoint;
  description : string
}.

(** [Math.ceil(daysBack / 30)] for a whole number of days *)
Definition monthsBack (daysBack : nat) : nat := (daysBack + 29) / 30.

(** The queries of [generateDateRangeQueries] after the first one.  The two
    [YYYYMMDD] texts of month [i] come from the clock: [monthBounds i] is
    [(startStr, endStr)] of the [i]-th iteration. *)
Definition generateDateRangeQueries_tail (monthBounds : nat -> string * string)
                                         (daysBack : nat)
  : list (string * string * string) :=
  List.map (fun i => ("%.myshopify.com", fst (monthBounds i), snd (monthBounds i)))
           (seq 0 (monthsBack daysBack)).

Definition generateEndpointQueries : list (string * Endpoint) :=
  [ ("%.myshopify.com", q); ("%.myshopify.com", Identity) ].

(** The list [queries] that [massFetchDomainsFromCT] builds. *)
Definition massQueries (monthBounds : nat -> string * string)
                       (useDateRanges useDifferentEndpoints : bool)
                       (daysBack : nat) : list Query :=
  [ mkQuery "%.myshopify.com" None None None ("Requ" +:+ String "234" "te principale") ]
  ++ (if useDateRanges then
        List.map (fun '(p, s, e) =>
                    mkQuery p (Some s) (Some e) None ("Date: " +:+ s +:+ " - " +:+ e))
                 (generateDateRangeQueries_tail monthBounds daysBack)
      else [])
  ++ (if useDifferentEndpoints then
        flat_map (fun '(p, e) =>
                    match e with
                    | Identity => [ mkQuery p None None (Some e) "Endpoint: Identity" ]
                    | q => []
                    end)
                 generateEndpointQueries
      else []).

Definition fetchDomainsFromCTSilent (fetch : CtFetch) (pattern : string)
                                    (options : option CtScannerOptions)
  : Completion (list string) :=
  fetchDomainsFromCT fetch pattern options.

(** [if (s) apiUrl += `&key=${s}`] *)
Definition dateParam (key : string) (s : option string) : string :=
  match s with
  | Some (String _ _ as d) => "&" +:+ key +:+ "=" +:+ d
  | _ => ""
  end.

Definition fetchDomainsFromCTWithDate (fetch : CtFetch) (pattern : string)
                                      (startDate endDate : option string)
                                      (options : option CtScannerOptions)
  : Completion (list string) :=
  let timeout := numberOr (options ≫= timeout) 60000 in
  let limit := options ≫= limit in
  let apiUrl := "https://crt.sh/?q=" +:+ encodeURIComponent pattern +:+ "&output=json"
                +:+ dateParam "notBefore" startDate
                +:+ dateParam "notAfter" endDate in
  let '(block, _) :=
    scanBlock fetch apiUrl timeout limit (fun _ => Return []) [] in
  match block with
  | Return resultArray => Return resultArray
  | Throw error => Return []
  end.

Definition fetchDomainsFromCTWithEndpoint (fetch : CtFetch) (pattern : string)
                                          (endpoint : Endpoint)
                                          (options : option CtScannerOptions)
  : Completion (list string) :=
  let timeout := numberOr (options ≫= timeout) 60000 in
  let limit := options ≫= limit in
  let apiUrl := "https://crt.sh/?" +:+ Endpoint_name endpoint +:+ "="
                +:+ encodeURIComponent pattern +:+ "&output=json" in
  let '(block, _) :=
    scanBlock fetch apiUrl timeout limit (fun _ => Return []) [] in
  match block with
  | Return resultArray => Return resultArray
  | Throw error => Return []
  end.

(** The variables of the query loop, and the queries handed to a fetcher so
    far (the pauses between queries are left out: they do not touch these
    variables). *)
Record MassState := mkMassState {
  allDomains : list string;
  ms_patternsUsed : list string;
  queryIndex : nat;
  consecutiveErrors : nat;
  attempted : list Query
}.

Definition truthy (s : option string) : bool :=
  match s with
  | Some (String _ _) => true
  | _ => false
  end.

(** The fetcher chosen for a query; [fetch] is the network as it answers
    this query. *)
Definition dispatch (fetch : CtFetch) (ctOptions : CtScannerOptions) (query : Query)
  : Completion (list string) :=
  match endpoint query with
  | Some Identity =>
      fetchDomainsFromCTWithEndpoint fetch (pattern query) Identity (Some ctOptions)
  | _ =>
      if truthy (startDate query) || truthy (endDate query) then
        fetchDomainsFromCTWithDate fetch (pattern query) (startDate query)
                                   (endDate query) (Some ctOptions)
      else fetchDomainsFromCTSilent fetch (pattern query) (Some ctOptions)
  end.

Definition maxConsecutiveErrors : nat := 5.

(** [for (const query of queries)]; [net i] is the network while query
    number [i] (from 1) is processed. *)
Fixpoint massLoop (net : nat -> CtFetch) (ctOptions : CtScannerOptions)
                  (maxTotalDomains stopAfterConsecutiveErrors : option nat)
                  (queries : list Query) (st : MassState) : MassState :=
  match queries with
  | [] => st
  | query :: rest =>
      let queryIndex := S (queryIndex st) in
      if reached maxTotalDomains (length (allDomains st)) then
        mkMassState (allDomains st) (ms_patternsUsed st) queryIndex
                    (consecutiveErrors st) (attempted st)
      else
        let attempted := attempted st ++ [query] in
        match dispatch (net queryIndex) ctOptions query with
        | Return domains =>
            let consecutiveErrors :=
              if 0 <? length domains then 0 else consecutiveErrors st in
            let allDomains := foldl JsSet.add (allDomains st) domains in
            let patternsUsed :=
              ms_patternsUsed st ++ [orElse (description query) (pattern query)] in
            let st' := mkMassState allDomains patternsUsed queryIndex
                                   consecutiveErrors attempted in
            if reached maxTotalDomains (length allDomains) then st'
            else massLoop net ctOptions maxTotalDomains
                          stopAfterConsecutiveErrors rest st'
        | Throw error =>
            let consecutiveErrors := S (consecutiveErrors st) in
            if reached stopAfterConsecutiveErrors consecutiveErrors then
              mkMassState (allDomains st) (ms_patternsUsed st) queryIndex
                          consecutiveErrors attempted
            else
              let consecutiveErrors :=
                if maxConsecutiveErrors <=? consecutiveErrors then 0
                else consecutiveErrors in
              massLoop net ctOptions maxTotalDomains stopAfterConsecutiveErrors rest
                       (mkMassState (allDomains st) (ms_patternsUsed st) queryIndex
                                    consecutiveErrors attempted)
        end
  end.

Definition massOptions (options : option MassCtOptions) : MassCtOptions :=
  default (mkMassCtOptions None None None None None None None None) options.

Definition massCtOptions (options : MassCtOptions) : CtScannerOptions :=
  mkCtScannerOptions
    (match limitPerPattern options with
     | Some (S _ as l) => Some l
     | _ => None
     end)
    (Some (default 60000%Z (mass_timeout options))).

(** The loop of [massFetchDomainsFromCT] from its initial variables. *)
Definition massRun (net : nat -> CtFetch) (monthBounds : nat -> string * string)
                   (options : option MassCtOptions) : MassState :=
  let o := massOptions options in
  let queries := massQueries monthBounds
                   (default true (useDateRanges o))
                   (default true (useDifferentEndpoints o))
                   (default 365 (daysBack o)) in
  massLoop net (massCtOptions o) (maxTotalDomains o)
           (stopAfterConsecutiveErrors o) queries
           (mkMassState [] [] 0 0 []).

(** [Array.prototype.sort()] without a comparator orders strings by their
    code units. *)
Definition sortStrings (l : list string) : list string := merge_sort String.le l.

Definition massFetchDomainsFromCT (net : nat -> CtFetch)
                                  (monthBounds : nat -> string * string)
                                  (options : option MassCtOptions)
  : Completion MassCtResult :=
  let st := massRun net monthBounds options in
  let domainsArray := sortStrings (allDomains st) in
  Return (mkMassCtResult (ms_patternsUsed st) (length domainsArray) domainsArray).

End CT.

(** ** The scan pipelines *)

Module Pipeline.
Import JsString Network.

(** Everything the pipelines ask of their environment.  The [nat] argument
    is the moment of the call: the number of the query for a search, the
    position of the URL in the analysis loop for the probes, so that the
    same question may get different answers at different moments. *)
Record World := mkWorld {
  (** [new URL(url).hostname]; [None] when the constructor throws *)
  hostname : string -> option string;
  lookup : nat -> string -> Completion LookupAddress;
  dnsResolveCname : nat -> string -> Completion (list string);
  fetch : nat -> Request -> Completion (Response string);
  searchGoogle : string -> Z -> Completion (list SearchResult);
  searchDuckDuckGo : string -> Z -> Completion (list SearchResult);
  searchBing : nat -> string -> Z -> Completion (list SearchResult);
  searchWithAPI : string -> Z -> Completion (list SearchResult);
  (** [process.env.SERP_API_KEY] *)
  SERP_API_KEY : option string;
  (** [getShopifyUrlsFromGitHub], taken as a source of candidates *)
  getShopifyUrlsFromGitHub : Z -> Completion (list SearchResult);
  (** the crt.sh service *)
  crtsh : CT.CtFetch;
  (** [new Date().toISOString()] when the report is built *)
  nowISO : string
}.

(** What an item's processing asks of the network, in order. *)
Inductive Event :=
| DnsLookup (i : nat) (domain : string)
| CnameLookup (i : nat) (domain : string)
| HtmlFetch (i : nat) (url : string)
| Classify (i : nat).

Definition isHtmlFetch (i : nat) (e : Event) : bool :=
  match e with
  | HtmlFetch j _ => i =? j
  | _ => false
  end.

Definition isClassify (i : nat) (e : Event) : bool :=
  match e with
  | Classify j => i =? j
  | _ => false
  end.

Definition e_acute : string := String "233" "".
Definition msg_Echec : string := String "201" "chec".
Definition msg_recuperer : string := "r" +:+ e_acute +:+ "cup" +:+ e_acute +:+ "r".

(** [!html] for [html : string | null] *)
Definition noHtml (html : option string) : bool :=
  match html with
  | Some (String _ _) => false
  | _ => true
  end.

(** The two arrays [results] and [shopifyUrls] that an analysis fills, and
    what it asked of the network so far; [Item] is the pipeline's own record
    of one result. *)
Record Run (Item : Type) := mkRun {
  st_results : list Item;
  st_shopifyUrls : list string;
  st_events : list Event
}.
Arguments mkRun {Item}.
Arguments st_results {Item}.
Arguments st_shopifyUrls {Item}.
Arguments st_events {Item}.

(** [results.push(result)] *)
Definition push {Item} (result : Item) (st : Run Item) : Run Item :=
  mkRun (st_results st ++ [result]) (st_shopifyUrls st) (st_events st).

(** [shopifyUrls.push(url)] *)
Definition pushShopify {Item} (url : string) (st : Run Item) : Run Item :=
  mkRun (st_results st) (st_shopifyUrls st ++ [url]) (st_events st).

Definition emit {Item} (e : Event) (st : Run Item) : Run Item :=
  mkRun (st_results st) (st_shopifyUrls st) (st_events st ++ [e]).

Definition emptyRun {Item} : Run Item := mkRun [] [] [].

(** [for (let i = 0; i < array.length; i++) body(i, array[i])], entered at
    position [i] with the rest of the array. *)
Fixpoint forEachFrom {A St : Type} (body : nat -> A -> St -> St) (i : nat)
                     (array : list A) (st : St) : St :=
  match array with
  | [] => st
  | x :: rest => forEachFrom body (S i) rest (body i x st)
  end.

(** *** [src/pipeline/scanNiche.ts] and [src/pipeline/scanMassive.ts] *)

Record ScanResult := mkScanResult {
  title : string;
  url : string;
  dnsOk : bool;
  htmlFetched : bool;
  isShopify : bool;
  confidence : option float;
  error : option string
}.

Record ScanOutput := mkScanOutput {
  query : string;
  scannedCount : nat;
  results : list ScanResult;
  shopifyUrls : list string;
  shopifyCount : nat
}.

Definition ScanState : Type := Run ScanResult.

Definition withError (msg : string) (r : ScanResult) : ScanResult :=
  mkScanResult (title r) (url r) (dnsOk r) (htmlFetched r) (isShopify r)
               (confidence r) (Some msg).

Definition withDnsOk (b : bool) (r : ScanResult) : ScanResult :=
  mkScanResult (title r) (url r) b (htmlFetched r) (isShopify r)
               (confidence r) (error r).

Definition withHtmlFetched (b : bool) (r : ScanResult) : ScanResult :=
  mkScanResult (title r) (url r) (dnsOk r) b (isShopify r)
               (confidence r) (error r).

Definition withVerdict (b : bool) (c : float) (r : ScanResult) : ScanResult :=
  mkScanResult (title r) (url r) (dnsOk r) (htmlFetched r) b (Some c) (error r).

(** The body of the analysis loop, the same in [scanNiche] and
    [scanMassive]; [timeout] is the number passed to [fetchHtml]. *)
Definition analyse (w : World) (timeout : Z) (i : nat) (title url : string)
                   (st : ScanState) : ScanState :=
  let result := mkScanResult title url false false false None None in
  match hostname w url with
  | None => push (withError "URL invalide" result) st
  | Some domain =>
      let dnsResult := dnsCheck (lookup w i) domain in
      let st := emit (DnsLookup i domain) st in
      let result := withDnsOk (dc_ok dnsResult) result in
      if negb (dc_ok dnsResult) then
        push (withError ("DNS: " +:+ orElse (default "" (dc_error dnsResult)) msg_Echec)
                        result) st
      else
        let st := emit (HtmlFetch i url) st in
        match fetchHtml (fetch w i) url (Some (inl timeout)) None with
        | Throw error =>
            push (withError (orElse (err_message error) "Erreur inconnue") result) st
        | Return html =>
            let result := withHtmlFetched (bool_decide (html ≠ None)) result in
            if noHtml html then
              push (withError ("Impossible de " +:+ msg_recuperer +:+ " le HTML") result) st
            else
              let st := emit (Classify i) st in
              let result := withVerdict (Detect.isShopify html)
                                        (Detect.getShopifyConfidence html) result in
              let st := if isShopify result then pushShopify url st else st in
              push result st
        end
  end.

(** [for (let i = 0; i < searchResults.length; i++)] *)
Definition analyseAll (w : World) (timeout : Z) (searchResults : list SearchResult)
  : ScanState :=
  forEachFrom (fun i r => analyse w timeout i (sr_title r) (sr_url r))
              0 searchResults emptyRun.

Record ScanOptions := mkScanOptions {
  maxResults : option Z;
  so_timeout : option Z
}.

(** [for (const engine of searchEngines) try { ...; break } catch { }] *)
Fixpoint firstEngine (engines : list (Completion (list SearchResult)))
  : list SearchResult :=
  match engines with
  | [] => []
  | Return searchResults :: _ => searchResults
  | Throw _ :: rest => firstEngine rest
  end.

Definition scanNiche_search (w : World) (query : string) (maxResults : Z)
  : list SearchResult :=
  let searchResults :=
    firstEngine [ searchGoogle w query maxResults;
                  searchDuckDuckGo w query maxResults;
                  searchBing w 0 query maxResults ] in
  if (length searchResults =? 0) && CT.truthy (SERP_API_KEY w) then
    match searchWithAPI w query maxResults with
    | Return apiResults => apiResults
    | Throw _ => searchResults
    end
  else searchResults.

Definition scanNiche_run (w : World) (query : string) (options : option ScanOptions)
  : ScanState :=
  let maxResults := numberOr (options ≫= maxResults) 20 in
  let timeout := numberOr (options ≫= so_timeout) 10000 in
  let searchResults := scanNiche_search w query maxResults in
  if length searchResults =? 0 then emptyRun
  else analyseAll w timeout searchResults.

Definition report (query : string) (st : ScanState) : ScanOutput :=
  mkScanOutput query (length (st_results st)) (st_results st)
               (st_shopifyUrls st) (length (st_shopifyUrls st)).

Definition scanNiche (w : World) (query : string) (options : option ScanOptions)
  : ScanOutput :=
  report query (scanNiche_run w query options).

(** The two collections [allUrls] and [urlToTitle] of [scanMassive]. *)
Record Collected := mkCollected {
  allUrls : list string;
  urlToTitle : gmap string string
}.

(** [allUrls.add(result.url); urlToTitle.set(result.url, result.title);] *)
Definition addCt (c : Collected) (result : SearchResult) : Collected :=
  mkCollected (JsSet.add (allUrls c) (sr_url result))
              (<[sr_url result := sr_title result]> (urlToTitle c)).

(** [allUrls.add(result.url); if (!urlToTitle.has(result.url)) ...set(...)] *)
Definition addGitHub (c : Collected) (result : SearchResult) : Collected :=
  mkCollected (JsSet.add (allUrls c) (sr_url result))
              (match urlToTitle c !! sr_url result with
               | Some _ => urlToTitle c
               | None => <[sr_url result := sr_title result]> (urlToTitle c)
               end).

(** A source that throws contributes nothing. *)
Definition harvested (source : Completion (list SearchResult)) : list SearchResult :=
  match source with
  | Return l => l
  | Throw _ => []
  end.

Definition massiveCollect (ctResults : Completion (list SearchResult))
                          (githubResults : option (Completion (list SearchResult)))
  : Collected :=
  let c := foldl addCt (mkCollected [] ∅) (harvested ctResults) in
  match githubResults with
  | Some source => foldl addGitHub c (harvested source)
  | None => c
  end.

Record MassiveOptions := mkMassiveOptions {
  maxResultsPerQuery : option Z;
  mo_timeout : option Z;
  useGenericQueries : option bool;
  useShopifyQueries : option bool
}.

(** The candidates of [scanMassive]: each URL of [allUrls] with
    [urlToTitle.get(url) || url]. *)
Definition titled (c : Collected) : list SearchResult :=
  List.map (fun url => mkSearchResult (orElse (default "" (urlToTitle c !! url)) url) url)
           (allUrls c).

Definition scanMassive_collect (w : World) (options : option MassiveOptions)
  : Collected :=
  let maxResultsPerQuery := numberOr (options ≫= maxResultsPerQuery) 50 in
  let useGenericQueries :=
    match options ≫= useGenericQueries with Some false => false | _ => true end in
  massiveCollect
    (CT.getShopifyDomainsFromCT (crtsh w) (Some (Z.to_nat (maxResultsPerQuery * 10))))
    (if useGenericQueries
     then Some (getShopifyUrlsFromGitHub w maxResultsPerQuery) else None).

Definition scanMassive (w : World) (options : option MassiveOptions) : ScanOutput :=
  let timeout := numberOr (options ≫= mo_timeout) 10000 in
  report "SCAN MASSIF"
         (analyseAll w timeout (titled (scanMassive_collect w options))).

End Pipeline.

(** *** [src/pipeline/scanBingBulk.ts] *)

Module BingBulk.
Import JsString Network Pipeline.

Record BingBulkScanOptions := mkBingBulkScanOptions {
  queries : list string;
  maxResultsPerQuery : option Z;
  sleepMsBetweenQueries : option Z;
  timeout : option Z;
  reuseBrowser : option bool
}.

Record BingBulkScanResultItem := mkItem {
  query : string;
  url : string;
  title : string;
  dnsOk : bool;
  cnames : list string;
  htmlFetched : bool;
  isShopify : bool;
  confidence : option float;
  error : option string
}.

Record BingBulkScanResult := mkBingBulkScanResult {
  r_queries : list string;
  totalUrls : nat;
  shopifyUrls : list string;
  shopifyCount : nat;
  results : list BingBulkScanResultItem;
  generatedAt : string
}.

(** [allUrls], [urlToTitle] and [urlToQuery] *)
Record Collected := mkCollected {
  allUrls : list string;
  urlToTitle : gmap string string;
  urlToQuery : gmap string string
}.

Definition noneCollected : Collected := mkCollected [] ∅ ∅.

(** [if (!allUrls.has(result.url)) { add; set title; set query }] *)
Definition addResult (query : string) (c : Collected) (result : SearchResult)
  : Collected :=
  if JsSet.has (allUrls c) (sr_url result) then c
  else mkCollected (JsSet.add (allUrls c) (sr_url result))
                   (<[sr_url result := sr_title result]> (urlToTitle c))
                   (<[sr_url result := query]> (urlToQuery c)).

(** One turn of the query loop, given what [searchBing] did for the query:
    a query whose search throws is skipped. *)
Definition addHarvest (c : Collected)
                      (h : string * Completion (list SearchResult)) : Collected :=
  match h.2 with
  | Return searchResults => foldl (addResult h.1) c searchResults
  | Throw _ => c
  end.

Definition collect (harvests : list (string * Completion (list SearchResult)))
  : Collected :=
  foldl addHarvest noneCollected harvests.

(** The calls of the query loop, in order. *)
Definition harvests (w : World) (queries : list string) (maxResultsPerQuery : Z)
  : list (string * Completion (list SearchResult)) :=
  imap (fun i query => (query, searchBing w i query maxResultsPerQuery)) queries.

Definition BulkState : Type := Run BingBulkScanResultItem.

Definition withError (msg : string) (r : BingBulkScanResultItem)
  : BingBulkScanResultItem :=
  mkItem (query r) (url r) (title r) (dnsOk r) (cnames r) (htmlFetched r)
         (isShopify r) (confidence r) (Some msg).

Definition withDnsOk (b : bool) (r : BingBulkScanResultItem) : BingBulkScanResultItem :=
  mkItem (query r) (url r) (title r) b (cnames r) (htmlFetched r)
         (isShopify r) (confidence r) (error r).

Definition withCnames (l : list string) (r : BingBulkScanResultItem)
  : BingBulkScanResultItem :=
  mkItem (query r) (url r) (title r) (dnsOk r) l (htmlFetched r)
         (isShopify r) (confidence r) (error r).

Definition withHtmlFetched (b : bool) (r : BingBulkScanResultItem)
  : BingBulkScanResultItem :=
  mkItem (query r) (url r) (title r) (dnsOk r) (cnames r) b
         (isShopify r) (confidence r) (error r).

Definition withIsShopify (b : bool) (r : BingBulkScanResultItem)
  : BingBulkScanResultItem :=
  mkItem (query r) (url r) (title r) (dnsOk r) (cnames r) (htmlFetched r)
         b (confidence r) (error r).

Definition msg_nonRecupere : string :=
  "HTML non r" +:+ e_acute +:+ "cup" +:+ e_acute +:+ "r" +:+ e_acute.

(** The body of [for (let i = 0; i < urlsArray.length; i++)];
    [query0] is [queries[0]], the empty string when there is none. *)
Definition analyse (w : World) (timeout : Z) (c : Collected) (query0 : string)
                   (i : nat) (url : string) (st : BulkState) : BulkState :=
  let title := orElse (default "" (urlToTitle c !! url)) url in
  let result :=
    mkItem (orElse (default "" (urlToQuery c !! url)) query0) url title
           false [] false false None None in
  match hostname w url with
  | None => push (withError "URL invalide" result) st
  | Some domain =>
      let dnsResult := dnsLookup (lookup w i) domain in
      let st := emit (DnsLookup i domain) st in
      let result := withDnsOk (dl_ok dnsResult || false) result in
      if negb (dl_ok dnsResult) then
        push (withError ("DNS: " +:+ orElse (default "" (dl_error dnsResult)) msg_Echec)
                        result) st
      else
        let cnameResult := resolveCname (dnsResolveCname w i) domain in
        let st := emit (CnameLookup i domain) st in
        let result := withCnames (cn_cnames cnameResult) result in
        let st := emit (HtmlFetch i url) st in
        match fetchHtml (fetch w i) url
                        (Some (inr (mkFetchHtmlOptions (Some timeout) None None))) None
        with
        | Throw error =>
            push (withError (orElse (err_message error) "Erreur inconnue") result) st
        | Return html =>
            if noHtml html then push (withError msg_nonRecupere result) st
            else
              let html := default "" html in
              let result := withHtmlFetched true result in
              if String.length html <? 100 then
                push (withError "HTML trop court ou invalide" result) st
              else
                let st := emit (Classify i) st in
                let result := withIsShopify (Detect.isShopifyHtml (Some html)) result in
                let st := if isShopify result then pushShopify url st else st in
                push result st
        end
  end.

Definition analyseAll (w : World) (timeout : Z) (c : Collected) (query0 : string)
                      (urlsArray : list string) : BulkState :=
  forEachFrom (analyse w timeout c query0) 0 urlsArray emptyRun.

Definition scanBingBulk_collect (w : World) (options : BingBulkScanOptions)
  : Collected :=
  collect (harvests w (queries options) (default 50%Z (maxResultsPerQuery options))).

Definition scanBingBulk_run (w : World) (options : BingBulkScanOptions) : BulkState :=
  let c := scanBingBulk_collect w options in
  analyseAll w (default 15000%Z (timeout options)) c
             (default "" (queries options !! 0)) (allUrls c).

Definition scanBingBulk (w : World) (options : BingBulkScanOptions)
  : Completion BingBulkScanResult :=
  let c := scanBingBulk_collect w options in
  let st := scanBingBulk_run w options in
  Return (mkBingBulkScanResult (queries options) (length (allUrls c))
                               (st_shopifyUrls st) (length (st_shopifyUrls st))
                               (st_results st) (nowISO w)).

End BingBulk.

(** *** [src/pipeline/scanNicheWithBing.ts] *)

Module NicheWithBing.
Import JsString Network Pipeline.

Record NicheScanResultItem := mkItem {
  title : string;
  url : string;
  dnsOk : bool;
  cnames : list string;
  htmlFetched : bool;
  isShopify : bool;
  error : option string
}.

Record NicheScanResult := mkNicheScanResult {
  query : string;
  scannedCount : nat;
  shopifyCount : nat;
  results : list NicheScanResultItem;
  shopifyUrls : list string
}.

Definition NicheState : Type := Run NicheScanResultItem.

Definition withError (msg : string) (r : NicheScanResultItem) : NicheScanResultItem :=
  mkItem (title r) (url r) (dnsOk r) (cnames r) (htmlFetched r) (isShopify r) (Some msg).

Definition withDnsOk (b : bool) (r : NicheScanResultItem) : NicheScanResultItem :=
  mkItem (title r) (url r) b (cnames r) (htmlFetched r) (isShopify r) (error r).

Definition withCnames (l : list string) (r : NicheScanResultItem) : NicheScanResultItem :=
  mkItem (title r) (url r) (dnsOk r) l (htmlFetched r) (isShopify r) (error r).

Definition withHtmlFetched (b : bool) (r : NicheScanResultItem) : NicheScanResultItem :=
  mkItem (title r) (url r) (dnsOk r) (cnames r) b (isShopify r) (error r).

Definition withIsShopify (b : bool) (r : NicheScanResultItem) : NicheScanResultItem :=
  mkItem (title r) (url r) (dnsOk r) (cnames r) (htmlFetched r) b (error r).

(** [processUrl(result, index)], as its effect on the two shared arrays.
    The arrays are only touched after the last [await] of the function, in
    one uninterrupted run, so the effect of a whole call is applied at the
    moment that call finishes; [i] is the position of [result] in
    [searchResults]. *)
Definition processUrl (w : World) (i : nat) (result : SearchResult)
                      (st : NicheState) : NicheState :=
  let item := mkItem (sr_title result) (sr_url result) false [] false false None in
  match hostname w (sr_url result) with
  | None => push (withError "URL invalide" item) st
  | Some domain =>
      let dnsResult := dnsLookup (lookup w i) domain in
      let st := emit (DnsLookup i domain) st in
      let item := withDnsOk (dl_ok dnsResult) item in
      if negb (dl_ok dnsResult) then
        push (withError ("DNS: " +:+ orElse (default "" (dl_error dnsResult)) msg_Echec)
                        item) st
      else
        let cnameResult := resolveCname (dnsResolveCname w i) domain in
        let st := emit (CnameLookup i domain) st in
        let item := withCnames (cn_cnames cnameResult) item in
        let st := emit (HtmlFetch i (sr_url result)) st in
        match fetchHtml (fetch w i) (sr_url result)
                        (Some (inr (mkFetchHtmlOptions (Some 10000%Z) None None))) None
        with
        | Throw error =>
            push (withError (orElse (err_message error) "Erreur inconnue") item) st
        | Return html =>
            let item := withHtmlFetched (bool_decide (html ≠ None)) item in
            if noHtml html then push (withError BingBulk.msg_nonRecupere item) st
            else
              let st := emit (Classify i) st in
              let item := withIsShopify (Detect.isShopifyHtml html) item in
              let st := if isShopify item then pushShopify (sr_url result) st else st in
              push item st
        end
  end.

(** The calls of [processUrl] run concurrently, at most [concurrency] of them
    at a time; [finished] lists the positions of the results in the order in
    which their calls finish, which is all that the pool decides about the
    two arrays (every call is started and finishes when [concurrency] is
    positive). *)
Definition runPool (w : World) (searchResults : list SearchResult)
                   (finished : list nat) : NicheState :=
  foldl (fun st i =>
           match searchResults !! i with
           | Some result => processUrl w i result st
           | None => st
           end)
        emptyRun finished.

Definition emptyReport (query : string) : NicheScanResult :=
  mkNicheScanResult query 0 0 [] [].

(** [maxResults] is [None] when the argument is left out; the third argument
    of the source, [concurrency], is reflected by [finished]. *)
Definition scanNicheWithBing (w : World) (query : string) (maxResults : option Z)
                             (finished : list nat) : NicheScanResult :=
  match searchBing w 0 query (default 50%Z maxResults) with
  | Throw _ => emptyReport query
  | Return searchResults =>
      if length searchResults =? 0 then emptyReport query
      else
        let st := runPool w searchResults finished in
        mkNicheScanResult query (length (st_results st)) (length (st_shopifyUrls st))
                          (st_results st) (st_shopifyUrls st)
  end.

End NicheWithBing.

(** *** [src/pipeline/scanCT.ts] *)

#[local] Set Warnings "-abstract-large-number".

Module ScanCT.
Import JsString Network Pipeline.


Record CtScanResultItem := mkItem {
  domain : string;
  url : string;
  dnsOk : bool;
  cnames : list string;
  htmlFetched : bool;
  isShopify : bool;
  confidence : option float;
  error : option string
}.

Record CtScanResult := mkCtScanResult {
  r_pattern : string;
  totalDomainsFetched : nat;
  scannedCount : nat;
  shopifyCount : nat;
  results : list CtScanResultItem;
  shopifyUrls : list string
}.

(** The class [ConcurrencyPool] *)

(** The fields [running] and [queue] of the pool, and the tasks that
    [processQueue] has called so far, in the order of the calls.  A task
    that is called raises [running] before anything else happens. *)
Record Pool (T : Type) := mkPool {
  running : nat;
  queue : list T;
  started : list T
}.
Arguments mkPool {T}.
Arguments running {T}.
Arguments queue {T}.
Arguments started {T}.

(** [while (this.running < this.maxConcurrency && this.queue.length > 0)] *)
Fixpoint processQueue {T} (maxConcurrency : Z) (running : nat)
                      (queue started : list T) : Pool T :=
  match queue with
  | [] => mkPool running [] started
  | task :: rest =>
      if (Z.of_nat running <? maxConcurrency)%Z
      then processQueue maxConcurrency (S running) rest (started ++ [task])
      else mkPool running queue started
  end.

(** [add(fn)]: [this.queue.push(...); this.processQueue();] *)
Definition add {T} (maxConcurrency : Z) (p : Pool T) (task : T) : Pool T :=
  processQueue maxConcurrency (running p) (queue p ++ [task]) (started p).

(** The [finally] block of a task: [this.running--; this.processQueue();] *)
Definition settle {T} (maxConcurrency : Z) (p : Pool T) : Pool T :=
  processQueue maxConcurrency (pred (running p)) (queue p) (started p).

(** What happens to a pool: a call of [add], or the end of a task that was
    called and has not ended yet. *)
Inductive PoolEvent (T : Type) :=
| Add (task : T)
| Settle.
Arguments Add {T}.
Arguments Settle {T}.

(** The pool after a sequence of events; [None] when the sequence ends a
    task while none is running, which cannot happen. *)
Fixpoint after {T} (maxConcurrency : Z) (p : Pool T) (events : list (PoolEvent T))
  : option (Pool T) :=
  match events with
  | [] => Some p
  | Add task :: rest => after maxConcurrency (add maxConcurrency p task) rest
  | Settle :: rest =>
      match running p with
      | 0 => None
      | S _ => after maxConcurrency (settle maxConcurrency p) rest
      end
  end.

(** [new ConcurrencyPool(maxConcurrency)] *)
Definition newPool {T} : Pool T := mkPool 0 [] [].

(** [processDomain] *)

Definition CtState : Type := Run CtScanResultItem.

Definition withError (msg : string) (r : CtScanResultItem) : CtScanResultItem :=
  mkItem (domain r) (url r) (dnsOk r) (cnames r) (htmlFetched r) (isShopify r)
         (confidence r) (Some msg).

Definition withDnsOk (b : bool) (r : CtScanResultItem) : CtScanResultItem :=
  mkItem (domain r) (url r) b (cnames r) (htmlFetched r) (isShopify r)
         (confidence r) (error r).

Definition withCnames (l : list string) (r : CtScanResultItem) : CtScanResultItem :=
  mkItem (domain r) (url r) (dnsOk r) l (htmlFetched r) (isShopify r)
         (confidence r) (error r).

Definition withHtmlFetched (b : bool) (r : CtScanResultItem) : CtScanResultItem :=
  mkItem (domain r) (url r) (dnsOk r) (cnames r) b (isShopify r)
         (confidence r) (error r).

Definition withIsShopify (b : bool) (r : CtScanResultItem) : CtScanResultItem :=
  mkItem (domain r) (url r) (dnsOk r) (cnames r) (htmlFetched r) b
         (confidence r) (error r).

Definition maxFetchAttempts : nat := 2.

(** [while (!html && fetchAttempts < maxFetchAttempts)]: [remaining] is
    [maxFetchAttempts - fetchAttempts], and [fetchAt k] is the network as it
    answers attempt number [k]. *)
Fixpoint fetchLoop (fetchAt : nat -> Request -> Completion (Response string))
                   (i : nat) (url : string) (timeout : Z)
                   (fetchAttempts remaining : nat) (html : option string)
                   (st : CtState) : Completion (option string) * CtState :=
  match remaining with
  | 0 => (Return html, st)
  | S remaining =>
      if noHtml html then
        let fetchAttempts := S fetchAttempts in
        let st := emit (HtmlFetch i url) st in
        match fetchHtml (fetchAt fetchAttempts) url
                        (Some (inr (mkFetchHtmlOptions (Some timeout) None None))) None
        with
        | Throw error => (Throw error, st)
        | Return html =>
            fetchLoop fetchAt i url timeout fetchAttempts remaining html st
        end
      else (Return html, st)
  end.

(** [`HTML non récupéré après ${maxFetchAttempts} tentative(s)`] *)
Definition msg_apresTentatives : string :=
  BingBulk.msg_nonRecupere +:+ " apr" +:+ String "232" "s "
  +:+ pretty maxFetchAttempts +:+ " tentative(s)".

(** [!result.error] *)
Definition noError (r : CtScanResultItem) : bool :=
  match error r with
  | Some (String _ _) => false
  | _ => true
  end.

(** [processDomain(domain)] as its effect on the two shared arrays, applied
    when the call finishes: the arrays are only touched in the last
    uninterrupted run of the call.  [i] is the position of [domain] in
    [domains]; the lookups are those of the world at position [i], and
    [fetchAt i k] is the network at the [k]-th fetch attempt for this
    domain. *)
Definition processDomain (w : World)
                         (fetchAt : nat -> nat -> Request -> Completion (Response string))
                         (timeout : Z) (i : nat) (domain : string)
                         (st : CtState) : CtState :=
  let result := mkItem domain ("https://" +:+ domain) false [] false false None None in
  let dnsResult := dnsLookup (lookup w i) domain in
  let st := emit (DnsLookup i domain) st in
  let result := withDnsOk (dl_ok dnsResult) result in
  if negb (dl_ok dnsResult) then
    push (withError ("DNS: " +:+ orElse (default "" (dl_error dnsResult)) msg_Echec)
                    result) st
  else
    let cnameResult := resolveCname (dnsResolveCname w i) domain in
    let st := emit (CnameLookup i domain) st in
    let result := withCnames (cn_cnames cnameResult) result in
    let hasShopifyCname :=
      existsb (fun cname => includes (toLowerCase cname) "myshopify.com"
                            || includes (toLowerCase cname) "shopify")
              (cnames result) in
    match fetchLoop (fetchAt i) i (url result) timeout 0 maxFetchAttempts None st with
    | (Throw error, st) =>
        push (withError (orElse (err_message error) "Erreur inconnue") result) st
    | (Return html, st) =>
        let result := withHtmlFetched (bool_decide (html ≠ None)) result in
        let result :=
          if noHtml html && noError result
          then withError msg_apresTentatives result else result in
        if noHtml html then
          push (withIsShopify false (withError BingBulk.msg_nonRecupere result)) st
        else
          let html := default "" html in
          if String.length html <? 100 then
            push (withIsShopify false (withError "HTML trop court ou invalide" result)) st
          else
            let st := emit (Classify i) st in
            let result := withIsShopify (Detect.isShopifyHtml (Some html)) result in
            let st := if isShopify result then pushShopify (url result) st else st in
            push result st
    end.

(** [scanCT] *)

(** The tasks go through the pool; [finished] lists the positions of the
    domains in the order in which their calls of [processDomain] finish,
    which is all that the pool decides about the two arrays. *)
Definition runPool (w : World)
                   (fetchAt : nat -> nat -> Request -> Completion (Response string))
                   (timeout : Z) (domains : list string) (finished : list nat)
  : CtState :=
  foldl (fun st i =>
           match domains !! i with
           | Some domain => processDomain w fetchAt timeout i domain st
           | None => st
           end)
        emptyRun finished.

Definition emptyReport (pattern : string) : CtScanResult :=
  mkCtScanResult pattern 0 0 0 [] [].


End ScanCT.

(** * Vocabulary of the properties *)

(** The number of patterns of [ps] that occur in [html], whatever the case. *)
Definition matchCount (ps : list string) (html : string) : nat :=
  length (List.filter (fun p => JsString.test_ci p html) ps).

(** ** Concrete answers of the outside world, for the scenarios *)

Definition networkDown : JsError := mkError "TypeError" "fetch failed" "".

Definition notFound : JsError :=
  mkError "Error" "getaddrinfo ENOTFOUND" "ENOTFOUND".

(** The three name entries of the scenario, one certificate each. *)
Definition store1_response : Response (list CT.Cert) :=
  mkResponse true 200 "OK"
    (Return [ CT.mkCert (Some "*.store1.myshopify.com");
              CT.mkCert (Some "www.store1.myshopify.com");
              CT.mkCert (Some "admin.myshopify.com") ]).

(** The same three names as the lines of one [name_value]. *)
Definition store1_response_lines : Response (list CT.Cert) :=
  mkResponse true 200 "OK"
    (Return [ CT.mkCert (Some ("*.store1.myshopify.com" +:+ String "010" ""
                               +:+ "www.store1.myshopify.com" +:+ String "010" ""
                               +:+ "admin.myshopify.com")) ]).

Definition crtsh_down : nat -> CT.CtFetch := fun _ _ _ => Throw networkDown.

Definition months2026 (i : nat) : string * string :=
  match i with
  | 0 => ("20261002", "20261102")
  | _ => ("20260902", "20261002")
  end.

(** Ceiling of two consecutive errors, sixty days back (two dated queries),
    no pause. *)
Definition ceiling2 : CT.MassCtOptions :=
  CT.mkMassCtOptions None None (Some 0) None (Some 2) None None (Some 60).

(** A cap of one domain in total. *)
Definition cap1 : CT.MassCtOptions :=
  CT.mkMassCtOptions None (Some 1) (Some 0) None None None None (Some 60).

Definition twoStores_response : Response (list CT.Cert) :=
  mkResponse true 200 "OK"
    (Return [ CT.mkCert (Some "alpha.myshopify.com");
              CT.mkCert (Some "beta.myshopify.com") ]).

(** ** Reading a run *)

(** The fields that the result records of the three pipelines share. *)
Class ItemView (Item : Type) := {
  itemUrl : Item -> string;
  itemDnsOk : Item -> bool;
  itemHtmlFetched : Item -> bool;
  itemIsShopify : Item -> bool;
  itemError : Item -> option string
}.

#[global] Instance ScanResult_view : ItemView Pipeline.ScanResult :=
  {| itemUrl := Pipeline.url; itemDnsOk := Pipeline.dnsOk;
     itemHtmlFetched := Pipeline.htmlFetched; itemIsShopify := Pipeline.isShopify;
     itemError := Pipeline.error |}.

#[global] Instance BulkItem_view : ItemView BingBulk.BingBulkScanResultItem :=
  {| itemUrl := BingBulk.url; itemDnsOk := BingBulk.dnsOk;
     itemHtmlFetched := BingBulk.htmlFetched; itemIsShopify := BingBulk.isShopify;
     itemError := BingBulk.error |}.

#[global] Instance NicheItem_view : ItemView NicheWithBing.NicheScanResultItem :=
  {| itemUrl := NicheWithBing.url; itemDnsOk := NicheWithBing.dnsOk;
     itemHtmlFetched := NicheWithBing.htmlFetched;
     itemIsShopify := NicheWithBing.isShopify;
     itemError := NicheWithBing.error |}.

(** The text of an error field, the empty text when there is none. *)
Definition errorText (error : option string) : string := default "" error.

Definition hasError {Item} `{ItemView Item} (item : Item) : bool :=
  negb (JsString.isEmpty (errorText (itemError item))).

(** Where the processing of one candidate ends. *)
Inductive Outcome :=
| InvalidUrl
| DnsFails
| FetchFails
| EmptyContent
| TooShort (html : string)
| Classified (html : string).

Definition isDnsFailure (o : Outcome) : bool :=
  match o with DnsFails => true | _ => false end.

Definition isFetchFailure (o : Outcome) : bool :=
  match o with FetchFails => true | _ => false end.

(** Content with a Tier-A pattern reached the classifier. *)
Definition isTierA (o : Outcome) : bool :=
  match o with
  | Classified html => 1 <=? matchCount Detect.highConfidencePatterns html
  | _ => false
  end.

(** Content of a hundred characters or more, with a Tier-A pattern, reached
    the classifier. *)
Definition isLongTierA (o : Outcome) : bool :=
  match o with
  | Classified html =>
      (1 <=? matchCount Detect.highConfidencePatterns html)
      && (100 <=? String.length html)
  | _ => false
  end.

(** What [fetchHtml] gives at the end of the probes of one candidate. *)
Definition outcomeOf (w : Pipeline.World) (i : nat) (u : string)
                     (content : Completion (option string))
                     (threshold : nat) : Outcome :=
  match Pipeline.hostname w u with
  | None => InvalidUrl
  | Some d =>
      match Pipeline.lookup w i d with
      | Throw _ => DnsFails
      | Return _ =>
          match content with
          | Throw _ => FetchFails
          | Return None => FetchFails
          | Return (Some EmptyString) => EmptyContent
          | Return (Some html) =>
              if String.length html <? threshold then TooShort html
              else Classified html
          end
      end
  end.

(** [scanNiche] and [scanMassive] pass the timeout as a number and have no
    minimum length. *)
Definition nicheOutcome (w : Pipeline.World) (timeout : Z) (i : nat) (u : string)
  : Outcome :=
  outcomeOf w i u
    (Network.fetchHtml (Pipeline.fetch w i) u (Some (inl timeout)) None) 0.

(** [scanBingBulk] passes [{ timeoutMs }] and asks for a hundred characters. *)
Definition bulkOutcome (w : Pipeline.World) (timeout : Z) (i : nat) (u : string)
  : Outcome :=
  outcomeOf w i u
    (Network.fetchHtml (Pipeline.fetch w i) u
       (Some (inr (Network.mkFetchHtmlOptions (Some timeout) None None))) None) 100.

(** [scanNicheWithBing] passes [{ timeoutMs: 10000 }] and has no minimum. *)
Definition poolOutcome (w : Pipeline.World) (i : nat) (u : string) : Outcome :=
  outcomeOf w i u
    (Network.fetchHtml (Pipeline.fetch w i) u
       (Some (inr (Network.mkFetchHtmlOptions (Some 10000%Z) None None))) None) 0.

(** The result that an outcome calls for. *)
Definition agrees {Item} `{ItemView Item} (o : Outcome) (item : Item) : Prop :=
  match o with
  | InvalidUrl | DnsFails =>
      itemDnsOk item = false /\ itemHtmlFetched item = false
      /\ itemIsShopify item = false /\ hasError item = true
  | FetchFails =>
      itemDnsOk item = true /\ itemHtmlFetched item = false
      /\ itemIsShopify item = false /\ hasError item = true
  | EmptyContent =>
      itemDnsOk item = true /\ itemIsShopify item = false /\ hasError item = true
  | TooShort _ =>
      itemDnsOk item = true /\ itemHtmlFetched item = true
      /\ itemIsShopify item = false /\ hasError item = true
  | Classified html =>
      itemDnsOk item = true /\ itemHtmlFetched item = true
      /\ itemIsShopify item = Detect.isShopifyHtml (Some html)
      /\ itemError item = None
  end.

(** The events of item [i] once its host has been looked up. *)
Definition eventsOf (o : Outcome) (i : nat) (d u : string) (cname : bool)
  : list Pipeline.Event :=
  match o with
  | InvalidUrl => []
  | DnsFails => [ Pipeline.DnsLookup i d ]
  | FetchFails | EmptyContent | TooShort _ =>
      [ Pipeline.DnsLookup i d ]
      ++ (if cname then [ Pipeline.CnameLookup i d ] else [])
      ++ [ Pipeline.HtmlFetch i u ]
  | Classified _ =>
      [ Pipeline.DnsLookup i d ]
      ++ (if cname then [ Pipeline.CnameLookup i d ] else [])
      ++ [ Pipeline.HtmlFetch i u; Pipeline.Classify i ]
  end.

(** A page is fetched for an item only once the lookup of its host, made for
    that same item, has given an address. *)
Definition fetchOnlyAfterDns (w : Pipeline.World) (events : list Pipeline.Event) : Prop :=
  forall i u, Pipeline.HtmlFetch i u ∈ events ->
    exists d a, Pipeline.hostname w u = Some d /\ Pipeline.lookup w i d = Return a.

(** The positive URLs are those of the positive results, in order. *)
Definition positivesAgree {Item} `{ItemView Item} (st : Pipeline.Run Item) : Prop :=
  Pipeline.st_shopifyUrls st
  = List.map itemUrl (List.filter itemIsShopify (Pipeline.st_results st)).

(** The outcomes of the candidates of a loop entered at position [i]. *)
Fixpoint outcomesFrom {A} (outcome : nat -> A -> Outcome) (i : nat) (array : list A)
  : list Outcome :=
  match array with
  | [] => []
  | a :: rest => outcome i a :: outcomesFrom outcome (S i) rest
  end.

(** A loop body that records exactly one result per turn: the one that the
    outcome of the candidate calls for, with the candidate's URL, and that
    URL among the positive ones exactly when the result is positive. *)
Definition recordsOne {Item A} `{ItemView Item} (key : A -> string)
                      (outcome : nat -> A -> Outcome)
                      (body : nat -> A -> Pipeline.Run Item -> Pipeline.Run Item) : Prop :=
  forall i a st, exists item events,
    body i a st
    = Pipeline.mkRun (Pipeline.st_results st ++ [item])
                     (Pipeline.st_shopifyUrls st
                      ++ (if itemIsShopify item then [key a] else []))
                     (Pipeline.st_events st ++ events)
    /\ itemUrl item = key a
    /\ agrees (outcome i a) item.

(** ** A small world for the scenarios *)

(** [new URL(url).hostname] on the URLs of the scenarios, which are all of
    the form [https://host]. *)
Definition hostOf (url : string) : option string :=
  if JsString.startsWith url "https://" then Some (JsString.drop 8 url) else None.

Definition candidates3 : list SearchResult :=
  [ mkSearchResult "Gone" "https://gone.example";
    mkSearchResult "Down" "https://down.example";
    mkSearchResult "Shop" "https://shop.example" ].

(** The host [gone.example] does not resolve, the server [down.example] does
    not answer, and every other server answers with [page]; the search
    engines find the three candidates. *)
Definition scenarioWorld (page : string) : Pipeline.World :=
  Pipeline.mkWorld
    hostOf
    (fun _ d => if String.eqb d "gone.example" then Throw notFound
                else Return (Network.mkLookupAddress "203.0.113.7" 4))
    (fun _ _ => Throw (mkError "Error" "queryCname ENODATA" "ENODATA"))
    (fun _ request =>
       if String.eqb (Network.req_url request) "https://down.example"
       then Throw networkDown
       else Return (mkResponse true 200 "OK" (Return page)))
    (fun _ _ => Return candidates3)
    (fun _ _ => Return candidates3)
    (fun _ _ _ => Return candidates3)
    (fun _ _ => Return candidates3)
    None
    (fun _ => Return [])
    (fun _ _ => Throw networkDown)
    "2026-11-02T09:00:00.000Z".

(** Fifteen characters, one Tier-A pattern. *)
Definition shortTierAPage : string := "cdn.shopify.com".

(** More than a hundred characters, one Tier-A pattern. *)
Definition tierAPage : string :=
  "<html><head><link rel=stylesheet href=https://cdn.shopify.com/s/files/1/theme.css>"
  +:+ "</head><body><h1>Welcome to the shop</h1></body></html>".

Definition oneQuery : BingBulk.BingBulkScanOptions :=
  BingBulk.mkBingBulkScanOptions [ "site:myshopify.com snowboard" ] None (Some 0%Z) None None.

(** ** Reading an aggregation *)

(** The results of the harvest calls that did not throw, in call order. *)
Definition harvestedResults (hs : list (string * Completion (list SearchResult)))
  : list SearchResult :=
  flat_map (fun h => Pipeline.harvested h.2) hs.

(** The title of the first result that has this URL. *)
Fixpoint firstTitle (u : string) (rs : list SearchResult) : option string :=
  match rs with
  | [] => None
  | r :: rest => if String.eqb (sr_url r) u then Some (sr_title r) else firstTitle u rest
  end.

(** A collection that holds the URLs of [seen], once each, with for each URL
    the title of its first occurrence in [seen]. *)
Definition aggregates (allUrls : list string) (urlToTitle : gmap string string)
                      (seen : list SearchResult) : Prop :=
  NoDup allUrls
  /\ (forall u, u ∈ allUrls <-> u ∈ List.map sr_url seen)
  /\ (forall u, urlToTitle !! u = firstTitle u seen).

(** Two harvests that overlap on one URL, under different titles. *)
Definition harvestA : string * Completion (list SearchResult) :=
  ("site:myshopify.com snowboard",
   Return [ mkSearchResult "Alpha" "https://alpha.myshopify.com";
            mkSearchResult "Beta" "https://beta.myshopify.com" ]).

Definition harvestB : string * Completion (list SearchResult) :=
  ("site:myshopify.com skate",
   Return [ mkSearchResult "Beta skate shop" "https://beta.myshopify.com" ]).

(** ** Reading a cleaned domain *)

(** Every code unit of [s] passes the test [f]. *)
Fixpoint allChars (f : ascii -> bool) (s : string) : bool :=
  match s with
  | EmptyString => true
  | String c r => f c && allChars f r
  end.

(** Neither white space nor a capital letter. *)
Definition plainChar (c : ascii) : bool :=
  negb (JsString.isSpace c) && Ascii.eqb (JsString.lowerChar c) c.

(** What [fetchDomainsFromCT] and its variants let through: a name that is
    not empty, has a dot but not in front, and is free of white space and of
    capital letters. *)
Definition validDomain (d : string) : Prop :=
  d <> EmptyString
  /\ JsString.includes d "." = true
  /\ JsString.startsWith d "." = false
  /\ allChars plainChar d = true.

(** What [getShopifyDomainsFromCT] lets into its set of domains. *)
Definition storeOk (d : string) : Prop :=
  d <> EmptyString /\ d <> "myshopify.com" /\ JsString.startsWith d "." = false
  /\ hd "" (JsString.split "." d) ∉ CT.invalidStoreNames.

(** What [getShopifyDomainsFromCT] returns for such a domain. *)
Definition validStore (r : SearchResult) : Prop :=
  sr_url r = "https://" +:+ sr_title r /\ storeOk (sr_title r).

(** A certificate entry that carries names. *)
Definition named (cert : CT.Cert) : bool :=
  negb (JsString.isEmpty (default "" (CT.name_value cert))).

(** The crt.sh service answering every request with the same entries. *)
Definition answering (data : list CT.Cert) : CT.CtFetch :=
  fun _ _ => Return (mkResponse true 200 "OK" (Return data)).

(** ** Reading a positive result *)

(** What stands behind a positive result, number [i] of its run: the host of
    its URL was looked up with success, [content] is what the fetch of its
    page gave, a text of [minLength] code units or more that the classifier
    accepts, and the result says so. *)
Definition backedBy {Item} `{ItemView Item} (w : Pipeline.World) (i : nat)
                    (content : Completion (option string)) (minLength : nat)
                    (item : Item) : Prop :=
  exists d a html,
    Pipeline.hostname w (itemUrl item) = Some d
    /\ Pipeline.lookup w i d = Return a
    /\ content = Return (Some html)
    /\ minLength <= String.length html
    /\ Detect.isShopifyHtml (Some html) = true
    /\ itemDnsOk item = true /\ itemHtmlFetched item = true /\ itemError item = None.

(** ** Reading a run of [scanCT] *)

#[global] Instance CtItem_view : ItemView ScanCT.CtScanResultItem :=
  {| itemUrl := ScanCT.url; itemDnsOk := ScanCT.dnsOk;
     itemHtmlFetched := ScanCT.htmlFetched; itemIsShopify := ScanCT.isShopify;
     itemError := ScanCT.error |}.

(** The tasks handed to [add], in order, and the number of tasks that
    ended. *)
Definition added {T} (events : list (ScanCT.PoolEvent T)) : list T :=
  flat_map (fun e => match e with ScanCT.Add task => [task] | ScanCT.Settle => [] end)
           events.

Definition settled {T} (events : list (ScanCT.PoolEvent T)) : nat :=
  length (List.filter (fun e => match e with ScanCT.Settle => true | _ => false end)
                      events).

(** The content that [processDomain] works with after its two attempts:
    that of the first attempt unless it gave nothing, else that of the
    second one. *)
Definition retried (first second : Completion (option string))
  : Completion (option string) :=
  match first with
  | Return None | Return (Some EmptyString) => second
  | _ => first
  end.

(** Whether a second attempt is made. *)
Definition retries (first : Completion (option string)) : bool :=
  match first with
  | Return None | Return (Some EmptyString) => true
  | _ => false
  end.

(** Where the processing of domain number [i] ends. *)
Definition ctOutcome (w : Pipeline.World)
                     (fetchAt : nat -> nat -> Network.Request -> Completion (Response string))
                     (timeout : Z) (i : nat) (domain : string) : Outcome :=
  let attempt k :=
    Network.fetchHtml (fetchAt i k) ("https://" +:+ domain)
      (Some (inr (Network.mkFetchHtmlOptions (Some timeout) None None))) None in
  match Pipeline.lookup w i domain with
  | Throw _ => DnsFails
  | Return _ =>
      match retried (attempt 1) (attempt 2) with
      | Throw _ | Return None => FetchFails
      | Return (Some EmptyString) => EmptyContent
      | Return (Some html) =>
          if String.length html <? 100 then TooShort html else Classified html
      end
  end.

(** A network that fails the first attempt of every fetch and answers the
    later ones with [page]. *)
Definition secondAttemptAnswers (page : string)
  : nat -> nat -> Network.Request -> Completion (Response string) :=
  fun _ k _ =>
    if k =? 1 then Throw networkDown
    else Return (mkResponse true 200 "OK" (Return page)).

(** A world whose certificate logs know two names, one of which does not
    resolve, and whose resolver has an alias for every name. *)
Definition ctScenarioWorld : Pipeline.World :=
  Pipeline.mkWorld
    hostOf
    (fun _ d => if String.eqb d "gone.example" then Throw notFound
                else Return (Network.mkLookupAddress "203.0.113.7" 4))
    (fun _ _ => Return [ "shops.myshopify.com" ])
    (fun _ _ => Throw networkDown)
    (fun _ _ => Return [])
    (fun _ _ => Return [])
    (fun _ _ _ => Return [])
    (fun _ _ => Return [])
    None
    (fun _ => Return [])
    (answering [ CT.mkCert (Some "shop.example"); CT.mkCert (Some "*.gone.example") ])
    "2026-11-02T09:00:00.000Z".

(** What the pool keeps true: never more than [maxConcurrency] tasks
    running, no task waiting while a place is free, and no task called at all
    when [maxConcurrency] is not positive. *)
Definition poolInv {T} (maxConcurrency : Z) (p : ScanCT.Pool T) : Prop :=
  (Z.of_nat (ScanCT.running p) <= Z.max 0 maxConcurrency)%Z
  /\ (ScanCT.queue p <> [] -> (maxConcurrency <= Z.of_nat (ScanCT.running p))%Z)
  /\ ((maxConcurrency <= 0)%Z -> ScanCT.started p = []).

(** * Properties *)

(** ** Strings *)

Section StringFacts.
Import JsString.

Lemma canon_lower (c : ascii) : canonChar (lowerChar c) = canonChar c.
Proof. destruct c as [[] [] [] [] [] [] [] []]; reflexivity. Qed.

Lemma map_canon_lower (s : string) :
  map canonChar (toLowerCase s) = map canonChar s.
Proof.
  unfold toLowerCase.
  induction s as [|c s IH]; simpl; [reflexivity|].
  now rewrite canon_lower, IH.
Qed.

Lemma prefix_ci_lower (p s : string) :
  prefix_ci p (toLowerCase s) = prefix_ci p s.
Proof.
  revert s; induction p as [|a p IH]; intros [|b s]; simpl; try reflexivity.
  rewrite canon_lower, IH. reflexivity.
Qed.

Lemma test_ci_lower (p s : string) : test_ci p (toLowerCase s) = test_ci p s.
Proof.
  induction s as [|b s IH].
  - reflexivity.
  - change (toLowerCase (String b s)) with (String (lowerChar b) (toLowerCase s)).
    cbn [test_ci]. rewrite IH.
    change (String (lowerChar b) (toLowerCase s)) with (toLowerCase (String b s)).
    now rewrite prefix_ci_lower.
Qed.

Lemma prefix_ci_spec (p s : string) :
  prefix_ci p s = true <->
  exists mid post, s = String.append mid post /\ map canonChar mid = map canonChar p.
Proof.
  revert s; induction p as [|a p IH]; intros s.
  - split; [intros _; exists EmptyString, s; now destruct s | now destruct s].
  - destruct s as [|b s]; simpl.
    + split; [discriminate|]. intros (mid & post & E & M).
      destruct mid; simpl in *; discriminate.
    + destruct (Ascii.eqb_spec (canonChar a) (canonChar b)) as [Hc|Hc].
      * rewrite IH. split.
        -- intros (mid & post & -> & M). exists (String b mid), post.
           simpl. now rewrite M, Hc.
        -- intros (mid & post & E & M). destruct mid as [|m mid]; [discriminate|].
           simpl in E, M. injection E as -> ->. injection M as _ M.
           now exists mid, post.
      * split; [discriminate|]. intros (mid & post & E & M).
        destruct mid as [|m mid]; [discriminate|].
        simpl in E, M. injection E as -> ->. injection M as M _. congruence.
Qed.

Lemma test_ci_Occurs (p s : string) : test_ci p s = true <-> Occurs p s.
Proof.
  unfold Occurs. induction s as [|b s IH].
  - simpl. rewrite orb_false_r, prefix_ci_spec. split.
    + intros (mid & post & E & M). now exists EmptyString, mid, post.
    + intros (pre & mid & post & E & M). destruct pre; [|discriminate].
      now exists mid, post.
  - cbn [test_ci]. rewrite orb_true_iff, prefix_ci_spec, IH. split.
    + intros [(mid & post & E & M)|(pre & mid & post & E & M)].
      * now exists EmptyString, mid, post.
      * exists (String b pre), mid, post. simpl. now rewrite E.
    + intros (pre & mid & post & E & M). destruct pre as [|c pre].
      * left. now exists mid, post.
      * right. simpl in E. injection E as -> ->. now exists pre, mid, post.
Qed.
End StringFacts.

Section DetectFacts.
Import JsString Detect.

Lemma anyMatch_count (ps : list string) (h : string) :
  anyMatch ps h = (1 <=? length (List.filter (fun p => test_ci p h) ps)).
Proof.
  induction ps as [|p ps IH]; simpl; [reflexivity|].
  destruct (test_ci p h); simpl; [reflexivity | exact IH].
Qed.

Lemma countLoop_count (ps : list string) (h : string) (n : nat) :
  countLoop ps h n = n + length (List.filter (fun p => test_ci p h) ps).
Proof.
  revert n; induction ps as [|p ps IH]; intros n; simpl; [lia|].
  rewrite IH. destruct (test_ci p h); simpl; lia.
Qed.

Lemma filter_lower (ps : list string) (html : string) :
  List.filter (fun p => test_ci p (toLowerCase html)) ps
  = List.filter (fun p => test_ci p html) ps.
Proof.
  apply List.filter_ext. intros p. apply test_ci_lower.
Qed.

Lemma isShopifyHtml_rule (html : string) :
  isShopifyHtml (Some html) =
    negb (String.length html =? 0)
    && ((1 <=? matchCount highConfidencePatterns html)
        || (2 <=? matchCount mediumConfidencePatterns html)
        || ((1 <=? matchCount mediumConfidencePatterns html)
            && (2 <=? matchCount lowConfidencePatterns html))
        || (test_ci ".myshopify.com" html
            && (3 <=? matchCount mediumConfidencePatterns html
                      + matchCount lowConfidencePatterns html))).
Proof.
  unfold isShopifyHtml, matchCount.
  destruct (String.length html =? 0); [reflexivity|].
  cbv zeta. rewrite anyMatch_count, !countLoop_count, !filter_lower, test_ci_lower.
  cbn [negb andb Nat.add].
  repeat match goal with |- context [if ?b then _ else _] => destruct b end;
    reflexivity.
Qed.

Lemma matchCount_empty (ps : list string) :
  Forall (fun p => p <> EmptyString) ps -> matchCount ps "" = 0.
Proof.
  unfold matchCount. induction 1 as [|p ps Hp _ IH]; [reflexivity|].
  simpl. destruct p; [contradiction|]. exact IH.
Qed.

Lemma matchCount_positive (ps : list string) (html : string) :
  1 <= matchCount ps html <-> exists p, p ∈ ps /\ Occurs p html.
Proof.
  unfold matchCount. induction ps as [|p ps IH]; simpl.
  - split; [lia|]. intros (p & Hp & _). inversion Hp.
  - destruct (test_ci p html) eqn:E.
    + split; [|simpl; lia]. intros _. exists p. split; [left|].
      now apply test_ci_Occurs.
    + rewrite IH. split.
      * intros (p' & Hp & Ho). exists p'. split; [now right|exact Ho].
      * intros (p' & Hp & Ho). apply elem_of_cons in Hp as [->|Hp].
        -- apply test_ci_Occurs in Ho. congruence.
        -- now exists p'.
Qed.

(** C1: [isShopifyHtml] answers [true] exactly when one Tier-A pattern
    occurs, or two Tier-B patterns, or one Tier-B and two Tier-C patterns, or
    [.myshopify.com] occurs and Tier-B and Tier-C patterns together number
    three or more; for empty or absent content it answers [false]. *)
Theorem isShopifyHtml_tiers :
  (forall html : string,
     isShopifyHtml (Some html) = true <->
       1 <= matchCount highConfidencePatterns html
       \/ 2 <= matchCount mediumConfidencePatterns html
       \/ (1 <= matchCount mediumConfidencePatterns html
           /\ 2 <= matchCount lowConfidencePatterns html)
       \/ (Occurs ".myshopify.com" html
           /\ 3 <= matchCount mediumConfidencePatterns html
                   + matchCount lowConfidencePatterns html))
  /\ isShopifyHtml (Some "") = false
  /\ isShopifyHtml None = false.
Proof.
  split; [|split; reflexivity].
  intros html. rewrite isShopifyHtml_rule, <- test_ci_Occurs.
  destruct html as [|c html].
  - vm_compute. split; [discriminate|]. intros [H|[H|[[H _]|[H _]]]]; lia || discriminate.
  - cbn [String.length Nat.eqb negb andb].
    rewrite !orb_true_iff, !andb_true_iff, !Nat.leb_le. tauto.
Qed.

(** C10: the content [shopify.analytics] is classified positive, by the one
    Tier-A pattern it holds, and has confidence exactly zero: that pattern
    carries no weight in [weightedPatterns]. *)
Theorem positive_with_zero_confidence :
  isShopifyHtml (Some "shopify.analytics") = true
  /\ (getShopifyConfidence (Some "shopify.analytics") = 0%float)
  /\ "shopify.analytics" ∈ highConfidencePatterns
  /\ ("shopify.analytics" ∉ List.map fst weightedPatterns)
  /\ matchCount mediumConfidencePatterns "shopify.analytics" = 0
  /\ matchCount lowConfidencePatterns "shopify.analytics" = 0
  /\ matchCount highConfidencePatterns "shopify.analytics" = 1.
Proof.
  split; [vm_compute; reflexivity|].
  split; [vm_compute; reflexivity|].
  split; [apply list_elem_of_In; simpl; tauto|].
  split; [rewrite list_elem_of_In; simpl; intuition discriminate|].
  repeat split; vm_compute; reflexivity.
Qed.
End DetectFacts.

Section FetchHtmlFacts.
Import Network.

(** C8: [fetchHtml] always completes normally; it gives the body text of a
    successful answer (the empty text for a [HEAD] request, which has no
    body), and [null] when the request is aborted by the timer, when the
    network fails, when the body cannot be read, and for every status that is
    not a success: the same [null] whatever the cause. *)
Theorem fetchHtml_contract :
  forall (fetch : Request -> Completion (Response string)) (url : string)
         (timeoutOrOptions : option (Z + FetchHtmlOptions))
         (options : option FetchHtmlOptions),
    let opts := fetchHtml_opts timeoutOrOptions options in
    (exists r, fetchHtml fetch url timeoutOrOptions options = Return r)
    /\ fetchHtml fetch url timeoutOrOptions options =
       Return
         match fetch (fetchHtml_request url opts) with
         | Throw _ => None
         | Return response =>
             if resp_ok response then
               match fetchHtml_method opts with
               | HEAD => Some ""
               | GET => match resp_body response with
                        | Return html => Some html
                        | Throw _ => None
                        end
               end
             else None
         end.
Proof.
  intros fetch url too options opts.
  assert (E : fetchHtml fetch url too options =
       Return
         match fetch (fetchHtml_request url opts) with
         | Throw _ => None
         | Return response =>
             if resp_ok response then
               match fetchHtml_method opts with
               | HEAD => Some ""
               | GET => match resp_body response with
                        | Return html => Some html
                        | Throw _ => None
                        end
               end
             else None
         end).
  { unfold fetchHtml. fold opts.
    destruct (fetch (fetchHtml_request url opts)) as [response|e]; cbn.
    - destruct (resp_ok response); cbn; [|reflexivity].
      destruct (fetchHtml_method opts); cbn; [|reflexivity].
      destruct (resp_body response) as [html|e]; cbn; [reflexivity|].
      now destruct (String.eqb (err_name e) "AbortError").
    - now destruct (String.eqb (err_name e) "AbortError"). }
  split; [eexists; exact E | exact E].
Qed.

Lemma fetchHtml_timeout_is_null (url : string) :
  fetchHtml (fun _ => Throw (mkError "AbortError" "This operation was aborted" ""))
            url None None = Return None.
Proof. reflexivity. Qed.

Lemma fetchHtml_status_404_is_null (url : string) :
  fetchHtml (fun _ => Return (mkResponse false 404 "Not Found" (Return "gone")))
            url (Some (inl 5000%Z)) None = Return None.
Proof. reflexivity. Qed.

End FetchHtmlFacts.

Section CtFacts.
Import CT.

(** C3: on the three name entries, [getShopifyDomainsFromCT] yields the one
    candidate [store1.myshopify.com], while [fetchDomainsFromCT], which has no
    list of refused names, yields [admin.myshopify.com] as well; the same
    holds when the names are the lines of a single entry. *)
Theorem ct_cleaning_on_store1 :
  getShopifyDomainsFromCT (fun _ _ => Return store1_response) None
    = Return [ mkSearchResult "store1.myshopify.com" "https://store1.myshopify.com" ]
  /\ fetchDomainsFromCT (fun _ _ => Return store1_response) "%.myshopify.com" None
    = Return [ "store1.myshopify.com"; "admin.myshopify.com" ]
  /\ getShopifyDomainsFromCT (fun _ _ => Return store1_response_lines) None
    = Return [ mkSearchResult "store1.myshopify.com" "https://store1.myshopify.com" ]
  /\ fetchDomainsFromCT (fun _ _ => Return store1_response_lines) "%.myshopify.com" None
    = Return [ "store1.myshopify.com"; "admin.myshopify.com" ].
Proof. repeat split; vm_compute; reflexivity. Qed.

(** The three fetchers of [massCtScanner.ts] complete normally whatever the
    network does: the [catch] clause of the query loop is never entered. *)
Lemma dispatch_returns (fetch : CtFetch) (ctOptions : CtScannerOptions) (query : Query) :
  exists domains, dispatch fetch ctOptions query = Return domains.
Proof.
  unfold dispatch, fetchDomainsFromCTSilent, fetchDomainsFromCT,
    fetchDomainsFromCTWithDate, fetchDomainsFromCTWithEndpoint.
  destruct (endpoint query) as [[]|];
    repeat match goal with
      | |- context [if ?b then _ else _] => destruct b
      | |- context [scanBlock ?f ?u ?t ?l ?n ?d] =>
          destruct (scanBlock f u t l n d) as [[?|?] ?]
      end; eauto.
Qed.

(** C4: with a ceiling of two consecutive failures and every request to
    crt.sh failing, [massFetchDomainsFromCT] still hands all four queries to a
    fetcher (the third and the fourth included) and counts no error; it
    completes normally with the empty collection. *)
Theorem mass_scan_with_failing_queries :
  List.map description (attempted (massRun crtsh_down months2026 (Some ceiling2)))
    = [ "Requ" +:+ String "234" "te principale";
        "Date: 20261002 - 20261102"; "Date: 20260902 - 20261002";
        "Endpoint: Identity" ]
  /\ consecutiveErrors (massRun crtsh_down months2026 (Some ceiling2)) = 0
  /\ exists used,
       massFetchDomainsFromCT crtsh_down months2026 (Some ceiling2)
       = Return (mkMassCtResult used 0 []) /\ length used = 4.
Proof.
  split; [vm_compute; reflexivity|].
  split; [vm_compute; reflexivity|].
  eexists. split; [vm_compute; reflexivity | reflexivity].
Qed.

(** C9: with a cap of one domain in total and a first answer that holds two
    distinct names, [massFetchDomainsFromCT] returns both: the list is longer
    than the cap. *)
Theorem mass_scan_exceeds_cap :
  exists used,
    massFetchDomainsFromCT (fun _ _ _ => Return twoStores_response) months2026 (Some cap1)
    = Return (mkMassCtResult used 2 [ "alpha.myshopify.com"; "beta.myshopify.com" ])
    /\ maxTotalDomains cap1 = Some 1.
Proof. eexists. split; [vm_compute; reflexivity | reflexivity]. Qed.

End CtFacts.

(** ** Runs of the analysis loops *)

Section RunFacts.
Import Pipeline.
Context {Item A : Type} `{ItemView Item}.
Variable key : A -> string.
Variable outcome : nat -> A -> Outcome.
Variable body : nat -> A -> Run Item -> Run Item.
Hypothesis body_records : recordsOne key outcome body.

Lemma forEachFrom_records (array : list A) (i : nat) (st : Run Item) :
  exists items,
    st_results (forEachFrom body i array st) = st_results st ++ items
    /\ List.map itemUrl items = List.map key array
    /\ st_shopifyUrls (forEachFrom body i array st)
       = st_shopifyUrls st ++ List.map itemUrl (List.filter itemIsShopify items)
    /\ Forall2 agrees (outcomesFrom outcome i array) items.
Proof.
  revert i st. induction array as [|a array IH]; intros i st; simpl.
  - exists []. simpl. rewrite !app_nil_r. repeat split; constructor.
  - destruct (body_records i a st) as (item & evs & E & Hu & Ha).
    destruct (IH (S i) (body i a st)) as (items & Hr & Hm & Hs & Hf).
    exists (item :: items). rewrite Hr, Hs, E. simpl.
    rewrite <- !app_assoc. split; [reflexivity|]. split; [now rewrite Hu, Hm|].
    split; [|now constructor].
    f_equal. destruct (itemIsShopify item); simpl; now rewrite ?Hu.
Qed.

Lemma forEachFrom_length (array : list A) :
  length (st_results (forEachFrom body 0 array emptyRun)) = length array.
Proof.
  destruct (forEachFrom_records array 0 emptyRun) as (items & -> & Hm & _).
  simpl. now rewrite <- (length_map itemUrl), Hm, length_map.
Qed.

Lemma forEachFrom_urls (array : list A) :
  List.map itemUrl (st_results (forEachFrom body 0 array emptyRun))
  = List.map key array.
Proof.
  now destruct (forEachFrom_records array 0 emptyRun) as (items & -> & Hm & _).
Qed.

Lemma forEachFrom_positives (array : list A) :
  positivesAgree (forEachFrom body 0 array emptyRun).
Proof.
  unfold positivesAgree.
  now destruct (forEachFrom_records array 0 emptyRun) as (items & -> & _ & -> & _).
Qed.

Lemma forEachFrom_agrees (array : list A) :
  Forall2 agrees (outcomesFrom outcome 0 array)
          (st_results (forEachFrom body 0 array emptyRun)).
Proof.
  now destruct (forEachFrom_records array 0 emptyRun) as (items & -> & _ & _ & Hf).
Qed.

End RunFacts.

Lemma forEachFrom_events {A St : Type} (events : St -> list Pipeline.Event)
      (P : Pipeline.Event -> Prop) (body : nat -> A -> St -> St) :
  (forall i a st, Forall P (events st) -> Forall P (events (body i a st))) ->
  forall array i st,
    Forall P (events st) -> Forall P (events (Pipeline.forEachFrom body i array st)).
Proof.
  intros Hbody array. induction array as [|a array IH]; intros i st Hst; simpl; auto.
Qed.

(** ** Counting results by outcome *)

Section Counting.
Context {Item : Type} `{ItemView Item}.

Lemma agrees_counts (outcomes : list Outcome) (items : list Item) :
  Forall2 agrees outcomes items ->
  Forall (fun o => isDnsFailure o || isFetchFailure o || isTierA o = true) outcomes ->
  length (List.filter itemIsShopify items) = length (List.filter isTierA outcomes)
  /\ length (List.filter hasError items)
     = length (List.filter isDnsFailure outcomes)
       + length (List.filter isFetchFailure outcomes)
  /\ Forall (fun item => itemIsShopify item = negb (hasError item)) items.
Proof.
  induction 1 as [|o item outcomes items Ha _ IH]; intros Hk.
  - repeat split; constructor.
  - apply Forall_cons in Hk as [Ho Hk]. destruct (IH Hk) as (IH1 & IH2 & IH3).
    assert (Hitem : exists b, itemIsShopify item = b /\ hasError item = negb b
                              /\ b = isTierA o).
    { destruct o; cbn [isDnsFailure isFetchFailure isTierA orb] in Ho;
        try discriminate; cbn [agrees] in Ha.
      - exists false. tauto.
      - exists false. tauto.
      - exists true. destruct Ha as (_ & _ & Hs & He).
        assert (Hp : itemIsShopify item = true).
        { rewrite Hs, isShopifyHtml_rule, Ho.
          destruct html; [vm_compute in Ho; discriminate | reflexivity]. }
        unfold hasError. rewrite Hp, He. cbn [isTierA]. rewrite Ho. auto. }
    destruct Hitem as (b & Hs & He & Hb).
    assert (Hd : isDnsFailure o || isFetchFailure o = negb b).
    { rewrite Hb. destruct o; cbn [isDnsFailure isFetchFailure isTierA orb] in *;
        try discriminate; try reflexivity. now rewrite Ho. }
    cbn [List.filter]. rewrite Hs, He, <- Hb.
    split; [destruct b; simpl; lia|].
    split; [|constructor; [rewrite Hs, He; now destruct b | exact IH3]].
    destruct o, b; cbn [isDnsFailure isFetchFailure isTierA orb negb] in *;
      try discriminate; simpl; lia.
Qed.

Lemma kinds_bound (outcomes : list Outcome) :
  length (List.filter isDnsFailure outcomes)
  + length (List.filter isFetchFailure outcomes)
  + length (List.filter isTierA outcomes) <= length outcomes.
Proof.
  induction outcomes as [|o outcomes IH]; [simpl; lia|].
  cbn [List.filter length].
  destruct o; cbn [isDnsFailure isFetchFailure isTierA length]; try lia.
  destruct (1 <=? matchCount Detect.highConfidencePatterns html);
    cbn [length]; lia.
Qed.

Lemma three_kinds (outcomes : list Outcome) :
  length (List.filter isDnsFailure outcomes)
  + length (List.filter isFetchFailure outcomes)
  + length (List.filter isTierA outcomes) = length outcomes ->
  Forall (fun o => isDnsFailure o || isFetchFailure o || isTierA o = true) outcomes.
Proof.
  induction outcomes as [|o outcomes IH]; intros Hc; [constructor|].
  pose proof (kinds_bound outcomes) as Hb.
  cbn [List.filter length] in Hc.
  destruct o; cbn [isDnsFailure isFetchFailure isTierA length] in Hc;
    try (exfalso; lia);
    try (constructor; [reflexivity | apply IH; lia]).
  destruct (1 <=? matchCount Detect.highConfidencePatterns html) eqn:E;
    cbn [length] in Hc; [|exfalso; lia].
  constructor; [cbn [isDnsFailure isFetchFailure isTierA orb]; exact E | apply IH; lia].
Qed.

End Counting.

(** ** The loop bodies of the three pipelines *)

Section BodyFacts.
Import Network Pipeline.

Lemma orElse_nonempty a b : b <> EmptyString -> orElse a b <> EmptyString.
Proof. destruct a; simpl; [auto|discriminate]. Qed.

Lemma hasError_orElse {Item} `{ItemView Item} (item : Item) a b :
  itemError item = Some (orElse a b) -> b <> EmptyString -> hasError item = true.
Proof.
  intros E Hb. unfold hasError. rewrite E. simpl.
  pose proof (orElse_nonempty a b Hb). now destruct (orElse a b).
Qed.

Lemma outcomeOf_probed w i u content threshold :
  isDnsFailure (outcomeOf w i u content threshold) = false ->
  outcomeOf w i u content threshold <> InvalidUrl ->
  exists d a, hostname w u = Some d /\ lookup w i d = Return a.
Proof.
  unfold outcomeOf.
  destruct (hostname w u) as [d|] eqn:Eh; [|intros _ Hn; now destruct Hn].
  destruct (lookup w i d) as [a|e] eqn:El; [intros _ _; now exists d, a | discriminate].
Qed.

Lemma eventsOf_fetch o i d u cname j v :
  HtmlFetch j v ∈ eventsOf o i d u cname ->
  j = i /\ v = u /\ isDnsFailure o = false /\ o <> InvalidUrl.
Proof.
  destruct o, cname; simpl; rewrite ?elem_of_cons, ?elem_of_nil;
    intuition (try discriminate; try congruence).
Qed.

Lemma eventsOf_classify o i d u cname j :
  Classify j ∈ eventsOf o i d u cname -> j = i /\ exists html, o = Classified html.
Proof.
  destruct o, cname; simpl; rewrite ?elem_of_cons, ?elem_of_nil;
    intuition (try discriminate; try congruence; eauto).
Qed.

(** Splitting a loop body along its probes. *)
Ltac probe :=
  match goal with
  | |- context [hostname ?w ?u] => destruct (hostname w u) as [d|]
  | |- context [lookup ?w ?i ?d] => destruct (lookup w i d) as [a|e]
  | |- context [fetchHtml ?f ?u ?o ?p] =>
      destruct (fetchHtml f u o p) as [[[|ch html]|]|e]
  end.

Ltac close_step :=
  eexists;
  split; [apply f_equal3;
          [reflexivity
          | cbn -[Detect.isShopifyHtml Detect.getShopifyConfidence];
            rewrite ?app_nil_r; reflexivity
          | rewrite <- ?app_assoc;
            first [reflexivity | symmetry; apply app_nil_r] ]|];
  split; [reflexivity|];
  cbn -[Detect.isShopifyHtml Detect.getShopifyConfidence];
  repeat split; try reflexivity.

Lemma analyse_step w timeout i title u st :
  exists item,
    analyse w timeout i title u st
    = mkRun (st_results st ++ [item])
            (st_shopifyUrls st ++ (if itemIsShopify item then [u] else []))
            (st_events st
             ++ eventsOf (nicheOutcome w timeout i u) i
                         (default "" (hostname w u)) u false)
    /\ itemUrl item = u
    /\ agrees (nicheOutcome w timeout i u) item.
Proof.
  unfold analyse, nicheOutcome, outcomeOf, dnsCheck, dnsLookup, Detect.isShopify.
  destruct st as [rs us es].
  repeat probe; cbn -[Detect.isShopifyHtml Detect.getShopifyConfidence fetchHtml];
    try (destruct (Detect.isShopifyHtml (Some (String ch html))) eqn:V);
    unfold push, pushShopify, emit, withError, withDnsOk, withHtmlFetched, withVerdict;
    cbn -[Detect.isShopifyHtml Detect.getShopifyConfidence fetchHtml];
    close_step.
  all: try (eapply hasError_orElse; [reflexivity | discriminate]).
  all: try (symmetry; assumption).
Qed.

Lemma bulk_analyse_step w timeout c query0 i u st :
  exists item,
    BingBulk.analyse w timeout c query0 i u st
    = mkRun (st_results st ++ [item])
            (st_shopifyUrls st ++ (if itemIsShopify item then [u] else []))
            (st_events st
             ++ eventsOf (bulkOutcome w timeout i u) i
                         (default "" (hostname w u)) u true)
    /\ itemUrl item = u
    /\ agrees (bulkOutcome w timeout i u) item.
Proof.
  unfold BingBulk.analyse, bulkOutcome, outcomeOf, dnsLookup.
  destruct st as [rs us es].
  repeat probe; cbn -[Detect.isShopifyHtml Detect.getShopifyConfidence fetchHtml];
    try match goal with
      | |- context [String.length ?h <=? ?k] => destruct (String.length h <=? k)
      end;
    try (destruct (Detect.isShopifyHtml (Some (String ch html))) eqn:V);
    unfold push, pushShopify, emit, BingBulk.withError, BingBulk.withDnsOk,
      BingBulk.withCnames, BingBulk.withHtmlFetched, BingBulk.withIsShopify;
    cbn -[Detect.isShopifyHtml Detect.getShopifyConfidence fetchHtml];
    close_step.
  all: try (eapply hasError_orElse; [reflexivity | discriminate]).
  all: try (symmetry; assumption).
Qed.

Lemma processUrl_step w i result st :
  exists item,
    NicheWithBing.processUrl w i result st
    = mkRun (st_results st ++ [item])
            (st_shopifyUrls st ++ (if itemIsShopify item then [sr_url result] else []))
            (st_events st
             ++ eventsOf (poolOutcome w i (sr_url result)) i
                         (default "" (hostname w (sr_url result))) (sr_url result) true)
    /\ itemUrl item = sr_url result
    /\ agrees (poolOutcome w i (sr_url result)) item.
Proof.
  unfold NicheWithBing.processUrl, poolOutcome, outcomeOf, dnsLookup.
  destruct st as [rs us es].
  repeat probe; cbn -[Detect.isShopifyHtml Detect.getShopifyConfidence fetchHtml];
    try (destruct (Detect.isShopifyHtml (Some (String ch html))) eqn:V);
    unfold push, pushShopify, emit, NicheWithBing.withError, NicheWithBing.withDnsOk,
      NicheWithBing.withCnames, NicheWithBing.withHtmlFetched,
      NicheWithBing.withIsShopify;
    cbn -[Detect.isShopifyHtml Detect.getShopifyConfidence fetchHtml];
    close_step.
  all: try (eapply hasError_orElse; [reflexivity | discriminate]).
  all: try (symmetry; assumption).
Qed.

End BodyFacts.

(** ** Whole runs *)

Section PipelineFacts.
Import Network Pipeline.

Lemma analyse_recordsOne w timeout :
  recordsOne sr_url (fun i r => nicheOutcome w timeout i (sr_url r))
             (fun i r => analyse w timeout i (sr_title r) (sr_url r)).
Proof.
  intros i r st.
  destruct (analyse_step w timeout i (sr_title r) (sr_url r) st) as (item & E & Hu & Ha).
  eauto.
Qed.

Lemma bulk_recordsOne w timeout c query0 :
  recordsOne id (bulkOutcome w timeout) (BingBulk.analyse w timeout c query0).
Proof.
  intros i u st.
  destruct (bulk_analyse_step w timeout c query0 i u st) as (item & E & Hu & Ha).
  eauto.
Qed.

Lemma outcomesFrom_length {A} (outcome : nat -> A -> Outcome) (array : list A) i :
  length (outcomesFrom outcome i array) = length array.
Proof. revert i; induction array; intros i; simpl; auto. Qed.

Lemma fetchOnlyAfterDns_Forall w events :
  fetchOnlyAfterDns w events <->
  Forall (fun ev => forall i u, ev = HtmlFetch i u ->
            exists d a, hostname w u = Some d /\ lookup w i d = Return a) events.
Proof.
  unfold fetchOnlyAfterDns. rewrite Forall_forall. split.
  - intros Hf ev Hin i u ->. auto.
  - intros Hf i u Hin. eapply Hf; eauto.
Qed.

Lemma fetchOnlyAfterDns_app w events i d u cname content threshold :
  fetchOnlyAfterDns w events ->
  fetchOnlyAfterDns w
    (events ++ eventsOf (outcomeOf w i u content threshold) i d u cname).
Proof.
  intros Hf j v Hin. apply elem_of_app in Hin as [Hin|Hin]; [auto|].
  apply eventsOf_fetch in Hin as (-> & -> & Hd & Hn).
  eapply outcomeOf_probed; eauto.
Qed.

Lemma analyse_fetchOnlyAfterDns w timeout i title u st :
  fetchOnlyAfterDns w (st_events st) ->
  fetchOnlyAfterDns w (st_events (analyse w timeout i title u st)).
Proof.
  intros Hf. destruct (analyse_step w timeout i title u st) as (item & -> & _).
  apply fetchOnlyAfterDns_app, Hf.
Qed.

Lemma bulk_fetchOnlyAfterDns w timeout c query0 i u st :
  fetchOnlyAfterDns w (st_events st) ->
  fetchOnlyAfterDns w (st_events (BingBulk.analyse w timeout c query0 i u st)).
Proof.
  intros Hf. destruct (bulk_analyse_step w timeout c query0 i u st) as (item & -> & _).
  apply fetchOnlyAfterDns_app, Hf.
Qed.

Lemma processUrl_fetchOnlyAfterDns w i result st :
  fetchOnlyAfterDns w (st_events st) ->
  fetchOnlyAfterDns w (st_events (NicheWithBing.processUrl w i result st)).
Proof.
  intros Hf. destruct (processUrl_step w i result st) as (item & -> & _).
  apply fetchOnlyAfterDns_app, Hf.
Qed.

Lemma fetchOnlyAfterDns_nil w : fetchOnlyAfterDns w [].
Proof. intros i u Hin. inversion Hin. Qed.

Lemma forEachFrom_fetchOnlyAfterDns {A Item} w
      (body : nat -> A -> Run Item -> Run Item) :
  (forall i a st, fetchOnlyAfterDns w (st_events st) ->
                  fetchOnlyAfterDns w (st_events (body i a st))) ->
  forall array, fetchOnlyAfterDns w (st_events (forEachFrom body 0 array emptyRun)).
Proof.
  intros Hbody array. apply fetchOnlyAfterDns_Forall.
  apply (forEachFrom_events st_events); [|constructor].
  intros i a st Hst. apply fetchOnlyAfterDns_Forall, Hbody.
  now apply fetchOnlyAfterDns_Forall.
Qed.

Lemma runPool_fetchOnlyAfterDns w searchResults finished :
  fetchOnlyAfterDns w (st_events (NicheWithBing.runPool w searchResults finished)).
Proof.
  unfold NicheWithBing.runPool.
  assert (G : forall st, fetchOnlyAfterDns w (st_events st) ->
    fetchOnlyAfterDns w (st_events
      (foldl (fun st i => match searchResults !! i with
                          | Some result => NicheWithBing.processUrl w i result st
                          | None => st
                          end) st finished))).
  { induction finished as [|i finished IH]; intros st Hst; simpl; [exact Hst|].
    apply IH. destruct (searchResults !! i); [|exact Hst].
    now apply processUrl_fetchOnlyAfterDns. }
  apply G, fetchOnlyAfterDns_nil.
Qed.

Lemma outcomeOf_dns_failure w i u d e content threshold :
  hostname w u = Some d -> lookup w i d = Throw e ->
  outcomeOf w i u content threshold = DnsFails.
Proof. unfold outcomeOf. now intros -> ->. Qed.

(** C5: when the lookup of a candidate's host fails, each pipeline records
    for it one result with [dnsOk], [htmlFetched] and [isShopify] all false,
    adds no positive URL, and asks nothing more of the network for that item
    than the lookup; and in a whole run of any of the pipelines, a page is
    fetched for an item only after the lookup made for that item succeeded. *)
Theorem dns_failure_ends_item (w : World) :
  (forall i u d e,
     hostname w u = Some d -> lookup w i d = Throw e ->
     (forall timeout title st, exists item,
        analyse w timeout i title u st
        = mkRun (st_results st ++ [item]) (st_shopifyUrls st)
                (st_events st ++ [DnsLookup i d])
        /\ url item = u /\ dnsOk item = false
        /\ htmlFetched item = false /\ isShopify item = false)
     /\ (forall timeout c query0 st, exists item,
        BingBulk.analyse w timeout c query0 i u st
        = mkRun (st_results st ++ [item]) (st_shopifyUrls st)
                (st_events st ++ [DnsLookup i d])
        /\ BingBulk.url item = u /\ BingBulk.dnsOk item = false
        /\ BingBulk.htmlFetched item = false /\ BingBulk.isShopify item = false)
     /\ (forall title st, exists item,
        NicheWithBing.processUrl w i (mkSearchResult title u) st
        = mkRun (st_results st ++ [item]) (st_shopifyUrls st)
                (st_events st ++ [DnsLookup i d])
        /\ NicheWithBing.url item = u /\ NicheWithBing.dnsOk item = false
        /\ NicheWithBing.htmlFetched item = false
        /\ NicheWithBing.isShopify item = false))
  /\ (forall query options,
        fetchOnlyAfterDns w (st_events (scanNiche_run w query options)))
  /\ (forall timeout searchResults,
        fetchOnlyAfterDns w (st_events (analyseAll w timeout searchResults)))
  /\ (forall options,
        fetchOnlyAfterDns w (st_events (BingBulk.scanBingBulk_run w options)))
  /\ (forall searchResults finished,
        fetchOnlyAfterDns w
          (st_events (NicheWithBing.runPool w searchResults finished))).
Proof.
  assert (Hall : forall timeout searchResults,
             fetchOnlyAfterDns w (st_events (analyseAll w timeout searchResults))).
  { intros timeout searchResults. unfold analyseAll.
    apply forEachFrom_fetchOnlyAfterDns. intros i r st.
    apply analyse_fetchOnlyAfterDns. }
  split; [|split; [|split; [exact Hall|split]]].
  - intros i u d e Hh Hl. split; [|split].
    + intros timeout title st.
      destruct (analyse_step w timeout i title u st) as (item & E & Hu & Ha).
      unfold nicheOutcome in E, Ha.
      rewrite (outcomeOf_dns_failure w i u d e) in E, Ha by assumption.
      rewrite Hh in E. destruct Ha as (Hd & Hf & Hs & _).
      rewrite Hs, app_nil_r in E. exists item. repeat split; assumption.
    + intros timeout c query0 st.
      destruct (bulk_analyse_step w timeout c query0 i u st) as (item & E & Hu & Ha).
      unfold bulkOutcome in E, Ha.
      rewrite (outcomeOf_dns_failure w i u d e) in E, Ha by assumption.
      rewrite Hh in E. destruct Ha as (Hd & Hf & Hs & _).
      rewrite Hs, app_nil_r in E. exists item. repeat split; assumption.
    + intros title st.
      destruct (processUrl_step w i (mkSearchResult title u) st)
        as (item & E & Hu & Ha).
      unfold poolOutcome in E, Ha. cbn [sr_url] in E, Ha, Hu.
      rewrite (outcomeOf_dns_failure w i u d e) in E, Ha by assumption.
      rewrite Hh in E. destruct Ha as (Hd & Hf & Hs & _).
      rewrite Hs, app_nil_r in E. exists item. repeat split; assumption.
  - intros query options. unfold scanNiche_run.
    destruct (length _ =? 0); [apply fetchOnlyAfterDns_nil | apply Hall].
  - intros options. unfold BingBulk.scanBingBulk_run, BingBulk.analyseAll.
    apply forEachFrom_fetchOnlyAfterDns. intros i u st.
    apply bulk_fetchOnlyAfterDns.
  - apply runPool_fetchOnlyAfterDns.
Qed.

Lemma dns_failure_ends_item_witness :
  exists item,
    analyse (scenarioWorld tierAPage) 10000 0 "Gone" "https://gone.example" emptyRun
    = mkRun ([] ++ [item]) [] ([] ++ [DnsLookup 0 "gone.example"])
    /\ url item = "https://gone.example" /\ dnsOk item = false
    /\ htmlFetched item = false /\ isShopify item = false.
Proof.
  destruct (dns_failure_ends_item (scenarioWorld tierAPage)) as [H _].
  destruct (H 0 "https://gone.example" "gone.example" notFound) as [Hn _];
    [reflexivity | reflexivity |].
  exact (Hn 10000%Z "Gone" emptyRun).
Defined.

(** The report of [scanNiche], and of [scanMassive], counts what its lists
    hold. *)
Lemma report_invariants query (w : World) timeout searchResults :
  let out := report query (analyseAll w timeout searchResults) in
  scannedCount out = length (results out)
  /\ shopifyCount out = length (shopifyUrls out)
  /\ shopifyUrls out = List.map url (List.filter isShopify (results out))
  /\ scannedCount out = length searchResults.
Proof.
  cbn. repeat split.
  - apply (forEachFrom_positives _ _ _ (analyse_recordsOne w timeout)).
  - apply (forEachFrom_length _ _ _ (analyse_recordsOne w timeout)).
Qed.

Lemma isLongTierA_le (outcomes : list Outcome) :
  length (List.filter isLongTierA outcomes) <= length (List.filter isTierA outcomes).
Proof.
  induction outcomes as [|o outcomes IH]; [reflexivity|].
  cbn [List.filter]. destruct o; cbn [isLongTierA isTierA]; try exact IH.
  destruct (1 <=? matchCount Detect.highConfidencePatterns html);
    destruct (100 <=? String.length html); cbn [andb length]; lia.
Qed.

Lemma scenario_counts {Item} `{ItemView Item} (outcomes : list Outcome)
      (items : list Item) :
  Forall2 agrees outcomes items ->
  length outcomes = 3 ->
  length (List.filter isDnsFailure outcomes) = 1 ->
  length (List.filter isFetchFailure outcomes) = 1 ->
  length (List.filter isLongTierA outcomes) = 1 ->
  length (List.filter itemIsShopify items) = 1
  /\ length (List.filter hasError items) = 2
  /\ Forall (fun item => itemIsShopify item = negb (hasError item)) items.
Proof.
  intros Ha Hl Hd Hf Ht.
  pose proof (isLongTierA_le outcomes) as Hle.
  pose proof (kinds_bound outcomes) as Hb.
  destruct (agrees_counts outcomes items Ha) as (H1 & H2 & H3).
  { apply three_kinds. lia. }
  repeat split; [lia | lia | exact H3].
Qed.

(** C6: the report of [scanNiche] and the report of [scanBingBulk] count the
    results they list ([scannedCount], named [totalUrls] in the bulk report),
    count the positive URLs they list, and list as positive exactly the URLs
    of the results flagged [isShopify]; and when, of three candidates, one
    fails the lookup, one fails the fetch and one gives content of a hundred
    characters or more with a Tier-A pattern, the report counts three
    results, one of them positive, and the two others carry a non-empty
    error. *)
Theorem report_counts_and_scenario (w : World) :
  (forall query options,
     let out := scanNiche w query options in
     scannedCount out = length (results out)
     /\ shopifyCount out = length (shopifyUrls out)
     /\ shopifyUrls out = List.map url (List.filter isShopify (results out)))
  /\ (forall options, exists out,
     BingBulk.scanBingBulk w options = Return out
     /\ BingBulk.totalUrls out = length (BingBulk.results out)
     /\ BingBulk.shopifyCount out = length (BingBulk.shopifyUrls out)
     /\ BingBulk.shopifyUrls out
        = List.map BingBulk.url (List.filter BingBulk.isShopify (BingBulk.results out)))
  /\ (forall query options,
     let timeout := numberOr (options ≫= so_timeout) 10000 in
     let candidates :=
       scanNiche_search w query (numberOr (options ≫= maxResults) 20) in
     let outcomes :=
       outcomesFrom (fun i r => nicheOutcome w timeout i (sr_url r)) 0 candidates in
     length candidates = 3 ->
     length (List.filter isDnsFailure outcomes) = 1 ->
     length (List.filter isFetchFailure outcomes) = 1 ->
     length (List.filter isLongTierA outcomes) = 1 ->
     let out := scanNiche w query options in
     scannedCount out = 3 /\ shopifyCount out = 1
     /\ length (List.filter isShopify (results out)) = 1
     /\ length (List.filter hasError (results out)) = 2
     /\ Forall (fun r => isShopify r = negb (hasError r)) (results out))
  /\ (forall options,
     let timeout := default 15000%Z (BingBulk.timeout options) in
     let candidates := BingBulk.allUrls (BingBulk.scanBingBulk_collect w options) in
     let outcomes := outcomesFrom (bulkOutcome w timeout) 0 candidates in
     length candidates = 3 ->
     length (List.filter isDnsFailure outcomes) = 1 ->
     length (List.filter isFetchFailure outcomes) = 1 ->
     length (List.filter isLongTierA outcomes) = 1 ->
     exists out,
       BingBulk.scanBingBulk w options = Return out
       /\ BingBulk.totalUrls out = 3 /\ BingBulk.shopifyCount out = 1
       /\ length (List.filter BingBulk.isShopify (BingBulk.results out)) = 1
       /\ length (List.filter hasError (BingBulk.results out)) = 2
       /\ Forall (fun r => BingBulk.isShopify r = negb (hasError r))
                 (BingBulk.results out)).
Proof.
  split; [|split; [|split]].
  - intros query options. unfold scanNiche, scanNiche_run.
    destruct (length _ =? 0).
    + cbn. auto.
    + pose proof (report_invariants query w
                    (numberOr (options ≫= so_timeout) 10000)
                    (scanNiche_search w query (numberOr (options ≫= maxResults) 20)))
        as (H1 & H2 & H3 & _).
      auto.
  - intros options. eexists. split; [reflexivity|]. cbn.
    unfold BingBulk.scanBingBulk_run, BingBulk.analyseAll. repeat split.
    + symmetry. rewrite (forEachFrom_length _ _ _ (bulk_recordsOne w _ _ _)).
      reflexivity.
    + apply (forEachFrom_positives _ _ _ (bulk_recordsOne w _ _ _)).
  - intros query options timeout candidates outcomes Hl Hd Hf Ht.
    unfold scanNiche, scanNiche_run. fold candidates. fold timeout.
    rewrite Hl. cbn [Nat.eqb].
    pose proof (report_invariants query w timeout candidates) as (_ & _ & H3 & H4).
    pose proof (forEachFrom_agrees _ _ _ (analyse_recordsOne w timeout) candidates)
      as Ha.
    destruct (scenario_counts _ _ Ha) as (C1 & C2 & C3);
      [unfold outcomes in *; now rewrite outcomesFrom_length | assumption..|].
    cbn in H3, H4 |- *. unfold analyseAll in *.
    repeat split; try assumption; try lia.
    rewrite H3, length_map. exact C1.
  - intros options timeout candidates outcomes Hl Hd Hf Ht.
    eexists. split; [reflexivity|].
    cbn [BingBulk.totalUrls BingBulk.shopifyCount BingBulk.results
         BingBulk.shopifyUrls].
    unfold BingBulk.scanBingBulk_run, BingBulk.analyseAll.
    fold candidates. fold timeout.
    pose proof (forEachFrom_agrees _ _ _
                  (bulk_recordsOne w timeout
                     (BingBulk.scanBingBulk_collect w options)
                     (default "" (BingBulk.queries options !! 0))) candidates) as Ha.
    pose proof (forEachFrom_positives _ _ _
                  (bulk_recordsOne w timeout
                     (BingBulk.scanBingBulk_collect w options)
                     (default "" (BingBulk.queries options !! 0))) candidates) as Hp.
    destruct (scenario_counts _ _ Ha) as (C1 & C2 & C3);
      [unfold outcomes in *; now rewrite outcomesFrom_length | assumption..|].
    repeat split; try assumption.
    apply (f_equal length) in Hp. rewrite length_map in Hp.
    etransitivity; [exact Hp | exact C1].
Qed.

Lemma report_counts_and_scenario_witness :
  (let out := scanNiche (scenarioWorld tierAPage) "snowboard" None in
   scannedCount out = 3 /\ shopifyCount out = 1
   /\ length (List.filter isShopify (results out)) = 1
   /\ length (List.filter hasError (results out)) = 2
   /\ Forall (fun r => isShopify r = negb (hasError r)) (results out))
  /\ exists out,
       BingBulk.scanBingBulk (scenarioWorld tierAPage) oneQuery = Return out
       /\ BingBulk.totalUrls out = 3 /\ BingBulk.shopifyCount out = 1
       /\ length (List.filter BingBulk.isShopify (BingBulk.results out)) = 1
       /\ length (List.filter hasError (BingBulk.results out)) = 2
       /\ Forall (fun r => BingBulk.isShopify r = negb (hasError r))
                 (BingBulk.results out).
Proof.
  destruct (report_counts_and_scenario (scenarioWorld tierAPage))
    as (_ & _ & Hniche & Hbulk).
  split.
  - apply (Hniche "snowboard" None); vm_compute; reflexivity.
  - apply (Hbulk oneQuery); vm_compute; reflexivity.
Defined.

(** Against C6 as first stated: in [scanBingBulk], with a lookup failure, a
    fetch failure and the fifteen characters [cdn.shopify.com] (a Tier-A
    pattern) as the third content, the report lists three results and no
    positive one. *)
Lemma bulk_short_tierA_scenario :
  exists out,
    BingBulk.scanBingBulk (scenarioWorld shortTierAPage) oneQuery = Return out
    /\ BingBulk.totalUrls out = 3
    /\ List.map BingBulk.url (BingBulk.results out)
       = [ "https://gone.example"; "https://down.example"; "https://shop.example" ]
    /\ List.map BingBulk.dnsOk (BingBulk.results out) = [ false; true; true ]
    /\ List.map BingBulk.htmlFetched (BingBulk.results out) = [ false; false; true ]
    /\ fetchHtml (fetch (scenarioWorld shortTierAPage) 2) "https://shop.example"
                 (Some (inr (mkFetchHtmlOptions (Some 15000%Z) None None))) None
       = Return (Some shortTierAPage)
    /\ matchCount Detect.highConfidencePatterns shortTierAPage = 1
    /\ BingBulk.shopifyCount out = 0
    /\ BingBulk.shopifyCount out <> 1
    /\ length (List.filter hasError (BingBulk.results out)) = 3.
Proof.
  eexists. split; [reflexivity|].
  repeat split; try (vm_compute; reflexivity).
  vm_compute. discriminate.
Qed.

(** In [scanBingBulk], content of fewer than a hundred characters is
    recorded as too short and the classifier is not consulted. *)
Lemma bulk_rejects_short_content w timeout c query0 i u d a ch html st :
  hostname w u = Some d -> lookup w i d = Return a ->
  fetchHtml (fetch w i) u
            (Some (inr (mkFetchHtmlOptions (Some timeout) None None))) None
  = Return (Some (String ch html)) ->
  String.length (String ch html) < 100 ->
  exists item,
    BingBulk.analyse w timeout c query0 i u st
    = mkRun (st_results st ++ [item]) (st_shopifyUrls st)
            (st_events st ++ [DnsLookup i d; CnameLookup i d; HtmlFetch i u])
    /\ BingBulk.url item = u
    /\ BingBulk.htmlFetched item = true
    /\ BingBulk.isShopify item = false
    /\ BingBulk.error item = Some "HTML trop court ou invalide".
Proof.
  intros Hh Hl Hf Hlen. unfold BingBulk.analyse, dnsLookup.
  rewrite Hh, Hl, Hf. apply Nat.ltb_lt in Hlen.
  cbn -[String.length Nat.ltb fetchHtml]. rewrite Hlen.
  destruct st as [rs us es]. eexists.
  split; [unfold push, emit; cbn; rewrite <- !app_assoc; reflexivity|].
  repeat split.
Qed.

(** C2: [scanNiche] has no minimum length.  The fifteen characters
    [cdn.shopify.com] fetched for the third candidate are classified, and
    positively, with no error recorded; the two characters [ok] are
    classified as well, negatively and again with no error. *)
Theorem scanNiche_classifies_short_content :
  String.length shortTierAPage = 15
  /\ (let st := scanNiche_run (scenarioWorld shortTierAPage) "snowboard" None in
      List.map htmlFetched (st_results st) = [ false; false; true ]
      /\ List.map isShopify (st_results st) = [ false; false; true ]
      /\ List.map hasError (st_results st) = [ true; true; false ]
      /\ st_shopifyUrls st = [ "https://shop.example" ]
      /\ List.filter (isClassify 2) (st_events st) = [ Classify 2 ])
  /\ (let st := scanNiche_run (scenarioWorld "ok") "snowboard" None in
      List.map htmlFetched (st_results st) = [ false; false; true ]
      /\ List.map isShopify (st_results st) = [ false; false; false ]
      /\ List.map error (st_results st) !! 2 = Some None
      /\ List.filter (isClassify 2) (st_events st) = [ Classify 2 ]).
Proof. repeat split; vm_compute; reflexivity. Qed.

End PipelineFacts.

(** ** Aggregation *)

Section AggregationFacts.
Import Pipeline.

Lemma JsSet_has_true s x : JsSet.has s x = true <-> x ∈ s.
Proof. unfold JsSet.has. apply bool_decide_eq_true. Qed.

Lemma JsSet_add_elem s x y : y ∈ JsSet.add s x <-> y ∈ s \/ y = x.
Proof.
  unfold JsSet.add. destruct (JsSet.has s x) eqn:E.
  - apply JsSet_has_true in E. split; [auto|]. intros [?| ->]; auto.
  - rewrite elem_of_app, list_elem_of_singleton. tauto.
Qed.

Lemma JsSet_add_NoDup s x : NoDup s -> NoDup (JsSet.add s x).
Proof.
  intros Hs. unfold JsSet.add. destruct (JsSet.has s x) eqn:E; [exact Hs|].
  apply NoDup_app. split; [exact Hs|]. split; [|apply NoDup_singleton].
  intros y Hy Hx. apply list_elem_of_singleton in Hx as ->.
  apply JsSet_has_true in Hy. congruence.
Qed.

Lemma JsSet_add_present s x : x ∈ s -> JsSet.add s x = s.
Proof. intros Hx. unfold JsSet.add. apply JsSet_has_true in Hx. now rewrite Hx. Qed.

Lemma foldl_add_NoDup s xs : NoDup s -> NoDup (foldl JsSet.add s xs).
Proof.
  revert s. induction xs as [|x xs IH]; intros s Hs; simpl; [exact Hs|].
  apply IH, JsSet_add_NoDup, Hs.
Qed.

Lemma foldl_add_elem s xs y : y ∈ foldl JsSet.add s xs <-> y ∈ s \/ y ∈ xs.
Proof.
  revert s. induction xs as [|x xs IH]; intros s; simpl.
  - rewrite elem_of_nil. tauto.
  - rewrite IH, JsSet_add_elem, elem_of_cons. tauto.
Qed.

Lemma firstTitle_None u rs : firstTitle u rs = None <-> u ∉ List.map sr_url rs.
Proof.
  induction rs as [|r rs IH]; simpl.
  - split; [intros _ H; inversion H | reflexivity].
  - rewrite not_elem_of_cons. destruct (String.eqb_spec (sr_url r) u) as [E|E].
    + split; [discriminate|]. intros [H _]. congruence.
    + rewrite IH. split; [intros H; split; [congruence|exact H] | tauto].
Qed.

Lemma firstTitle_app u rs r :
  firstTitle u (rs ++ [r])
  = match firstTitle u rs with
    | Some t => Some t
    | None => if String.eqb (sr_url r) u then Some (sr_title r) else None
    end.
Proof.
  induction rs as [|r' rs IH]; simpl; [reflexivity|].
  destruct (String.eqb (sr_url r') u); [reflexivity | exact IH].
Qed.

Lemma aggregates_nil : aggregates [] ∅ [].
Proof.
  split; [constructor|]. split; [reflexivity|]. intros u. apply lookup_empty.
Qed.

(** Adding a result whose URL is new, with its title. *)
Lemma aggregates_new allUrls titles seen r :
  aggregates allUrls titles seen ->
  sr_url r ∉ allUrls ->
  aggregates (JsSet.add allUrls (sr_url r)) (<[sr_url r := sr_title r]> titles)
             (seen ++ [r]).
Proof.
  intros (Hn & Hm & Ht) Hnew. split; [now apply JsSet_add_NoDup|]. split.
  - intros u. rewrite JsSet_add_elem, map_app, elem_of_app, Hm. simpl.
    rewrite list_elem_of_singleton. tauto.
  - intros u. rewrite firstTitle_app, lookup_insert.
    destruct (decide (sr_url r = u)) as [E|E].
    + subst u. rewrite (proj2 (firstTitle_None _ _)) by now rewrite <- Hm.
      now rewrite String.eqb_refl.
    + rewrite Ht. destruct (firstTitle u seen); [reflexivity|].
      now destruct (String.eqb_spec (sr_url r) u).
Qed.

(** A result whose URL is already there changes nothing. *)
Lemma aggregates_old allUrls titles seen r :
  aggregates allUrls titles seen ->
  sr_url r ∈ allUrls ->
  aggregates allUrls titles (seen ++ [r]).
Proof.
  intros (Hn & Hm & Ht) Hold. split; [exact Hn|]. split.
  - intros u. rewrite map_app, elem_of_app, <- Hm. simpl.
    rewrite list_elem_of_singleton. split; [auto|]. intros [H| ->]; auto.
  - intros u. rewrite firstTitle_app, Ht.
    destruct (firstTitle u seen) eqn:E; [reflexivity|].
    destruct (String.eqb_spec (sr_url r) u) as [<-|]; [|reflexivity].
    apply firstTitle_None in E. now rewrite <- Hm in E.
Qed.

Lemma addResult_aggregates query c seen r :
  aggregates (BingBulk.allUrls c) (BingBulk.urlToTitle c) seen ->
  aggregates (BingBulk.allUrls (BingBulk.addResult query c r))
             (BingBulk.urlToTitle (BingBulk.addResult query c r)) (seen ++ [r]).
Proof.
  intros Ha. unfold BingBulk.addResult.
  destruct (JsSet.has (BingBulk.allUrls c) (sr_url r)) eqn:E.
  - apply aggregates_old; [exact Ha | now apply JsSet_has_true].
  - apply aggregates_new; [exact Ha|]. rewrite <- JsSet_has_true. congruence.
Qed.

Lemma foldl_addResult_aggregates query rs c seen :
  aggregates (BingBulk.allUrls c) (BingBulk.urlToTitle c) seen ->
  aggregates (BingBulk.allUrls (foldl (BingBulk.addResult query) c rs))
             (BingBulk.urlToTitle (foldl (BingBulk.addResult query) c rs))
             (seen ++ rs).
Proof.
  revert c seen. induction rs as [|r rs IH]; intros c seen Ha; simpl.
  - now rewrite app_nil_r.
  - replace (seen ++ r :: rs) with ((seen ++ [r]) ++ rs) by now rewrite <- app_assoc.
    apply IH, addResult_aggregates, Ha.
Qed.

Lemma collect_aggregates hs :
  aggregates (BingBulk.allUrls (BingBulk.collect hs))
             (BingBulk.urlToTitle (BingBulk.collect hs)) (harvestedResults hs).
Proof.
  unfold BingBulk.collect.
  assert (G : forall c seen,
    aggregates (BingBulk.allUrls c) (BingBulk.urlToTitle c) seen ->
    aggregates (BingBulk.allUrls (foldl BingBulk.addHarvest c hs))
               (BingBulk.urlToTitle (foldl BingBulk.addHarvest c hs))
               (seen ++ harvestedResults hs)).
  { induction hs as [|[query source] hs IH]; intros c seen Ha; simpl.
    - now rewrite app_nil_r.
    - rewrite app_assoc. apply IH. unfold BingBulk.addHarvest. simpl.
      destruct source as [rs|e]; simpl.
      + now apply foldl_addResult_aggregates.
      + now rewrite app_nil_r. }
  apply (G BingBulk.noneCollected []), aggregates_nil.
Qed.

Lemma harvestedResults_Permutation hs hs' :
  hs ≡ₚ hs' -> harvestedResults hs ≡ₚ harvestedResults hs'.
Proof.
  unfold harvestedResults. induction 1; simpl.
  - reflexivity.
  - now apply Permutation_app_head.
  - rewrite !app_assoc. apply Permutation_app_tail, Permutation_app_comm.
  - etransitivity; eauto.
Qed.

(** Harvesting again what was already merged adds nothing. *)
Lemma foldl_addHarvest_again hs c :
  (forall r, r ∈ harvestedResults hs -> sr_url r ∈ BingBulk.allUrls c) ->
  foldl BingBulk.addHarvest c hs = c.
Proof.
  induction hs as [|[query source] hs IH]; intros Hin; simpl; [reflexivity|].
  assert (E : BingBulk.addHarvest c (query, source) = c).
  { unfold BingBulk.addHarvest. simpl. destruct source as [rs|e]; [|reflexivity].
    assert (Hrs : forall r, r ∈ rs -> sr_url r ∈ BingBulk.allUrls c).
    { intros r Hr. apply Hin. unfold harvestedResults. simpl.
      apply elem_of_app. now left. }
    clear Hin IH. induction rs as [|r rs IHrs]; simpl; [reflexivity|].
    unfold BingBulk.addResult at 2.
    rewrite (proj2 (JsSet_has_true _ _)) by (apply Hrs; left).
    apply IHrs. intros r' Hr'. apply Hrs. now right. }
  rewrite E. apply IH. intros r Hr. apply Hin. unfold harvestedResults. simpl.
  apply elem_of_app. now right.
Qed.

Lemma collect_twice hs : BingBulk.collect (hs ++ hs) = BingBulk.collect hs.
Proof.
  unfold BingBulk.collect. rewrite foldl_app. apply foldl_addHarvest_again.
  intros r Hr. destruct (collect_aggregates hs) as (_ & Hm & _).
  apply Hm. now apply list_elem_of_fmap_2.
Qed.

Lemma addCt_aggregates c seen r :
  aggregates (allUrls c) (urlToTitle c) seen ->
  sr_url r ∉ List.map sr_url seen ->
  aggregates (allUrls (addCt c r)) (urlToTitle (addCt c r)) (seen ++ [r]).
Proof.
  intros Ha Hnew. unfold addCt. simpl. apply aggregates_new; [exact Ha|].
  destruct Ha as (_ & Hm & _). now rewrite Hm.
Qed.

Lemma foldl_addCt_aggregates rs c seen :
  aggregates (allUrls c) (urlToTitle c) seen ->
  NoDup (List.map sr_url (seen ++ rs)) ->
  aggregates (allUrls (foldl addCt c rs)) (urlToTitle (foldl addCt c rs)) (seen ++ rs).
Proof.
  revert c seen. induction rs as [|r rs IH]; intros c seen Ha Hn; simpl.
  - now rewrite app_nil_r.
  - replace (seen ++ r :: rs) with ((seen ++ [r]) ++ rs) in * by now rewrite <- app_assoc.
    apply IH; [|exact Hn]. apply addCt_aggregates; [exact Ha|].
    rewrite !map_app in Hn. apply NoDup_app in Hn as (Hn & _ & _).
    apply NoDup_app in Hn as (_ & Hd & _). intros Hin. apply (Hd _ Hin). simpl. left.
Qed.

Lemma addGitHub_aggregates c seen r :
  aggregates (allUrls c) (urlToTitle c) seen ->
  aggregates (allUrls (addGitHub c r)) (urlToTitle (addGitHub c r)) (seen ++ [r]).
Proof.
  intros Ha. pose proof Ha as (Hn & Hm & Ht). unfold addGitHub. simpl.
  destruct (urlToTitle c !! sr_url r) as [t|] eqn:E.
  - assert (Hin : sr_url r ∈ allUrls c).
    { apply Hm. destruct (decide (sr_url r ∈ List.map sr_url seen)) as [H|H]; [exact H|].
      apply firstTitle_None in H. rewrite <- Ht in H. congruence. }
    rewrite (JsSet_add_present _ _ Hin). now apply aggregates_old.
  - apply aggregates_new; [exact Ha|]. rewrite Hm. apply firstTitle_None.
    now rewrite <- Ht.
Qed.

Lemma foldl_addGitHub_aggregates rs c seen :
  aggregates (allUrls c) (urlToTitle c) seen ->
  aggregates (allUrls (foldl addGitHub c rs)) (urlToTitle (foldl addGitHub c rs))
             (seen ++ rs).
Proof.
  revert c seen. induction rs as [|r rs IH]; intros c seen Ha; simpl.
  - now rewrite app_nil_r.
  - replace (seen ++ r :: rs) with ((seen ++ [r]) ++ rs) by now rewrite <- app_assoc.
    apply IH, addGitHub_aggregates, Ha.
Qed.

Lemma shopifyLine_NoDup domains line :
  NoDup domains -> NoDup (CT.shopifyLine domains line).
Proof.
  intros Hn. unfold CT.shopifyLine.
  repeat match goal with |- context [if ?b then _ else _] => destruct b end;
    auto using JsSet_add_NoDup.
Qed.

Lemma shopifyCerts_NoDup maxResults data processed domains :
  NoDup domains -> NoDup (CT.shopifyCerts maxResults data processed domains).
Proof.
  revert processed domains.
  induction data as [|cert data IH]; intros processed domains Hn; simpl; [exact Hn|].
  destruct (maxResults <=? processed); [exact Hn|].
  destruct (JsString.isEmpty _); [now apply IH|]. apply IH.
  generalize (JsString.split "010" (default "" (CT.name_value cert))).
  intros lines. revert domains Hn.
  induction lines as [|line lines IHl]; intros domains Hn; simpl; [exact Hn|].
  apply IHl, shopifyLine_NoDup, Hn.
Qed.

Lemma getShopifyDomainsFromCT_NoDup fetch maxResults :
  NoDup (List.map sr_url (harvested (CT.getShopifyDomainsFromCT fetch maxResults))).
Proof.
  unfold CT.getShopifyDomainsFromCT.
  destruct (fetch CT.shopifyApiUrl 60000%Z) as [response|e]; cbn; [|constructor].
  destruct (resp_ok response); cbn; [|constructor].
  destruct (resp_body response) as [data|e]; cbn; [|constructor].
  rewrite List.map_map. cbn [sr_url].
  apply (NoDup_fmap_2 (fun domain => "https://" +:+ domain)).
  apply shopifyCerts_NoDup. constructor.
Qed.

(** C7: the aggregation of [scanBingBulk], over any sequence of harvest
    calls, and the aggregation of [scanMassive], over the certificate-log
    harvest and the GitHub harvest, hold each harvested URL exactly once, with
    the title of its first occurrence; merging the same harvests a second
    time changes nothing, and the URLs collected do not depend on the order of
    the harvest calls. *)
Theorem aggregation_keeps_first (hs : list (string * Completion (list SearchResult))) :
  aggregates (BingBulk.allUrls (BingBulk.collect hs))
             (BingBulk.urlToTitle (BingBulk.collect hs)) (harvestedResults hs)
  /\ BingBulk.collect (hs ++ hs) = BingBulk.collect hs
  /\ (forall hs', hs ≡ₚ hs' ->
      forall u, u ∈ BingBulk.allUrls (BingBulk.collect hs)
                <-> u ∈ BingBulk.allUrls (BingBulk.collect hs'))
  /\ (forall fetch maxResults github,
      let ct := CT.getShopifyDomainsFromCT fetch maxResults in
      let c := massiveCollect ct github in
      let gh := match github with Some source => harvested source | None => [] end in
      aggregates (allUrls c) (urlToTitle c) (harvested ct ++ gh)
      /\ (forall u, u ∈ allUrls c
                    <-> u ∈ List.map sr_url gh \/ u ∈ List.map sr_url (harvested ct))).
Proof.
  split; [apply collect_aggregates|]. split; [apply collect_twice|]. split.
  - intros hs' Hp u.
    destruct (collect_aggregates hs) as (_ & Hm & _).
    destruct (collect_aggregates hs') as (_ & Hm' & _).
    rewrite Hm, Hm'. apply harvestedResults_Permutation in Hp.
    now rewrite Hp.
  - intros fetch maxResults github ct c gh.
    assert (Ha : aggregates (allUrls c) (urlToTitle c) (harvested ct ++ gh)).
    { unfold c, massiveCollect.
      assert (Hct : aggregates (allUrls (foldl addCt (mkCollected [] ∅) (harvested ct)))
                      (urlToTitle (foldl addCt (mkCollected [] ∅) (harvested ct)))
                      ([] ++ harvested ct)).
      { apply foldl_addCt_aggregates; [apply aggregates_nil|].
        apply getShopifyDomainsFromCT_NoDup. }
      destruct github as [source|]; unfold gh.
      - now apply foldl_addGitHub_aggregates.
      - now rewrite app_nil_r. }
    split; [exact Ha|]. intros u. destruct Ha as (_ & Hm & _).
    rewrite Hm, map_app, elem_of_app. tauto.
Qed.

Lemma aggregation_keeps_first_witness :
  "https://beta.myshopify.com" ∈ BingBulk.allUrls (BingBulk.collect [harvestA; harvestB])
  <-> "https://beta.myshopify.com"
      ∈ BingBulk.allUrls (BingBulk.collect [harvestB; harvestA]).
Proof.
  destruct (aggregation_keeps_first [harvestA; harvestB]) as (_ & _ & Hp & _).
  apply (Hp [harvestB; harvestA]). apply perm_swap.
Defined.

(** The order of the calls does decide which title is kept. *)
Lemma first_title_wins :
  BingBulk.urlToTitle (BingBulk.collect [harvestA; harvestB])
    !! "https://beta.myshopify.com" = Some "Beta"
  /\ BingBulk.urlToTitle (BingBulk.collect [harvestB; harvestA])
    !! "https://beta.myshopify.com" = Some "Beta skate shop"
  /\ BingBulk.allUrls (BingBulk.collect [harvestA; harvestB])
    = [ "https://alpha.myshopify.com"; "https://beta.myshopify.com" ].
Proof. repeat split; vm_compute; reflexivity. Qed.

End AggregationFacts.

(** ** The query loop of the mass scan in general *)

Section MassLoopFacts.
Import CT.

(** No run of the query loop ever counts an error. *)
Lemma massLoop_counts_no_error net ctOptions cap ceiling queries st :
  consecutiveErrors st = 0 ->
  consecutiveErrors (massLoop net ctOptions cap ceiling queries st) = 0.
Proof.
  revert st. induction queries as [|query queries IH]; intros st H0; simpl; [exact H0|].
  destruct (reached cap (length (allDomains st))); [exact H0|].
  destruct (dispatch_returns (net (S (queryIndex st))) ctOptions query) as [ds ->].
  assert (Hc : (if 0 <? length ds then 0 else consecutiveErrors st) = 0)
    by (destruct (0 <? length ds); [reflexivity | exact H0]).
  destruct (reached cap _); [exact Hc|]. apply IH. exact Hc.
Qed.

(** Without a cap, every generated query is handed to a fetcher, whatever
    the ceiling on consecutive errors and whatever the network does. *)
Lemma massLoop_attempts_all net ctOptions ceiling queries st :
  attempted (massLoop net ctOptions None ceiling queries st)
  = attempted st ++ queries.
Proof.
  revert st. induction queries as [|query queries IH]; intros st; simpl.
  - now rewrite app_nil_r.
  - destruct (dispatch_returns (net (S (queryIndex st))) ctOptions query) as [ds ->].
    rewrite IH. simpl. now rewrite <- app_assoc.
Qed.

(** The collection stays free of duplicates, and so does the sorted list
    that is returned. *)
Lemma massLoop_NoDup net ctOptions cap ceiling queries st :
  NoDup (allDomains st) ->
  NoDup (allDomains (massLoop net ctOptions cap ceiling queries st)).
Proof.
  revert st. induction queries as [|query queries IH]; intros st Hn; simpl; [exact Hn|].
  destruct (reached cap (length (allDomains st))); [exact Hn|].
  destruct (dispatch (net (S (queryIndex st))) ctOptions query) as [ds|e].
  - destruct (reached cap _); [|apply IH]; simpl; now apply foldl_add_NoDup.
  - destruct (reached ceiling _); [exact Hn|]. now apply IH.
Qed.

Lemma massFetchDomainsFromCT_deduplicated net monthBounds options :
  exists result,
    massFetchDomainsFromCT net monthBounds options = Return result
    /\ NoDup (domains result)
    /\ totalDomains result = length (domains result).
Proof.
  eexists. split; [reflexivity|]. split; [|reflexivity]. simpl.
  unfold sortStrings. rewrite merge_sort_Permutation.
  apply massLoop_NoDup. constructor.
Qed.

End MassLoopFacts.

(** * Further properties of the code *)

(** ** The classifier *)

Section ClassifierMore.
Import JsString Detect.

Lemma canon_canon (c : ascii) : canonChar (canonChar c) = canonChar c.
Proof. destruct c as [[] [] [] [] [] [] [] []]; reflexivity. Qed.

Lemma prefix_ci_canon (p s : string) :
  prefix_ci p (JsString.map canonChar s) = prefix_ci p s.
Proof.
  revert s; induction p as [|a p IH]; intros [|b s]; simpl; try reflexivity.
  rewrite canon_canon, IH. reflexivity.
Qed.

Lemma test_ci_canon (p s : string) :
  test_ci p (JsString.map canonChar s) = test_ci p s.
Proof.
  induction s as [|b s IH]; [reflexivity|].
  change (JsString.map canonChar (String b s))
    with (String (canonChar b) (JsString.map canonChar s)).
  cbn [test_ci]. rewrite IH.
  change (String (canonChar b) (JsString.map canonChar s))
    with (JsString.map canonChar (String b s)).
  now rewrite prefix_ci_canon.
Qed.

Lemma test_ci_same_case (p s s' : string) :
  JsString.map canonChar s = JsString.map canonChar s' ->
  test_ci p s = test_ci p s'.
Proof. intros E. now rewrite <- (test_ci_canon p s), E, test_ci_canon. Qed.

Lemma map_length (f : ascii -> ascii) (s : string) :
  String.length (JsString.map f s) = String.length s.
Proof. induction s; simpl; auto. Qed.

Lemma scoreLoop_ext ws h h' score :
  (forall p, test_ci p h = test_ci p h') ->
  scoreLoop ws h score = scoreLoop ws h' score.
Proof.
  intros E. revert score. induction ws as [|[p w] ws IH]; intros score; simpl.
  - reflexivity.
  - now rewrite E, IH.
Qed.

Lemma matchCount_same_case ps s s' :
  JsString.map canonChar s = JsString.map canonChar s' ->
  matchCount ps s = matchCount ps s'.
Proof.
  intros E. unfold matchCount. f_equal. apply List.filter_ext.
  intros p. now apply test_ci_same_case.
Qed.

(** X1: two contents that differ only by the case of their letters get the
    same verdict and the same confidence. *)
Theorem classifier_ignores_case (html html' : string) :
  JsString.map canonChar html = JsString.map canonChar html' ->
  isShopifyHtml (Some html) = isShopifyHtml (Some html')
  /\ getShopifyConfidence (Some html) = getShopifyConfidence (Some html').
Proof.
  intros E.
  assert (El : String.length html = String.length html')
    by now rewrite <- (map_length canonChar html), E, map_length.
  split.
  - rewrite !isShopifyHtml_rule, El, (test_ci_same_case _ _ _ E).
    now rewrite !(matchCount_same_case _ _ _ E).
  - unfold getShopifyConfidence. rewrite El.
    destruct (String.length html' =? 0); [reflexivity|]. f_equal.
    apply scoreLoop_ext. intros p. rewrite !test_ci_lower.
    now apply test_ci_same_case.
Qed.

Lemma classifier_ignores_case_witness :
  isShopifyHtml (Some "<A HREF=HTTPS://CDN.SHOPIFY.COM/X>")
  = isShopifyHtml (Some "<a href=https://cdn.shopify.com/x>")
  /\ getShopifyConfidence (Some "<A HREF=HTTPS://CDN.SHOPIFY.COM/X>")
     = getShopifyConfidence (Some "<a href=https://cdn.shopify.com/x>").
Proof. apply classifier_ignores_case. reflexivity. Defined.

(** X2: the confidence is a number between 0 and 1, and it is above 0
    exactly when one of the nine weighted patterns occurs in the content. *)
Theorem confidence_range (html : string) :
  PrimFloat.leb 0 (getShopifyConfidence (Some html)) = true
  /\ PrimFloat.leb (getShopifyConfidence (Some html)) 1 = true
  /\ (PrimFloat.ltb 0 (getShopifyConfidence (Some html)) = true
      <-> 1 <= matchCount (List.map fst weightedPatterns) html).
Proof.
  unfold getShopifyConfidence, matchCount.
  destruct html as [|c html]; [vm_compute; repeat split; (discriminate || lia)|].
  cbn [String.length Nat.eqb]. rewrite <- (filter_lower _ (String c html)).
  generalize (toLowerCase (String c html)). intros h.
  unfold weightedPatterns. cbn [scoreLoop List.map fst List.filter].
  repeat match goal with
    | |- context [test_ci ?p h] => generalize (test_ci p h); intros []
    end;
    vm_compute; repeat split; solve [ reflexivity | discriminate | lia
                                    | intros; reflexivity | intros; lia ].
Qed.

Lemma prefix_ci_app_l (p q s : string) :
  prefix_ci (p +:+ q) s = true -> prefix_ci p s = true.
Proof.
  revert s; induction p as [|a p IH]; intros s H; [now destruct s|].
  destruct s as [|b s]; simpl in *; [discriminate|].
  destruct (Ascii.eqb (canonChar a) (canonChar b)); [auto|discriminate].
Qed.

(** A pattern occurs wherever a longer pattern that starts with it does. *)
Lemma test_ci_app_l (p q s : string) :
  test_ci (p +:+ q) s = true -> test_ci p s = true.
Proof.
  induction s as [|b s IH]; cbn [test_ci]; rewrite !orb_true_iff.
  - intros [H|H]; [left; now apply prefix_ci_app_l in H | discriminate].
  - intros [H|H]; [left; now apply prefix_ci_app_l in H | right; auto].
Qed.

Lemma test_ci_tail (p : string) (b : ascii) (s : string) :
  test_ci p s = true -> test_ci p (String b s) = true.
Proof. intros H. cbn [test_ci]. rewrite H. apply orb_true_r. Qed.

Lemma prefix_ci_app_r (p q s : string) :
  prefix_ci (p +:+ q) s = true -> test_ci q s = true.
Proof.
  revert s; induction p as [|a p IH]; intros s H.
  - change (prefix_ci q s = true) in H. destruct s; cbn [test_ci]; now rewrite H.
  - destruct s as [|b s]; simpl in H; [discriminate|].
    destruct (Ascii.eqb (canonChar a) (canonChar b)); [|discriminate].
    apply test_ci_tail, IH, H.
Qed.

(** A pattern occurs wherever a longer pattern that ends with it does. *)
Lemma test_ci_app_r (p q s : string) :
  test_ci (p +:+ q) s = true -> test_ci q s = true.
Proof.
  induction s as [|b s IH]; cbn [test_ci]; rewrite orb_true_iff.
  - intros [H|H]; [now apply prefix_ci_app_r in H | discriminate].
  - intros [H|H]; [now apply prefix_ci_app_r in H | apply test_ci_tail; auto].
Qed.

(** A lower bound on [matchCount] from the patterns known to occur. *)
Ltac count_patterns :=
  unfold matchCount, highConfidencePatterns, mediumConfidencePatterns,
    lowConfidencePatterns;
  cbn [List.filter];
  repeat match goal with
    | H : test_ci ?p ?h = true |- context [test_ci ?p ?h] => rewrite H
    end;
  repeat match goal with
    | |- context [test_ci ?p ?h] => destruct (test_ci p h)
    end;
  cbn [length]; lia.

(** X3: the patterns are counted one by one even where one contains
    another.  Content that mentions [shopify-section-id] is positive on that
    mention alone (it is also a mention of [shopify-section]: two Tier-B
    patterns), and content that mentions a [.myshopify.com] address (which is
    also a mention of [shopify.com]) together with a [/cart] or [/checkout]
    path is positive. *)
Theorem overlapping_patterns_add_up (html : string) :
  (Occurs "shopify-section-id" html -> isShopifyHtml (Some html) = true)
  /\ (Occurs ".myshopify.com" html ->
      Occurs "/cart" html \/ Occurs "/checkout" html ->
      isShopifyHtml (Some html) = true).
Proof.
  split.
  - intros H. apply test_ci_Occurs in H.
    pose proof (test_ci_app_l "shopify-section" "-id" html H) as H'.
    rewrite isShopifyHtml_rule.
    destruct html as [|c html]; [discriminate|]. cbn [String.length Nat.eqb negb andb].
    assert (Hm : 2 <= matchCount mediumConfidencePatterns (String c html))
      by count_patterns.
    apply Nat.leb_le in Hm. rewrite Hm. now rewrite orb_true_r.
  - intros H Hc. apply test_ci_Occurs in H.
    pose proof (test_ci_app_r ".my" "shopify.com" html H) as H'.
    rewrite isShopifyHtml_rule.
    destruct html as [|c html]; [discriminate|]. cbn [String.length Nat.eqb negb andb].
    assert (Hm : 1 <= matchCount mediumConfidencePatterns (String c html))
      by count_patterns.
    assert (Hl : 2 <= matchCount lowConfidencePatterns (String c html))
      by (destruct Hc as [Hc|Hc]; apply test_ci_Occurs in Hc; count_patterns).
    apply Nat.leb_le in Hm, Hl. rewrite Hm, Hl. cbn [andb].
    now rewrite orb_true_r.
Qed.

Lemma overlapping_patterns_add_up_witness :
  isShopifyHtml (Some "<div id=shopify-section-id-header>") = true
  /\ isShopifyHtml (Some "<a href=https://demo.myshopify.com/cart>") = true.
Proof.
  split.
  - apply (proj1 (overlapping_patterns_add_up _)).
    apply test_ci_Occurs. vm_compute. reflexivity.
  - apply (proj2 (overlapping_patterns_add_up _)).
    + apply test_ci_Occurs. vm_compute. reflexivity.
    + left. apply test_ci_Occurs. vm_compute. reflexivity.
Defined.

End ClassifierMore.

(** ** The network probes *)

Section ProbesMore.
Import Network.

(** X4: whatever its arguments, [fetchHtml] looks at the network through one
    request only: a request for the URL it was given, whose abort delay is
    never zero (an absent or zero [timeoutMs] becomes ten seconds).  And the
    old call [fetchHtml(url, t)] does what [fetchHtml(url, { timeoutMs: t })]
    does. *)
Theorem fetchHtml_single_request (url : string)
        (timeoutOrOptions : option (Z + FetchHtmlOptions))
        (options : option FetchHtmlOptions) :
  let request := fetchHtml_request url (fetchHtml_opts timeoutOrOptions options) in
  req_url request = url
  /\ req_abortAfterMs request <> 0%Z
  /\ (forall fetch fetch' : Request -> Completion (Response string),
        fetch request = fetch' request ->
        fetchHtml fetch url timeoutOrOptions options
        = fetchHtml fetch' url timeoutOrOptions options)
  /\ forall fetch (t : Z),
       fetchHtml fetch url (Some (inl t)) None
       = fetchHtml fetch url (Some (inr (mkFetchHtmlOptions (Some t) None None))) None.
Proof.
  intros request. split; [reflexivity|]. split; [|split; [|reflexivity]].
  - unfold request, fetchHtml_request, numberOr. cbn [req_abortAfterMs].
    destruct (timeoutMs _) as [v|]; [|discriminate].
    destruct (Z.eqb_spec v 0); [discriminate | assumption].
  - intros fetch fetch' E. unfold fetchHtml. fold request. now rewrite E.
Qed.

Lemma fetchHtml_single_request_witness :
  fetchHtml (fun r => if (req_abortAfterMs r =? 10000)%Z
                      then Return (mkResponse true 200 "OK" (Return "<html>"))
                      else Throw (mkError "Error" "unexpected" ""))
            "https://shop.example" (Some (inl 0%Z)) None
  = fetchHtml (fun _ => Return (mkResponse true 200 "OK" (Return "<html>")))
              "https://shop.example" (Some (inl 0%Z)) None.
Proof.
  destruct (fetchHtml_single_request "https://shop.example" (Some (inl 0%Z)) None)
    as (_ & _ & Hsame & _).
  apply Hsame. vm_compute. reflexivity.
Defined.

(** X5: the answers of the DNS probes are well formed.  A lookup answer is
    either [ok] with an address and no error, or not [ok] with no address and
    a non-empty error text; [dnsCheck] gives the same three fields; and
    [resolveCname] lists aliases only when [ok], has no error when [ok] or
    when the resolver said [ENODATA] or [ENOTFOUND], and a non-empty error
    text otherwise. *)
Theorem dns_answers_well_formed
        (lookup : string -> Completion LookupAddress)
        (dnsResolveCname : string -> Completion (list string)) (domain : string) :
  let r := dnsLookup lookup domain in
  let c := dnsCheck lookup domain in
  let k := resolveCname dnsResolveCname domain in
  (if dl_ok r
   then is_Some (dl_address r) /\ dl_error r = None
   else dl_address r = None
        /\ exists msg, dl_error r = Some msg /\ msg <> EmptyString)
  /\ (dc_ok c = dl_ok r /\ dc_address c = dl_address r /\ dc_error c = dl_error r)
  /\ (if cn_ok k then cn_error k = None else cn_cnames k = [])
  /\ (forall e, dnsResolveCname domain = Throw e ->
       if String.eqb (err_code e) "ENODATA" || String.eqb (err_code e) "ENOTFOUND"
       then cn_error k = None
       else exists msg, cn_error k = Some msg /\ msg <> EmptyString).
Proof.
  cbv zeta. unfold dnsCheck, dnsLookup, resolveCname. repeat split.
  - destruct (lookup domain) as [a|e]; cbn; [split; [eauto|reflexivity]|].
    split; [reflexivity|]. eexists. split; [reflexivity|].
    now apply orElse_nonempty.
  - destruct (dnsResolveCname domain) as [l|e]; cbn; [reflexivity|].
    now destruct (_ || _).
  - intros e ->. destruct (_ || _); cbn; [reflexivity|].
    eexists. split; [reflexivity|]. now apply orElse_nonempty.
Qed.

Lemma dns_answers_well_formed_witness :
  exists msg,
    cn_error (resolveCname (fun _ => Throw (mkError "Error" "" "ESERVFAIL"))
                           "shop.example") = Some msg
    /\ msg <> EmptyString.
Proof.
  destruct (dns_answers_well_formed
              (fun _ => Throw (mkError "Error" "" "ENOTFOUND"))
              (fun _ => Throw (mkError "Error" "" "ESERVFAIL")) "shop.example")
    as (_ & _ & _ & H).
  exact (H (mkError "Error" "" "ESERVFAIL") eq_refl).
Defined.

End ProbesMore.

(** ** The certificate-log sources *)

Section CtMore.
Import JsString CT.
#[local] Set Warnings "-abstract-large-number".

Lemma isEmpty_false s : isEmpty s = false <-> s <> EmptyString.
Proof. destruct s; simpl; split; congruence. Qed.

Lemma JsSet_add_Forall (P : string -> Prop) s x :
  Forall P s -> P x -> Forall P (JsSet.add s x).
Proof.
  intros Hs Hx. unfold JsSet.add. destruct (JsSet.has s x); [exact Hs|].
  apply Forall_app. split; [exact Hs | now constructor].
Qed.

Lemma foldl_Forall {A} (P : A -> Prop) (f : list A -> string -> list A) lines acc :
  (forall acc line, Forall P acc -> Forall P (f acc line)) ->
  Forall P acc -> Forall P (foldl f acc lines).
Proof.
  intros Hf. revert acc. induction lines as [|l lines IH]; intros acc H; simpl; auto.
Qed.

Lemma shopifyLine_storeOk domains line :
  Forall storeOk domains -> Forall storeOk (shopifyLine domains line).
Proof.
  intros Hd. unfold shopifyLine.
  destruct (endsWith _ _); [|exact Hd].
  set (clean := trim _).
  destruct (negb (isEmpty clean)) eqn:E1; cbn [andb]; [|exact Hd].
  destruct (negb (String.eqb clean "myshopify.com")) eqn:E2; cbn [andb]; [|exact Hd].
  destruct (negb (startsWith clean ".")) eqn:E3; [|exact Hd].
  destruct (_ && _); [|exact Hd].
  destruct (negb (bool_decide _)) eqn:E4; [|exact Hd].
  apply JsSet_add_Forall; [exact Hd|].
  apply negb_true_iff in E1, E2, E3, E4.
  split; [now apply isEmpty_false|]. split; [now apply String.eqb_neq|].
  split; [exact E3|]. now apply bool_decide_eq_false in E4.
Qed.

Lemma shopifyCerts_storeOk maxResults data processed domains :
  Forall storeOk domains ->
  Forall storeOk (shopifyCerts maxResults data processed domains).
Proof.
  revert processed domains.
  induction data as [|cert data IH]; intros processed domains Hd; simpl; [exact Hd|].
  destruct (maxResults <=? processed); [exact Hd|].
  destruct (isEmpty _); [now apply IH|]. apply IH.
  apply foldl_Forall; [|exact Hd]. intros acc line. apply shopifyLine_storeOk.
Qed.

Lemma getShopifyDomainsFromCT_cases fetch maxResults :
  match getShopifyDomainsFromCT fetch maxResults with
  | Return rs =>
      exists response data,
        fetch shopifyApiUrl 60000%Z = Return response
        /\ resp_ok response = true /\ resp_body response = Return data
        /\ rs = List.map (fun d => mkSearchResult d ("https://" +:+ d))
                         (shopifyCerts (default 10000 maxResults) data 0 [])
  | Throw e =>
      fetch shopifyApiUrl 60000%Z = Throw e
      \/ exists response,
           fetch shopifyApiUrl 60000%Z = Return response
           /\ (resp_ok response = false /\ e = httpError response
               \/ resp_ok response = true /\ resp_body response = Throw e)
  end.
Proof.
  unfold getShopifyDomainsFromCT.
  destruct (fetch shopifyApiUrl 60000%Z) as [response|e]; cbn; [|now left].
  destruct (resp_ok response) eqn:Eok; cbn; [|right; eauto].
  destruct (resp_body response) as [data|e] eqn:Eb; cbn; [|right; eauto 6].
  eauto 6.
Qed.

(** X6: every candidate that [getShopifyDomainsFromCT] returns has the URL
    [https://] followed by its title, a title that is neither empty nor
    [myshopify.com] nor starts with a dot, and a first label outside the list
    of refused names; no URL is returned twice; and the call fails, with
    nothing returned, exactly when the request fails, the status is not a
    success, or the JSON cannot be read. *)
Theorem getShopifyDomainsFromCT_candidates (fetch : CtFetch) (maxResults : option nat) :
  match getShopifyDomainsFromCT fetch maxResults with
  | Return rs => Forall validStore rs /\ NoDup (List.map sr_url rs)
  | Throw e =>
      fetch shopifyApiUrl 60000%Z = Throw e
      \/ exists response,
           fetch shopifyApiUrl 60000%Z = Return response
           /\ (resp_ok response = false /\ e = httpError response
               \/ resp_ok response = true /\ resp_body response = Throw e)
  end.
Proof.
  pose proof (getShopifyDomainsFromCT_cases fetch maxResults) as H.
  pose proof (getShopifyDomainsFromCT_NoDup fetch maxResults) as Hn.
  destruct (getShopifyDomainsFromCT fetch maxResults) as [rs|e]; [|exact H].
  split; [|exact Hn].
  destruct H as (response & data & _ & _ & _ & ->).
  apply Forall_fmap.
  eapply Forall_impl; [apply shopifyCerts_storeOk; constructor|].
  intros d Hd. split; [reflexivity | exact Hd].
Qed.

Lemma shopifyCerts_enough maxResults data more processed domains :
  maxResults <= processed + length (List.filter named data) ->
  shopifyCerts maxResults (data ++ more) processed domains
  = shopifyCerts maxResults data processed domains.
Proof.
  revert processed domains.
  induction data as [|cert data IH]; intros processed domains Hle; simpl in *.
  - destruct more as [|cert more]; [reflexivity|]. simpl.
    destruct (Nat.leb_spec maxResults processed); [reflexivity | lia].
  - destruct (maxResults <=? processed); [reflexivity|].
    unfold named in Hle at 1.
    destruct (isEmpty (default "" (name_value cert))); simpl in Hle; apply IH; lia.
Qed.

(** X7: [getShopifyDomainsFromCT] reads certificate entries only until
    [maxResults] of them carried names: whatever follows in the answer
    changes nothing, and with [maxResults] at zero no candidate is returned. *)
Theorem getShopifyDomainsFromCT_reads_maxResults
        (maxResults : nat) (data more : list Cert) :
  (maxResults <= length (List.filter named data) ->
   getShopifyDomainsFromCT (answering (data ++ more)) (Some maxResults)
   = getShopifyDomainsFromCT (answering data) (Some maxResults))
  /\ getShopifyDomainsFromCT (answering data) (Some 0) = Return [].
Proof.
  split.
  - intros Hle. unfold getShopifyDomainsFromCT, answering. cbn.
    now rewrite shopifyCerts_enough.
  - unfold getShopifyDomainsFromCT, answering. cbn. now destruct data.
Qed.

Lemma getShopifyDomainsFromCT_reads_maxResults_witness :
  getShopifyDomainsFromCT
    (answering ([ mkCert (Some "alpha.myshopify.com"); mkCert None ]
                ++ [ mkCert (Some "beta.myshopify.com") ])) (Some 1)
  = getShopifyDomainsFromCT
      (answering [ mkCert (Some "alpha.myshopify.com"); mkCert None ]) (Some 1).
Proof.
  apply (proj1 (getShopifyDomainsFromCT_reads_maxResults 1 _ _)).
  vm_compute. lia.
Defined.

(** *** Cleaning a line *)

Lemma lower_lower (c : ascii) : lowerChar (lowerChar c) = lowerChar c.
Proof. destruct c as [[] [] [] [] [] [] [] []]; reflexivity. Qed.

Lemma isSpace_lower (c : ascii) : isSpace (lowerChar c) = isSpace c.
Proof. destruct c as [[] [] [] [] [] [] [] []]; reflexivity. Qed.

Lemma removeSpaces_lower_plain (s : string) :
  allChars plainChar (removeSpaces (toLowerCase s)) = true.
Proof.
  unfold toLowerCase. induction s as [|c s IH]; simpl; [reflexivity|].
  destruct (isSpace (lowerChar c)) eqn:E; [exact IH|]. simpl.
  unfold plainChar at 1. rewrite E, lower_lower, Ascii.eqb_refl. exact IH.
Qed.

Lemma allChars_drop f n s : allChars f s = true -> allChars f (drop n s) = true.
Proof.
  revert s. induction n as [|n IH]; intros s H; [now destruct s|].
  destruct s as [|c s]; simpl in *; [reflexivity|].
  apply andb_true_iff in H as [_ H]. auto.
Qed.

Lemma rev_acc_involutive (s a b : string) :
  rev_acc (rev_acc s a) b = rev_acc a (s +:+ b).
Proof.
  revert a b. induction s as [|c s IH]; intros a b; simpl; [reflexivity|].
  rewrite IH. reflexivity.
Qed.

Lemma rev_rev (s : string) : rev (rev s) = s.
Proof.
  unfold rev. rewrite rev_acc_involutive. cbn [rev_acc].
  induction s as [|c s IH]; [reflexivity|].
  change (String c (s +:+ "") = String c s). now rewrite IH.
Qed.

Lemma clean_rev_acc (s acc : string) :
  removeSpaces (toLowerCase (rev_acc s acc))
  = rev_acc (removeSpaces (toLowerCase s)) (removeSpaces (toLowerCase acc)).
Proof.
  unfold toLowerCase. revert acc.
  induction s as [|c s IH]; intros acc; simpl; [reflexivity|].
  rewrite IH. simpl. now destruct (isSpace (lowerChar c)).
Qed.

Lemma clean_trimStart (s : string) :
  removeSpaces (toLowerCase (trimStart s)) = removeSpaces (toLowerCase s).
Proof.
  unfold toLowerCase. induction s as [|c s IH]; simpl; [reflexivity|].
  rewrite isSpace_lower. destruct (isSpace c) eqn:E; [exact IH|].
  simpl. now rewrite isSpace_lower, E.
Qed.

(** Trimming first changes nothing once all white space is removed. *)
Lemma clean_trim (s : string) :
  removeSpaces (toLowerCase (trim s)) = removeSpaces (toLowerCase s).
Proof.
  unfold trim, rev. rewrite clean_rev_acc, clean_trimStart, clean_rev_acc. simpl.
  rewrite clean_trimStart. apply rev_rev.
Qed.

Lemma scannerLine_valid domains line :
  Forall validDomain domains -> Forall validDomain (scannerLine domains line).
Proof.
  intros Hd. unfold scannerLine.
  set (n0 := removeSpaces _).
  assert (H0 : allChars plainChar n0 = true) by apply removeSpaces_lower_plain.
  set (n1 := if startsWith n0 "*." then substring 2 n0 else n0).
  assert (H1 : allChars plainChar n1 = true).
  { unfold n1. destruct (startsWith n0 "*."); [now apply allChars_drop | exact H0]. }
  set (n2 := if startsWith n1 "www." then substring 4 n1 else n1).
  assert (H2 : allChars plainChar n2 = true).
  { unfold n2. destruct (startsWith n1 "www."); [now apply allChars_drop | exact H1]. }
  destruct (negb (isEmpty n2)) eqn:E1; cbn [andb]; [|exact Hd].
  destruct (0 <? String.length n2); cbn [andb]; [|exact Hd].
  destruct (negb (startsWith n2 ".")) eqn:E3; cbn [andb]; [|exact Hd].
  destruct (includes n2 ".") eqn:E4; cbn [andb]; [|exact Hd].
  destruct (_ && _); [|exact Hd].
  apply JsSet_add_Forall; [exact Hd|].
  apply negb_true_iff in E1, E3.
  split; [now apply isEmpty_false|]. auto.
Qed.

Lemma scannerLine_NoDup domains line :
  NoDup domains -> NoDup (scannerLine domains line).
Proof.
  intros Hn. unfold scannerLine.
  destruct (_ && _); [now apply JsSet_add_NoDup | exact Hn].
Qed.

Lemma scannerCerts_good limit data domains :
  NoDup domains /\ Forall validDomain domains ->
  NoDup (scannerCerts limit data domains)
  /\ Forall validDomain (scannerCerts limit data domains).
Proof.
  revert domains. induction data as [|cert data IH]; intros domains Hd; simpl; [exact Hd|].
  destruct (reached limit (length domains)); [exact Hd|].
  destruct (isEmpty _); [now apply IH|]. apply IH.
  generalize (split "010" (default "" (name_value cert))). intros lines.
  revert domains Hd. induction lines as [|l lines IHl]; intros domains [Hn Hv]; simpl.
  - now split.
  - apply IHl. split; [now apply scannerLine_NoDup | now apply scannerLine_valid].
Qed.

Lemma finalLimit_good limit l :
  NoDup l /\ Forall validDomain l ->
  NoDup (finalLimit limit l) /\ Forall validDomain (finalLimit limit l)
  /\ forall n, limit = Some (S n) -> length (finalLimit limit l) <= S n.
Proof.
  intros [Hn Hv]. unfold finalLimit. destruct limit as [[|n]|].
  - repeat split; auto. discriminate.
  - destruct (Nat.ltb_spec (S n) (length l)).
    + repeat split.
      * eapply sublist_NoDup; [exact Hn | apply sublist_take].
      * now apply Forall_take.
      * intros m [= <-]. rewrite length_take. lia.
    + repeat split; auto. intros m [= <-]. exact H.
  - repeat split; auto. discriminate.
Qed.

(** What the [try] block of a fetcher leaves: a good list when it completes,
    the set untouched when it throws before the entries are read. *)
Lemma scanBlock_good fetch apiUrl timeout limit notOk :
  (forall response,
      notOk response = Return [] \/ exists e, notOk response = Throw e) ->
  match scanBlock fetch apiUrl timeout limit notOk [] with
  | (Return l, _) =>
      NoDup l /\ Forall validDomain l
      /\ (forall n, limit = Some (S n) -> length l <= S n)
      /\ (l <> [] -> exists response data,
             fetch apiUrl timeout = Return response
             /\ resp_ok response = true /\ resp_body response = Return data)
  | (Throw _, domains) => domains = []
  end.
Proof.
  intros HnotOk. unfold scanBlock.
  destruct (fetch apiUrl timeout) as [response|e]; [|reflexivity].
  destruct (resp_ok response) eqn:Eok; cbn.
  - destruct (resp_body response) as [data|e] eqn:Eb; [|reflexivity].
    destruct (finalLimit_good limit (scannerCerts limit data []))
      as (H1 & H2 & H3).
    { apply scannerCerts_good. split; constructor. }
    repeat split; auto. intros _. eauto.
  - destruct (HnotOk response) as [->|[e ->]]; [|reflexivity].
    repeat split; try constructor; [intros; simpl; lia | congruence].
Qed.

(** X8: [fetchDomainsFromCT] never throws.  The list it returns has no
    duplicates, holds only names that are not empty, contain a dot but do not
    start with one, and are free of white space and capital letters, is no
    longer than a positive [limit], and is empty unless the request succeeded
    and its JSON could be read. *)
Theorem fetchDomainsFromCT_result (fetch : CtFetch) (pattern : string)
        (options : option CtScannerOptions) :
  exists l,
    fetchDomainsFromCT fetch pattern options = Return l
    /\ NoDup l
    /\ Forall validDomain l
    /\ (forall n, options ≫= limit = Some (S n) -> length l <= S n)
    /\ (l <> [] ->
        exists response data,
          fetch ("https://crt.sh/?q=" +:+ encodeURIComponent pattern +:+ "&output=json")
                (numberOr (options ≫= timeout) 60000) = Return response
          /\ resp_ok response = true /\ resp_body response = Return data).
Proof.
  unfold fetchDomainsFromCT.
  pose proof (scanBlock_good fetch
                ("https://crt.sh/?q=" +:+ encodeURIComponent pattern +:+ "&output=json")
                (numberOr (options ≫= timeout) 60000) (options ≫= limit)
                (fun response => Throw (httpError response))) as H.
  destruct (scanBlock _ _ _ _ _ _) as [[l|e] domains].
  - exists l. split; [reflexivity|]. apply H. intros response. right. eauto.
  - exists domains. split; [reflexivity|].
    rewrite H by (intros response; right; eauto).
    repeat split; try constructor; [intros; simpl; lia | congruence].
Qed.

Lemma fetchDomainsFromCT_result_witness :
  exists l,
    fetchDomainsFromCT (answering [ mkCert (Some "a.example.com");
                                    mkCert (Some "b.example.com");
                                    mkCert (Some "c.example.com") ])
                       "%.example.com" (Some (mkCtScannerOptions (Some 2) None))
    = Return l
    /\ length l <= 2.
Proof.
  destruct (fetchDomainsFromCT_result
              (answering [ mkCert (Some "a.example.com");
                           mkCert (Some "b.example.com");
                           mkCert (Some "c.example.com") ])
              "%.example.com" (Some (mkCtScannerOptions (Some 2) None)))
    as (l & E & _ & _ & Hlimit & _).
  exists l. split; [exact E|]. apply (Hlimit 1). reflexivity.
Defined.

Lemma startsWith_nil s : startsWith s "" = true.
Proof. now destruct s. Qed.

Lemma JsSet_add_twice s x : JsSet.add (JsSet.add s x) x = JsSet.add s x.
Proof. apply JsSet_add_present, JsSet_add_elem. now right. Qed.

Lemma scannerLine_twice domains x : 
  scannerLine (scannerLine domains x) x = scannerLine domains x.
Proof.
  assert (exists b n, forall d, scannerLine d x = if b : bool then JsSet.add d n else d)
    as (b & n & H) by (eexists _, _; intros d; reflexivity).
  rewrite !H. destruct b; [apply JsSet_add_twice | reflexivity].
Qed.

(** X9: the set of domains takes the spellings of a name for one name.  A
    line changes the set by what is left of it once capitals are lowered and
    all white space is removed; a leading "*." or "www." is dropped; and a
    second spelling of a name already read leaves the set as it is. *)
Theorem scannerLine_folds_spellings (domains : list string) (x x' : string) :
  let clean s := removeSpaces (toLowerCase s) in
  (clean x = clean x' ->
   scannerLine domains x' = scannerLine domains x
   /\ scannerLine (scannerLine domains x) x' = scannerLine domains x)
  /\ (startsWith (clean x) "*." = false ->
      scannerLine domains ("*." +:+ x) = scannerLine domains x
      /\ scannerLine (scannerLine domains x) ("*." +:+ x) = scannerLine domains x)
  /\ (startsWith (clean x) "*." = false ->
      startsWith (clean x) "www." = false ->
      scannerLine domains ("www." +:+ x) = scannerLine domains x
      /\ scannerLine (scannerLine domains x) ("www." +:+ x) = scannerLine domains x).
Proof.
  intros clean.
  assert (Hsame : forall d y y',
             clean y = clean y' -> scannerLine d y' = scannerLine d y).
  { intros d y y' H. unfold scannerLine. rewrite !clean_trim.
    fold (clean y) (clean y'). now rewrite H. }
  assert (Hstar : forall d,
             startsWith (clean x) "*." = false ->
             scannerLine d ("*." +:+ x) = scannerLine d x).
  { intros d H. unfold scannerLine. rewrite !clean_trim.
    change (removeSpaces (toLowerCase ("*." +:+ x)))
      with (String "*" (String "." (clean x))).
    fold (clean x).
    change (startsWith (String "*" (String "." (clean x))) "*.")
      with (startsWith (clean x) "").
    rewrite startsWith_nil.
    change (substring 2 (String "*" (String "." (clean x)))) with (clean x).
    cbv iota. now rewrite H. }
  assert (Hwww : forall d,
             startsWith (clean x) "*." = false ->
             startsWith (clean x) "www." = false ->
             scannerLine d ("www." +:+ x) = scannerLine d x).
  { intros d H H'. unfold scannerLine. rewrite !clean_trim.
    change (removeSpaces (toLowerCase ("www." +:+ x)))
      with (String "w" (String "w" (String "w" (String "." (clean x))))).
    fold (clean x).
    change (startsWith (String "w" (String "w" (String "w" (String "." (clean x))))) "*.")
      with false.
    cbv iota.
    change (startsWith (String "w" (String "w" (String "w" (String "." (clean x))))) "www.")
      with (startsWith (clean x) "").
    rewrite startsWith_nil.
    change (substring 4 (String "w" (String "w" (String "w" (String "." (clean x))))))
      with (clean x).
    cbv iota. now rewrite H, H'. }
  split; [|split].
  - intros H. split; [now apply Hsame|].
    rewrite (Hsame _ x x' H). apply scannerLine_twice.
  - intros H. split; [now apply Hstar|].
    rewrite Hstar by exact H. apply scannerLine_twice.
  - intros H H'. split; [now apply Hwww|].
    rewrite Hwww by assumption. apply scannerLine_twice.
Qed.

Lemma scannerLine_folds_spellings_witness :
  scannerLine ["shop.example.com"] " Shop.Example.COM " = ["shop.example.com"]
  /\ scannerLine ["shop.example.com"] "*.shop.example.com" = ["shop.example.com"]
  /\ scannerLine ["shop.example.com"] "www.shop.example.com" = ["shop.example.com"].
Proof.
  destruct (scannerLine_folds_spellings [] "shop.example.com" " Shop.Example.COM ")
    as (Hcase & Hstar & Hwww).
  split; [|split].
  - apply Hcase. vm_compute. reflexivity.
  - apply Hstar. vm_compute. reflexivity.
  - apply Hwww; vm_compute; reflexivity.
Defined.

End CtMore.

(** ** The mass scan of the certificate logs *)

Section MassMore.
Import JsString CT.

Lemma massLoop_any_ceiling net ctOptions cap ceiling ceiling' queries st :
  massLoop net ctOptions cap ceiling queries st
  = massLoop net ctOptions cap ceiling' queries st.
Proof.
  revert st. induction queries as [|query queries IH]; intros st; simpl; [reflexivity|].
  destruct (reached cap (length (allDomains st))); [reflexivity|].
  destruct (dispatch_returns (net (S (queryIndex st))) ctOptions query) as [ds ->].
  destruct (reached cap _); [reflexivity|]. apply IH.
Qed.

(** X10: [stopAfterConsecutiveErrors] has no effect.  Two calls of
    [massFetchDomainsFromCT] that differ only in this option hand the same
    queries to the fetchers and return the same result, whatever the network
    does. *)
Theorem error_ceiling_has_no_effect
        (net : nat -> CtFetch) (monthBounds : nat -> string * string)
        (limitPerPattern maxTotalDomains sleepMs : option nat) (timeout : option Z)
        (ceiling ceiling' : option nat)
        (useDateRanges useDifferentEndpoints : option bool) (daysBack : option nat) :
  let options c :=
    Some (mkMassCtOptions limitPerPattern maxTotalDomains sleepMs timeout c
                          useDateRanges useDifferentEndpoints daysBack) in
  massFetchDomainsFromCT net monthBounds (options ceiling)
  = massFetchDomainsFromCT net monthBounds (options ceiling')
  /\ attempted (massRun net monthBounds (options ceiling))
     = attempted (massRun net monthBounds (options ceiling')).
Proof.
  intros options.
  assert (E : massRun net monthBounds (options ceiling)
              = massRun net monthBounds (options ceiling'))
    by apply massLoop_any_ceiling.
  unfold massFetchDomainsFromCT. now rewrite E.
Qed.

(** What a fetcher of the mass scan hands back. *)
Lemma dispatch_good fetch ctOptions query ds :
  dispatch fetch ctOptions query = Return ds ->
  NoDup ds /\ Forall validDomain ds
  /\ forall n, limit ctOptions = Some (S n) -> length ds <= S n.
Proof.
  assert (Hempty : NoDup (@nil string) /\ Forall validDomain []
                   /\ forall n, limit ctOptions = Some (S n) -> length (@nil string) <= S n)
    by (repeat split; try constructor; intros; simpl; lia).
  unfold dispatch, fetchDomainsFromCTSilent, fetchDomainsFromCT,
    fetchDomainsFromCTWithDate, fetchDomainsFromCTWithEndpoint.
  cbn [mbind option_bind].
  destruct (endpoint query) as [[]|]; try destruct (_ || _);
    match goal with
    | |- context [scanBlock ?f ?u ?t ?l ?n []] =>
        let H := fresh "H" in
        assert (H := scanBlock_good f u t l n);
        destruct (scanBlock f u t l n []) as [[l'|e] domains]
    end;
    intros [= <-];
    try exact Hempty;
    try (destruct H as (H1 & H2 & H3 & _); [intros; eauto | now repeat split]);
    try (rewrite H by (intros; eauto); exact Hempty).
Qed.

Lemma JsSet_add_length s x : length (JsSet.add s x) <= S (length s).
Proof.
  unfold JsSet.add. destruct (JsSet.has s x); [lia|].
  rewrite length_app. simpl. lia.
Qed.

Lemma foldl_add_length s xs : length (foldl JsSet.add s xs) <= length s + length xs.
Proof.
  revert s. induction xs as [|x xs IH]; intros s; simpl; [lia|].
  specialize (IH (JsSet.add s x)). pose proof (JsSet_add_length s x). lia.
Qed.

(** With both limits set, the collection never grows beyond the cap by a
    full request. *)
Lemma massLoop_overshoot net lim timeout cap ceiling queries st :
  length (allDomains st) <= cap + S lim ->
  length (allDomains
            (massLoop net (mkCtScannerOptions (Some (S lim)) timeout)
                      (Some (S cap)) ceiling queries st))
  <= cap + S lim.
Proof.
  revert st. induction queries as [|query queries IH]; intros st Hst; [exact Hst|].
  cbn [massLoop].
  destruct (reached (Some (S cap)) (length (allDomains st))) eqn:Er; [exact Hst|].
  unfold reached in Er. apply Nat.leb_gt in Er.
  destruct (dispatch _ _ query) as [ds|e] eqn:Ed.
  - apply dispatch_good in Ed as (_ & _ & Hlen). specialize (Hlen lim eq_refl).
    pose proof (foldl_add_length (allDomains st) ds) as Hadd.
    destruct (reached (Some (S cap)) _); [|apply IH]; cbn [allDomains]; lia.
  - destruct (reached ceiling _); [exact Hst|]. apply IH. exact Hst.
Qed.

Lemma massLoop_valid net ctOptions cap ceiling queries st :
  Forall validDomain (allDomains st) ->
  Forall validDomain (allDomains (massLoop net ctOptions cap ceiling queries st)).
Proof.
  revert st. induction queries as [|query queries IH]; intros st Hst; simpl; [exact Hst|].
  destruct (reached cap (length (allDomains st))); [exact Hst|].
  destruct (dispatch _ _ query) as [ds|e] eqn:Ed.
  - apply dispatch_good in Ed as (_ & Hv & _).
    assert (Forall validDomain (foldl JsSet.add (allDomains st) ds)).
    { generalize (allDomains st), Hst. clear -Hv.
      induction Hv as [|d ds Hd Hv IHv]; intros s Hs; simpl; [exact Hs|].
      apply IHv. now apply JsSet_add_Forall. }
    destruct (reached cap _); [assumption|]. now apply IH.
  - destruct (reached ceiling _); [exact Hst|]. now apply IH.
Qed.

(** The loop takes the queries in order and stops at some point; each one
    taken is handed to a fetcher and leaves its label. *)
Lemma massLoop_prefix net ctOptions cap ceiling queries st :
  exists n,
    let st' := massLoop net ctOptions cap ceiling queries st in
    attempted st' = attempted st ++ take n queries
    /\ ms_patternsUsed st'
       = ms_patternsUsed st
         ++ List.map (fun query => orElse (description query) (pattern query))
                     (take n queries)
    /\ (reached cap = (fun _ => false) -> n = length queries).
Proof.
  revert st. induction queries as [|query queries IH]; intros st.
  - exists 0. simpl. rewrite !app_nil_r. auto.
  - simpl. destruct (reached cap (length (allDomains st))) eqn:Er.
    + exists 0. simpl. rewrite !app_nil_r. repeat split.
      intros Hc. rewrite Hc in Er. discriminate.
    + destruct (dispatch_returns (net (S (queryIndex st))) ctOptions query) as [ds ->].
      destruct (reached cap (length (foldl _ _ _))) eqn:Er'.
      * exists 1. simpl. repeat split.
        intros Hc. rewrite Hc in Er'. discriminate.
      * destruct (IH (mkMassState (foldl JsSet.add (allDomains st) ds)
                        (ms_patternsUsed st ++ [orElse (description query) (pattern query)])
                        (S (queryIndex st))
                        (if 0 <? length ds then 0 else consecutiveErrors st)
                        (attempted st ++ [query])))
          as (n & Ha & Hp & Hn).
        exists (S n). cbv zeta in *. rewrite Ha, Hp. simpl.
        rewrite <- !app_assoc. repeat split. intros Hc. now rewrite (Hn Hc).
Qed.

Lemma massQueries_labelled monthBounds dates endpoints days :
  Forall (fun query => orElse (description query) (pattern query) = description query)
         (massQueries monthBounds dates endpoints days).
Proof.
  unfold massQueries. apply Forall_app. split; [repeat constructor|].
  apply Forall_app. split.
  - destruct dates; [|constructor]. apply Forall_map, Forall_forall.
    intros [[p s] e] _. reflexivity.
  - destruct endpoints; repeat constructor.
Qed.

Lemma massQueries_length monthBounds dates endpoints days :
  length (massQueries monthBounds dates endpoints days)
  = 1 + (if dates then monthsBack days else 0) + (if endpoints then 1 else 0).
Proof.
  unfold massQueries, generateDateRangeQueries_tail.
  rewrite !length_app. destruct dates, endpoints; simpl;
    rewrite ?length_map, ?length_seq; lia.
Qed.

(** X11: the result of [massFetchDomainsFromCT].  The call completes
    normally.  Its [domains] are sorted by code units, without duplicates, all
    of them cleaned names, and [totalDomains] is their number.  [patternsUsed]
    holds the labels of the first queries of the generated list, in order; all
    of them when no cap is set, and the list has one main query, one query per
    month of [daysBack] unless [useDateRanges] is off, and one for the
    Identity endpoint unless [useDifferentEndpoints] is off. *)
Theorem massFetchDomainsFromCT_report
        (net : nat -> CtFetch) (monthBounds : nat -> string * string)
        (options : option MassCtOptions) :
  let o := massOptions options in
  let dates := default true (useDateRanges o) in
  let endpoints := default true (useDifferentEndpoints o) in
  let queries := massQueries monthBounds dates endpoints (default 365 (daysBack o)) in
  exists result,
    massFetchDomainsFromCT net monthBounds options = Return result
    /\ Sorted String.le (domains result)
    /\ NoDup (domains result)
    /\ Forall validDomain (domains result)
    /\ totalDomains result = length (domains result)
    /\ (exists n, patternsUsed result = List.map description (take n queries))
    /\ (maxTotalDomains o = None \/ maxTotalDomains o = Some 0 ->
        patternsUsed result = List.map description queries)
    /\ length queries
       = 1 + (if dates then monthsBack (default 365 (daysBack o)) else 0)
         + (if endpoints then 1 else 0).
Proof.
  intros o dates endpoints queries.
  eexists. split; [reflexivity|]. cbn [domains totalDomains patternsUsed].
  pose proof (massQueries_labelled monthBounds dates endpoints (default 365 (daysBack o)))
    as Hlab. fold queries in Hlab.
  assert (Hmap : forall n,
             List.map (fun query => orElse (description query) (pattern query))
                      (take n queries)
             = List.map description (take n queries)).
  { intros n. apply map_ext_Forall. now apply Forall_take. }
  destruct (massLoop_prefix net (massCtOptions o) (maxTotalDomains o)
              (stopAfterConsecutiveErrors o) queries (mkMassState [] [] 0 0 []))
    as (n & _ & Hp & Hn).
  cbv zeta in Hp. cbn [ms_patternsUsed app] in Hp. rewrite Hmap in Hp.
  repeat split.
  - apply Sorted_merge_sort. apply _.
  - unfold sortStrings. rewrite merge_sort_Permutation.
    apply massLoop_NoDup. constructor.
  - unfold sortStrings. rewrite merge_sort_Permutation.
    apply massLoop_valid. constructor.
  - exists n. exact Hp.
  - intros Hcap. unfold massRun. fold o dates endpoints queries. rewrite Hp.
    rewrite Hn, firstn_all; [reflexivity|].
    destruct Hcap as [-> | ->]; reflexivity.
  - apply massQueries_length.
Qed.

Lemma massFetchDomainsFromCT_report_witness :
  exists result,
    massFetchDomainsFromCT crtsh_down months2026 None = Return result
    /\ length (patternsUsed result) = 15.
Proof.
  destruct (massFetchDomainsFromCT_report crtsh_down months2026 None)
    as (result & E & _ & _ & _ & _ & _ & Hall & Hlen).
  exists result. split; [exact E|].
  rewrite Hall by (left; reflexivity).
  rewrite length_map, Hlen. reflexivity.
Defined.

(** X12: with [maxTotalDomains] and [limitPerPattern] both set, the number of
    domains returned stays below their sum: the cap is checked between
    requests only, so the last request may go over it, by less than one
    request's limit. *)
Theorem cap_overshoot_is_bounded
        (net : nat -> CtFetch) (monthBounds : nat -> string * string)
        (options : MassCtOptions) (cap lim : nat) :
  maxTotalDomains options = Some cap -> 0 < cap ->
  limitPerPattern options = Some lim -> 0 < lim ->
  exists result,
    massFetchDomainsFromCT net monthBounds (Some options) = Return result
    /\ totalDomains result < cap + lim.
Proof.
  intros Hcap Hc Hlim Hl. eexists. split; [reflexivity|].
  cbn [totalDomains]. unfold sortStrings. rewrite merge_sort_Permutation.
  unfold massRun, massCtOptions.
  change (massOptions (Some options)) with options. rewrite Hcap, Hlim.
  destruct cap as [|cap]; [lia|]. destruct lim as [|lim]; [lia|].
  apply (Nat.le_lt_trans _ (cap + S lim)); [|lia].
  apply massLoop_overshoot. simpl. lia.
Qed.

Lemma cap_overshoot_is_bounded_witness :
  exists result,
    massFetchDomainsFromCT (fun _ => answering [ mkCert (Some "a.example.com");
                                                 mkCert (Some "b.example.com");
                                                 mkCert (Some "c.example.com") ])
                           months2026
                           (Some (mkMassCtOptions (Some 2) (Some 1) None None None
                                                  None None None))
    = Return result
    /\ totalDomains result < 1 + 2.
Proof.
  apply cap_overshoot_is_bounded; try reflexivity; lia.
Defined.

End MassMore.

(** ** Whole runs of the pipelines *)

Section RunsMore.
Import Network Pipeline.

Lemma List_map_lookup {A B} (f : A -> B) (l : list A) (k : nat) :
  List.map f l !! k = f <$> l !! k.
Proof. revert k. induction l as [|a l IH]; intros [|k]; simpl; auto. Qed.

Lemma outcomesFrom_lookup {A} (outcome : nat -> A -> Outcome) (array : list A) i k :
  outcomesFrom outcome i array !! k = outcome (i + k) <$> array !! k.
Proof.
  revert i k. induction array as [|a array IH]; intros i [|k]; simpl; try reflexivity.
  - now rewrite Nat.add_0_r.
  - rewrite IH. now rewrite Nat.add_succ_r.
Qed.

(** Result number [k] of a loop is the one that candidate number [k] and
    its outcome call for. *)
Lemma run_lookup {Item A} `{ItemView Item} (key : A -> string)
      (outcome : nat -> A -> Outcome) (body : nat -> A -> Run Item -> Run Item)
      (array : list A) (k : nat) (r : Item) :
  recordsOne key outcome body ->
  st_results (forEachFrom body 0 array emptyRun) !! k = Some r ->
  exists a, array !! k = Some a /\ itemUrl r = key a /\ agrees (outcome k a) r.
Proof.
  intros Hbody.
  destruct (forEachFrom_records key outcome body Hbody array 0 emptyRun)
    as (items & -> & Hm & _ & Hf).
  cbn [st_results emptyRun app]. intros Hk.
  destruct (Forall2_lookup_r _ _ _ _ _ Hf Hk) as (o & Ho & Ha).
  rewrite outcomesFrom_lookup in Ho.
  destruct (array !! k) as [a|] eqn:Ea; [|discriminate].
  injection Ho as <-. exists a. split; [reflexivity|]. split; [|exact Ha].
  assert (E : List.map itemUrl items !! k = Some (itemUrl r))
    by now rewrite List_map_lookup, Hk.
  rewrite Hm, List_map_lookup, Ea in E. now injection E.
Qed.

Lemma agrees_positive {Item} `{ItemView Item} (o : Outcome) (item : Item) :
  agrees o item -> itemIsShopify item = true ->
  exists html,
    o = Classified html /\ Detect.isShopifyHtml (Some html) = true
    /\ itemDnsOk item = true /\ itemHtmlFetched item = true /\ itemError item = None.
Proof.
  destruct o; cbn [agrees]; intros Ha Hp; try (intuition congruence).
  exists html. intuition congruence.
Qed.

Lemma outcomeOf_classified w i u content threshold html :
  outcomeOf w i u content threshold = Classified html ->
  exists d a,
    hostname w u = Some d /\ lookup w i d = Return a
    /\ content = Return (Some html) /\ threshold <= String.length html.
Proof.
  unfold outcomeOf. destruct (hostname w u) as [d|] eqn:Eh; [|discriminate].
  destruct (lookup w i d) as [a|e] eqn:El; [|discriminate].
  destruct content as [[[|c s]|]|e]; try discriminate.
  destruct (Nat.ltb_spec (String.length (String c s)) threshold); [discriminate|].
  intros [= <-]. exists d, a. repeat split; assumption.
Qed.

Lemma positive_backedBy {Item} `{ItemView Item} w i u content threshold (item : Item) :
  itemUrl item = u ->
  agrees (outcomeOf w i u content threshold) item ->
  itemIsShopify item = true ->
  backedBy w i content threshold item.
Proof.
  intros Hu Ha Hp.
  destruct (agrees_positive _ _ Ha Hp) as (html & Ho & Hv & H1 & H2 & H3).
  destruct (outcomeOf_classified _ _ _ _ _ _ Ho) as (d & a & Hh & Hl & Hc & Hlen).
  exists d, a, html. rewrite Hu. auto 10.
Qed.

(** X13: a positive result is always backed.  In [scanNiche], [scanMassive]
    and [scanBingBulk], when result number [i] is flagged [isShopify], the
    host of its URL was resolved at that turn, the page fetched for it at that
    turn is a text that [isShopifyHtml] accepts (of a hundred code units or
    more in [scanBingBulk]), and the result has [dnsOk] and [htmlFetched] set
    and no error. *)
Theorem positives_are_backed (w : World) :
  (forall query options i r,
     results (scanNiche w query options) !! i = Some r ->
     isShopify r = true ->
     backedBy w i
       (fetchHtml (fetch w i) (url r)
                  (Some (inl (numberOr (options ≫= so_timeout) 10000))) None) 0 r)
  /\ (forall options i r,
     results (scanMassive w options) !! i = Some r ->
     isShopify r = true ->
     backedBy w i
       (fetchHtml (fetch w i) (url r)
                  (Some (inl (numberOr (options ≫= mo_timeout) 10000))) None) 0 r)
  /\ (forall options out i r,
     BingBulk.scanBingBulk w options = Return out ->
     BingBulk.results out !! i = Some r ->
     BingBulk.isShopify r = true ->
     backedBy w i
       (fetchHtml (fetch w i) (BingBulk.url r)
                  (Some (inr (mkFetchHtmlOptions
                                (Some (default 15000%Z (BingBulk.timeout options)))
                                None None))) None) 100 r).
Proof.
  split; [|split].
  - intros query options i r Hr Hp.
    unfold scanNiche, scanNiche_run in Hr. cbn [results report] in Hr.
    destruct (length _ =? 0); [discriminate|].
    destruct (run_lookup _ _ _ _ _ _ (analyse_recordsOne w _) Hr) as (a & _ & Hu & Ha).
    change (url r) with (itemUrl r). rewrite Hu.
    apply (positive_backedBy w i (sr_url a)); [exact Hu | exact Ha | exact Hp].
  - intros options i r Hr Hp.
    unfold scanMassive in Hr. cbn [results report] in Hr.
    destruct (run_lookup _ _ _ _ _ _ (analyse_recordsOne w _) Hr) as (a & _ & Hu & Ha).
    change (url r) with (itemUrl r). rewrite Hu.
    apply (positive_backedBy w i (sr_url a)); [exact Hu | exact Ha | exact Hp].
  - intros options out i r [= <-] Hr Hp. cbn [BingBulk.results] in Hr.
    destruct (run_lookup _ _ _ _ _ _ (bulk_recordsOne w _ _ _) Hr) as (a & _ & Hu & Ha).
    change (BingBulk.url r) with (itemUrl r). rewrite Hu.
    apply (positive_backedBy w i (id a)); [exact Hu | exact Ha | exact Hp].
Qed.

Lemma positives_are_backed_witness :
  exists r,
    results (scanNiche (scenarioWorld tierAPage) "snowboard" None) !! 2 = Some r
    /\ backedBy (scenarioWorld tierAPage) 2
         (fetchHtml (fetch (scenarioWorld tierAPage) 2) (url r)
                    (Some (inl (numberOr (None ≫= so_timeout) 10000))) None) 0 r.
Proof.
  destruct (positives_are_backed (scenarioWorld tierAPage)) as (Hniche & _).
  eexists. split; [vm_compute; reflexivity|].
  apply (Hniche "snowboard" None 2); vm_compute; reflexivity.
Defined.

Lemma forEachFrom_invariant {A St : Type} (Inv : St -> Prop)
      (body : nat -> A -> St -> St) :
  (forall i a st, Inv st -> Inv (body i a st)) ->
  forall array i st, Inv st -> Inv (forEachFrom body i array st).
Proof.
  intros Hbody array. induction array as [|a array IH]; intros i st Hst; simpl; auto.
Qed.

(** A loop whose body appends one entry to a log appends one entry per
    candidate, in order. *)
Lemma forEachFrom_log {A St B : Type} (log : St -> list B) (entry : A -> B)
      (body : nat -> A -> St -> St) :
  (forall i a st, log (body i a st) = log st ++ [entry a]) ->
  forall array i st,
    log (forEachFrom body i array st) = log st ++ List.map entry array.
Proof.
  intros Hbody array. induction array as [|a array IH]; intros i st; simpl.
  - now rewrite app_nil_r.
  - rewrite IH, Hbody, <- app_assoc. reflexivity.
Qed.

Ltac split_body :=
  repeat match goal with
    | |- context [hostname ?w ?u] => destruct (hostname w u) as [d|]
    | |- context [lookup ?w ?i ?d] => destruct (lookup w i d) as [a|e]
    | |- context [fetchHtml ?f ?u ?o ?p] =>
        destruct (fetchHtml f u o p) as [[[|ch html]|]|e]
    end;
  cbn -[Detect.isShopifyHtml Detect.getShopifyConfidence fetchHtml String.length Nat.ltb];
  repeat match goal with
    | |- context [if ?b then _ else _] => destruct b
    end.

Lemma analyse_item w timeout i title u st :
  exists item,
    st_results (analyse w timeout i title u st) = st_results st ++ [item]
    /\ Pipeline.title item = title /\ url item = u.
Proof.
  unfold analyse, dnsCheck, dnsLookup, Detect.isShopify. destruct st as [rs us es].
  split_body; eexists; repeat split.
Qed.

Lemma bulk_analyse_item w timeout c query0 i u st :
  exists item,
    st_results (BingBulk.analyse w timeout c query0 i u st) = st_results st ++ [item]
    /\ BingBulk.title item = orElse (default "" (BingBulk.urlToTitle c !! u)) u
    /\ BingBulk.url item = u.
Proof.
  unfold BingBulk.analyse, dnsLookup. destruct st as [rs us es].
  split_body; eexists; repeat split.
Qed.

Lemma analyseAll_entries w timeout searchResults :
  List.map (fun r => (Pipeline.title r, url r))
           (st_results (analyseAll w timeout searchResults))
  = List.map (fun s => (sr_title s, sr_url s)) searchResults.
Proof.
  unfold analyseAll.
  rewrite (forEachFrom_log
             (fun st => List.map (fun r => (Pipeline.title r, url r)) (st_results st))
             (fun s => (sr_title s, sr_url s))); [reflexivity|].
  intros i a st.
  destruct (analyse_item w timeout i (sr_title a) (sr_url a) st) as (item & -> & Ht & Hu).
  rewrite map_app. simpl. now rewrite Ht, Hu.
Qed.

Lemma bulk_analyseAll_entries w timeout c query0 urlsArray :
  List.map (fun r => (BingBulk.title r, BingBulk.url r))
           (st_results (BingBulk.analyseAll w timeout c query0 urlsArray))
  = List.map (fun u => (orElse (default "" (BingBulk.urlToTitle c !! u)) u, u)) urlsArray.
Proof.
  unfold BingBulk.analyseAll.
  rewrite (forEachFrom_log
             (fun st => List.map (fun r => (BingBulk.title r, BingBulk.url r))
                                 (st_results st))
             (fun u => (orElse (default "" (BingBulk.urlToTitle c !! u)) u, u)));
    [reflexivity|].
  intros i a st.
  destruct (bulk_analyse_item w timeout c query0 i a st) as (item & -> & Ht & Hu).
  rewrite map_app. simpl. now rewrite Ht, Hu.
Qed.

(** From the pairs of a list to its second components and to a property of
    each pair. *)
Lemma entries_urls {R S : Type} (t u : R -> string) (t' u' : S -> string)
      (rs : list R) (ss : list S) :
  List.map (fun r => (t r, u r)) rs = List.map (fun s => (t' s, u' s)) ss ->
  List.map u rs = List.map u' ss.
Proof.
  intros E. apply (f_equal (List.map snd)) in E.
  rewrite !List.map_map in E. exact E.
Qed.

Lemma entries_titles {R S : Type} (t u : R -> string) (t' u' : S -> string)
      (P : string -> string -> Prop) (rs : list R) (ss : list S) :
  List.map (fun r => (t r, u r)) rs = List.map (fun s => (t' s, u' s)) ss ->
  Forall (fun s => P (t' s) (u' s)) ss ->
  Forall (fun r => P (t r) (u r)) rs.
Proof.
  revert ss. induction rs as [|r rs IH]; intros [|s ss] E Hs; try discriminate.
  - constructor.
  - injection E as Et Eu E. inversion Hs as [|? ? Hp Hs']; subst.
    constructor; [now rewrite Et, Eu | eauto].
Qed.

Lemma foldl_addCt_NoDup rs c :
  NoDup (allUrls c) -> NoDup (allUrls (foldl addCt c rs)).
Proof.
  revert c. induction rs as [|r rs IH]; intros c Hc; simpl; [exact Hc|].
  apply IH. now apply JsSet_add_NoDup.
Qed.

Lemma foldl_addGitHub_NoDup rs c :
  NoDup (allUrls c) -> NoDup (allUrls (foldl addGitHub c rs)).
Proof.
  revert c. induction rs as [|r rs IH]; intros c Hc; simpl; [exact Hc|].
  apply IH. now apply JsSet_add_NoDup.
Qed.

(** X14: what is analysed is what was collected.  [scanBingBulk] produces
    one result for each distinct URL that the searches gave, with the title
    of the first occurrence of that URL (the URL itself when that title is
    empty); [scanMassive] produces one result for each URL of its collection,
    in the order of the collection and with its title there; [scanNiche]
    produces one result for each search result, repeated URLs included. *)
Theorem each_url_is_analysed_once (w : World) :
  (forall options out,
     BingBulk.scanBingBulk w options = Return out ->
     let found :=
       harvestedResults
         (BingBulk.harvests w (BingBulk.queries options)
                            (default 50%Z (BingBulk.maxResultsPerQuery options))) in
     NoDup (List.map BingBulk.url (BingBulk.results out))
     /\ (forall u, u ∈ List.map BingBulk.url (BingBulk.results out)
                   <-> u ∈ List.map sr_url found)
     /\ Forall (fun r => BingBulk.title r
                         = orElse (default "" (firstTitle (BingBulk.url r) found))
                                  (BingBulk.url r))
               (BingBulk.results out))
  /\ (forall options,
     let out := scanMassive w options in
     let c := scanMassive_collect w options in
     List.map url (results out) = allUrls c
     /\ NoDup (List.map url (results out))
     /\ Forall (fun r => Pipeline.title r
                         = orElse (default "" (urlToTitle c !! url r)) (url r))
               (results out))
  /\ (forall query options,
     List.map url (results (scanNiche w query options))
     = List.map sr_url
         (scanNiche_search w query (numberOr (options ≫= maxResults) 20))).
Proof.
  split; [|split].
  - intros options out [= <-] found. cbn [BingBulk.results].
    unfold BingBulk.scanBingBulk_run.
    set (c := BingBulk.scanBingBulk_collect w options).
    destruct (collect_aggregates
                (BingBulk.harvests w (BingBulk.queries options)
                                   (default 50%Z (BingBulk.maxResultsPerQuery options))))
      as (Hn & Hm & Ht).
    fold found in Hm, Ht.
    change (BingBulk.collect _) with c in Hn, Hm, Ht.
    pose proof (bulk_analyseAll_entries w (default 15000%Z (BingBulk.timeout options)) c
                  (default "" (BingBulk.queries options !! 0)) (BingBulk.allUrls c)) as E.
    assert (Eu : List.map BingBulk.url
                   (st_results (BingBulk.analyseAll w
                                  (default 15000%Z (BingBulk.timeout options)) c
                                  (default "" (BingBulk.queries options !! 0))
                                  (BingBulk.allUrls c)))
                 = BingBulk.allUrls c).
    { rewrite (entries_urls _ _ _ _ _ _ E). apply List.map_id. }
    rewrite Eu. split; [exact Hn|]. split; [exact Hm|].
    apply (entries_titles _ _ _ _
             (fun t u => t = orElse (default "" (firstTitle u found)) u) _ _ E).
    apply Forall_forall. intros u _. cbn beta. now rewrite Ht.
  - intros options out c. unfold out, scanMassive. cbn [results report].
    fold c.
    pose proof (analyseAll_entries w (numberOr (options ≫= mo_timeout) 10000) (titled c))
      as E.
    assert (Eu : List.map url
                   (st_results (analyseAll w (numberOr (options ≫= mo_timeout) 10000)
                                           (titled c)))
                 = allUrls c).
    { rewrite (entries_urls _ _ _ _ _ _ E). unfold titled.
      rewrite List.map_map. apply List.map_id. }
    rewrite Eu. split; [reflexivity|]. split.
    + unfold c, scanMassive_collect, massiveCollect.
      destruct (if _ : bool then _ else _);
        [apply foldl_addGitHub_NoDup|]; apply foldl_addCt_NoDup; constructor.
    + apply (entries_titles _ _ _ _
               (fun t u => t = orElse (default "" (urlToTitle c !! u)) u) _ _ E).
      unfold titled. apply Forall_map, Forall_forall. intros u _. reflexivity.
  - intros query options. unfold scanNiche, scanNiche_run. cbn [results report].
    destruct (scanNiche_search w query _) as [|s ss] eqn:Es; [reflexivity|].
    cbn [length Nat.eqb].
    apply (entries_urls _ _ _ _ _ _ (analyseAll_entries w _ (s :: ss))).
Qed.

Lemma each_url_is_analysed_once_witness :
  NoDup (List.map BingBulk.url
           (st_results (BingBulk.scanBingBulk_run (scenarioWorld tierAPage) oneQuery))).
Proof.
  destruct (each_url_is_analysed_once (scenarioWorld tierAPage)) as (Hbulk & _).
  destruct (Hbulk oneQuery _ eq_refl) as (Hn & _). exact Hn.
Defined.

(** *** The pool of [scanNicheWithBing] *)

(** What a call of [processUrl] does to the shared arrays does not depend
    on what they hold. *)
Lemma processUrl_frame w i result st :
  NicheWithBing.processUrl w i result st
  = mkRun (st_results st ++ st_results (NicheWithBing.processUrl w i result emptyRun))
          (st_shopifyUrls st
           ++ st_shopifyUrls (NicheWithBing.processUrl w i result emptyRun))
          (st_events st ++ st_events (NicheWithBing.processUrl w i result emptyRun)).
Proof.
  unfold NicheWithBing.processUrl, dnsLookup. destruct st as [rs us es].
  split_body; unfold push, pushShopify, emit; cbn;
    rewrite <- ?app_assoc, ?app_nil_r; reflexivity.
Qed.

Lemma processUrl_one w i result :
  exists item,
    st_results (NicheWithBing.processUrl w i result emptyRun) = [item]
    /\ NicheWithBing.url item = sr_url result.
Proof.
  destruct (processUrl_step w i result emptyRun) as (item & E & Hu & _).
  exists item. rewrite E. split; [reflexivity | exact Hu].
Qed.

Lemma runPool_from w (searchResults : list SearchResult) (finished : list nat)
      (st : NicheWithBing.NicheState) :
  let call i :=
    match searchResults !! i with
    | Some result => NicheWithBing.processUrl w i result emptyRun
    | None => emptyRun
    end in
  let pool := foldl (fun st i =>
                       match searchResults !! i with
                       | Some result => NicheWithBing.processUrl w i result st
                       | None => st
                       end) st finished in
  st_results pool = st_results st ++ flat_map (fun i => st_results (call i)) finished
  /\ st_shopifyUrls pool
     = st_shopifyUrls st ++ flat_map (fun i => st_shopifyUrls (call i)) finished.
Proof.
  cbv zeta. revert st. induction finished as [|i finished IH]; intros st.
  - simpl. now rewrite !app_nil_r.
  - cbn [foldl flat_map]. destruct (IH (match searchResults !! i with
                                         | Some result =>
                                             NicheWithBing.processUrl w i result st
                                         | None => st
                                         end)) as (-> & ->).
    destruct (searchResults !! i) as [result|].
    + rewrite (processUrl_frame w i result st). cbn [st_results st_shopifyUrls].
      now rewrite <- !app_assoc.
    + cbn [st_results st_shopifyUrls emptyRun app]. split; reflexivity.
Qed.

Lemma calls_in_order w (searchResults before : list SearchResult) :
  flat_map (fun i =>
              List.map NicheWithBing.url
                (st_results
                   match (before ++ searchResults) !! i with
                   | Some result => NicheWithBing.processUrl w i result emptyRun
                   | None => emptyRun
                   end))
           (seq (length before) (length searchResults))
  = List.map sr_url searchResults.
Proof.
  revert before. induction searchResults as [|r rs IH]; intros before; [reflexivity|].
  cbn [length seq flat_map List.map].
  rewrite lookup_app_r, Nat.sub_diag by lia. change ((r :: rs) !! 0) with (Some r).
  destruct (processUrl_one w (length before) r) as (item & -> & Hu).
  cbn [List.map app]. rewrite Hu. f_equal.
  specialize (IH (before ++ [r])).
  rewrite length_app, Nat.add_1_r, <- app_assoc in IH. exact IH.
Qed.

(** X15: the order in which the concurrent calls of [scanNicheWithBing]
    finish decides the order of the report and nothing else.  Two completion
    orders give the same results and the same positive URLs up to order, and
    the same counts; and when every call finishes, there is one result per
    search result. *)
Theorem completion_order_only_reorders (w : World) (query : string)
        (maxResults : option Z) (finished finished' : list nat) :
  finished ≡ₚ finished' ->
  let out := NicheWithBing.scanNicheWithBing w query maxResults finished in
  let out' := NicheWithBing.scanNicheWithBing w query maxResults finished' in
  NicheWithBing.results out ≡ₚ NicheWithBing.results out'
  /\ NicheWithBing.shopifyUrls out ≡ₚ NicheWithBing.shopifyUrls out'
  /\ NicheWithBing.scannedCount out = NicheWithBing.scannedCount out'
  /\ NicheWithBing.shopifyCount out = NicheWithBing.shopifyCount out'
  /\ (forall searchResults,
        searchBing w 0 query (default 50%Z maxResults) = Return searchResults ->
        finished ≡ₚ seq 0 (length searchResults) ->
        NicheWithBing.scannedCount out = length searchResults
        /\ List.map NicheWithBing.url (NicheWithBing.results out)
           ≡ₚ List.map sr_url searchResults).
Proof.
  intros Hp out out'. unfold out, out', NicheWithBing.scanNicheWithBing.
  destruct (searchBing w 0 query (default 50%Z maxResults)) as [searchResults|e].
  2: { do 4 (split; [reflexivity|]). discriminate. }
  assert (Hr : forall order order',
             order ≡ₚ order' ->
             st_results (NicheWithBing.runPool w searchResults order)
             ≡ₚ st_results (NicheWithBing.runPool w searchResults order')
             /\ st_shopifyUrls (NicheWithBing.runPool w searchResults order)
                ≡ₚ st_shopifyUrls (NicheWithBing.runPool w searchResults order')).
  { intros order order' Ho. unfold NicheWithBing.runPool.
    destruct (runPool_from w searchResults order emptyRun) as (-> & ->).
    destruct (runPool_from w searchResults order' emptyRun) as (-> & ->).
    cbn [st_results st_shopifyUrls emptyRun app].
    split; now apply Permutation_flat_map. }
  destruct (Hr finished finished' Hp) as (Hres & Hpos).
  destruct (length searchResults =? 0) eqn:E0.
  - do 4 (split; [reflexivity|]). intros rs [= <-] _.
    apply Nat.eqb_eq in E0. rewrite E0. split; [reflexivity|].
    destruct searchResults; [reflexivity | discriminate].
  - cbn [NicheWithBing.results NicheWithBing.shopifyUrls NicheWithBing.scannedCount
         NicheWithBing.shopifyCount].
    split; [exact Hres|]. split; [exact Hpos|].
    split; [now rewrite Hres|]. split; [now rewrite Hpos|].
    intros rs [= <-] Hall.
    destruct (Hr finished (seq 0 (length searchResults)) Hall) as (Hres' & _).
    assert (Eu : List.map NicheWithBing.url
                   (st_results (NicheWithBing.runPool w searchResults
                                  (seq 0 (length searchResults))))
                 = List.map sr_url searchResults).
    { unfold NicheWithBing.runPool.
      destruct (runPool_from w searchResults (seq 0 (length searchResults)) emptyRun)
        as (-> & _).
      cbn [st_results emptyRun app].
      rewrite <- (calls_in_order w searchResults []).
      cbn [length app]. clear.
      induction (seq 0 (length searchResults)) as [|i l IH]; [reflexivity|].
      cbn [flat_map]. rewrite map_app, IH. reflexivity. }
    split.
    + rewrite Hres', <- (length_map NicheWithBing.url), Eu. apply length_map.
    + rewrite Hres', Eu. reflexivity.
Qed.

Lemma completion_order_only_reorders_witness :
  NicheWithBing.results
    (NicheWithBing.scanNicheWithBing (scenarioWorld tierAPage) "snowboard" None [2; 0; 1])
  ≡ₚ NicheWithBing.results
    (NicheWithBing.scanNicheWithBing (scenarioWorld tierAPage) "snowboard" None [0; 1; 2]).
Proof.
  destruct (completion_order_only_reorders (scenarioWorld tierAPage) "snowboard" None
              [2; 0; 1] [0; 1; 2]) as (Hres & _).
  - change [2; 0; 1] with ([2] ++ [0; 1]). change [0; 1; 2] with ([0; 1] ++ [2]).
    apply Permutation_app_comm.
  - exact Hres.
Defined.

End RunsMore.

(** ** The scan of the certificate logs *)

Section PoolFacts.
Import ScanCT.
Context {T : Type}.
Variable maxConcurrency : Z.

Lemma processQueue_spec (n : nat) (waiting called : list T) :
  let p := processQueue maxConcurrency n waiting called in
  started p ++ queue p = called ++ waiting
  /\ running p + length called = n + length (started p)
  /\ ((Z.of_nat n <= Z.max 0 maxConcurrency)%Z ->
      (Z.of_nat (running p) <= Z.max 0 maxConcurrency)%Z)
  /\ (queue p <> [] -> (maxConcurrency <= Z.of_nat (running p))%Z)
  /\ ((maxConcurrency <= 0)%Z -> started p = called).
Proof.
  cbv zeta. revert n called.
  induction waiting as [|task waiting IH]; intros n called; cbn [processQueue].
  - cbn [started queue running]. rewrite app_nil_r. repeat split; auto; congruence.
  - destruct (Z.ltb_spec (Z.of_nat n) maxConcurrency) as [Hlt|Hge].
    + destruct (IH (S n) (called ++ [task])) as (H1 & H2 & H3 & H4 & H5).
      rewrite length_app in H2. cbn [length] in H2.
      repeat split.
      * now rewrite H1, <- app_assoc.
      * lia.
      * intros _. apply H3. lia.
      * exact H4.
      * intros Hmax. lia.
    + cbn [started queue running]. repeat split; auto.
Qed.

Lemma after_spec (events : list (PoolEvent T)) (p0 p : Pool T) :
  after maxConcurrency p0 events = Some p ->
  started p ++ queue p = (started p0 ++ queue p0) ++ added events
  /\ running p + settled events + length (started p0)
     = running p0 + length (started p)
  /\ (poolInv maxConcurrency p0 -> poolInv maxConcurrency p).
Proof.
  revert p0. induction events as [|[task|] events IH]; intros p0; cbn [after].
  - intros [= <-]. cbn [added flat_map]. rewrite app_nil_r.
    change (settled (@nil (PoolEvent T))) with 0.
    split; [reflexivity|]. split; [lia | auto].
  - intros Hp. destruct (IH _ Hp) as (H1 & H2 & H3).
    destruct (processQueue_spec (running p0) (queue p0 ++ [task]) (started p0))
      as (Q1 & Q2 & Q3 & Q4 & Q5).
    fold (add maxConcurrency p0 task) in Q1, Q2, Q3, Q4, Q5.
    split; [|split].
    + rewrite H1, Q1. cbn [added flat_map]. now rewrite <- !app_assoc.
    + change (settled (Add task :: events)) with (settled events). lia.
    + intros (I1 & I2 & I3). apply H3. split; [auto|]. split; [auto|].
      intros Hmax. rewrite Q5 by exact Hmax. auto.
  - destruct (running p0) as [|n] eqn:En; [discriminate|].
    intros Hp. destruct (IH _ Hp) as (H1 & H2 & H3).
    destruct (processQueue_spec n (queue p0) (started p0)) as (Q1 & Q2 & Q3 & Q4 & Q5).
    assert (Es : settle maxConcurrency p0
                 = processQueue maxConcurrency n (queue p0) (started p0))
      by (unfold settle; now rewrite En).
    rewrite <- Es in Q1, Q2, Q3, Q4, Q5.
    split; [|split].
    + rewrite H1, Q1. reflexivity.
    + change (settled (Settle :: events)) with (S (settled events)). lia.
    + intros (I1 & I2 & I3). apply H3. split; [apply Q3; lia|]. split; [auto|].
      intros Hmax. rewrite Q5 by exact Hmax. auto.
Qed.

(** X16: the pool of [scanCT].  After any sequence of calls of [add] and
    ends of tasks, the tasks called and the tasks waiting are, in this order,
    the tasks added (none lost, none called twice, first in first called);
    the tasks running are those called and not ended, never more than
    [maxConcurrency] of them; no task waits while a place is free; once
    nothing runs, every task added has been called, provided
    [maxConcurrency] is positive: when it is not, no task is ever called. *)
Theorem pool_invariants (events : list (PoolEvent T)) (p : Pool T) :
  after maxConcurrency newPool events = Some p ->
  started p ++ queue p = added events
  /\ running p + settled events = length (started p)
  /\ (Z.of_nat (running p) <= Z.max 0 maxConcurrency)%Z
  /\ (queue p <> [] -> (maxConcurrency <= Z.of_nat (running p))%Z)
  /\ ((0 < maxConcurrency)%Z -> running p = 0 -> started p = added events)
  /\ ((maxConcurrency <= 0)%Z -> started p = [] /\ queue p = added events).
Proof.
  intros Hp. destruct (after_spec events newPool p Hp) as (H1 & H2 & H3).
  cbn [newPool started queue running app length] in H1, H2.
  destruct H3 as (I1 & I2 & I3).
  { repeat split; cbn; try lia; congruence. }
  split; [exact H1|]. split; [lia|]. split; [exact I1|]. split; [exact I2|]. split.
  - intros Hpos H0. destruct (queue p) as [|task waiting] eqn:Eq.
    + now rewrite app_nil_r in H1.
    + specialize (I2 ltac:(discriminate)). lia.
  - intros Hmax. split; [auto|]. rewrite (I3 Hmax) in H1. exact H1.
Qed.

End PoolFacts.

Lemma pool_invariants_witness :
  exists p,
    ScanCT.after 2 ScanCT.newPool
      [ ScanCT.Add "a"; ScanCT.Add "b"; ScanCT.Add "c"; ScanCT.Settle ] = Some p
    /\ ScanCT.started p ++ ScanCT.queue p = [ "a"; "b"; "c" ]
    /\ ScanCT.running p = 2.
Proof.
  eexists. split; [reflexivity|].
  destruct (pool_invariants 2
              [ ScanCT.Add "a"; ScanCT.Add "b"; ScanCT.Add "c"; ScanCT.Settle ]
              _ eq_refl) as (H1 & _).
  split; [exact H1 | reflexivity].
Defined.

Section ScanCtFacts.
Import Network Pipeline ScanCT.

Variable w : World.
Variable fetchAt : nat -> nat -> Request -> Completion (Response string).
Variable timeout : Z.

Lemma fetchLoop_two (i : nat) (u : string) (st : CtState) :
  let attempt k :=
    fetchHtml (fetchAt i k) u
              (Some (inr (mkFetchHtmlOptions (Some timeout) None None))) None in
  fetchLoop (fetchAt i) i u timeout 0 maxFetchAttempts None st
  = (retried (attempt 1) (attempt 2),
     mkRun (st_results st) (st_shopifyUrls st)
           (st_events st
            ++ HtmlFetch i u :: (if retries (attempt 1) then [HtmlFetch i u] else []))).
Proof.
  cbv zeta. unfold maxFetchAttempts. cbn [fetchLoop noHtml].
  destruct (fetchHtml (fetchAt i 1) u _ None) as [[[|c s]|]|e];
    cbn [fetchLoop noHtml retried retries]; try reflexivity;
    destruct (fetchHtml (fetchAt i 2) u _ None) as [html|e];
    unfold emit; cbn [st_results st_shopifyUrls st_events];
    rewrite <- app_assoc; reflexivity.
Qed.

(** The events of domain number [i]. *)
Lemma processDomain_step (i : nat) (d : string) (st : CtState) :
  let attempt k :=
    fetchHtml (fetchAt i k) ("https://" +:+ d)
              (Some (inr (mkFetchHtmlOptions (Some timeout) None None))) None in
  exists item,
    processDomain w fetchAt timeout i d st
    = mkRun (st_results st ++ [item])
            (st_shopifyUrls st ++ (if isShopify item then [url item] else []))
            (st_events st
             ++ DnsLookup i d
                :: match ctOutcome w fetchAt timeout i d with
                   | DnsFails | InvalidUrl => []
                   | Classified _ =>
                       CnameLookup i d :: HtmlFetch i (url item)
                       :: (if retries (attempt 1) then [HtmlFetch i (url item)] else [])
                       ++ [Classify i]
                   | _ =>
                       CnameLookup i d :: HtmlFetch i (url item)
                       :: (if retries (attempt 1) then [HtmlFetch i (url item)] else [])
                   end)
    /\ domain item = d
    /\ url item = "https://" +:+ d
    /\ agrees (ctOutcome w fetchAt timeout i d) item
    /\ cnames item
       = match lookup w i d with
         | Return _ => cn_cnames (resolveCname (dnsResolveCname w i) d)
         | Throw _ => []
         end.
Proof.
  cbv zeta. unfold processDomain, ctOutcome, dnsLookup. destruct st as [rs us es].
  destruct (lookup w i d) as [a|e]; [rewrite fetchLoop_two|];
    cbn -[Detect.isShopifyHtml fetchHtml String.length Nat.ltb retried retries
          msg_apresTentatives BingBulk.msg_nonRecupere];
    [destruct (retried _ _) as [[[|c s]|]|e];
     cbn -[Detect.isShopifyHtml fetchHtml String.length Nat.ltb retries
           msg_apresTentatives BingBulk.msg_nonRecupere];
     try destruct (String.length (String c s) <? 100) eqn:El;
     try destruct (Detect.isShopifyHtml (Some (String c s))) eqn:V|];
    eexists;
    (split; [unfold push, pushShopify, emit; apply f_equal3;
             [reflexivity
             | cbn -[Detect.isShopifyHtml]; rewrite ?V, ?app_nil_r; reflexivity
             | cbn -[Detect.isShopifyHtml fetchHtml retries];
               rewrite <- ?app_assoc; cbn [app]; reflexivity]|]);
    cbn -[Detect.isShopifyHtml fetchHtml String.length Nat.ltb retries
          msg_apresTentatives BingBulk.msg_nonRecupere];
    repeat split; try reflexivity; try assumption.
  all: try (symmetry; assumption).
  all: try (eapply hasError_orElse; [reflexivity | discriminate]).
Qed.

Lemma isHtmlFetch_count (i : nat) (u : string) (twice : bool) (tail : list Event) :
  Forall (fun e => isHtmlFetch i e = false) tail ->
  length (List.filter (isHtmlFetch i)
            (HtmlFetch i u :: (if twice then [HtmlFetch i u] else []) ++ tail))
  = if twice then 2 else 1.
Proof.
  intros Ht.
  assert (E : List.filter (isHtmlFetch i) tail = []).
  { induction Ht as [|e tail He _ IH]; [reflexivity|]. cbn. now rewrite He. }
  destruct twice; cbn [List.filter app isHtmlFetch]; rewrite Nat.eqb_refl, E; reflexivity.
Qed.

Lemma ctOutcome_classified (i : nat) (d html : string) :
  let attempt k :=
    fetchHtml (fetchAt i k) ("https://" +:+ d)
              (Some (inr (mkFetchHtmlOptions (Some timeout) None None))) None in
  ctOutcome w fetchAt timeout i d = Classified html <->
  exists a,
    lookup w i d = Return a
    /\ retried (attempt 1) (attempt 2) = Return (Some html)
    /\ 100 <= String.length html.
Proof.
  cbv zeta. unfold ctOutcome. split.
  - destruct (lookup w i d) as [a|e]; [|discriminate].
    destruct (retried _ _) as [[[|c s]|]|e]; try discriminate.
    destruct (Nat.ltb_spec (String.length (String c s)) 100); [discriminate|].
    intros [= <-]. exists a. auto.
  - intros (a & -> & -> & Hlen). destruct html as [|c s]; [simpl in Hlen; lia|].
    destruct (Nat.ltb_spec (String.length (String c s)) 100); [lia | reflexivity].
Qed.

(** X17: [processDomain] asks for the page once, and a second time exactly
    when the first attempt gave no content or an empty one.  It records one
    result: a positive one exactly when the host resolved and the content
    obtained in the end has a hundred code units or more and is accepted by
    [isShopifyHtml].  The CNAME answers do not count: with other answers to
    the CNAME question, the result is the same but for its [cnames]. *)
Theorem processDomain_retries_once (i : nat) (d : string) (st : CtState) :
  let attempt k :=
    fetchHtml (fetchAt i k) ("https://" +:+ d)
              (Some (inr (mkFetchHtmlOptions (Some timeout) None None))) None in
  (exists item events,
     processDomain w fetchAt timeout i d st
     = mkRun (st_results st ++ [item])
             (st_shopifyUrls st ++ (if isShopify item then ["https://" +:+ d] else []))
             (st_events st ++ events)
     /\ agrees (ctOutcome w fetchAt timeout i d) item
     /\ length (List.filter (isHtmlFetch i) events)
        = match lookup w i d with
          | Throw _ => 0
          | Return _ => if retries (attempt 1) then 2 else 1
          end
     /\ (isShopify item = true <->
         exists a html,
           lookup w i d = Return a
           /\ retried (attempt 1) (attempt 2) = Return (Some html)
           /\ 100 <= String.length html
           /\ Detect.isShopifyHtml (Some html) = true))
  /\ (forall w' : World,
        lookup w' i d = lookup w i d ->
        List.map (withCnames []) (st_results (processDomain w' fetchAt timeout i d st))
        = List.map (withCnames []) (st_results (processDomain w fetchAt timeout i d st))
        /\ st_shopifyUrls (processDomain w' fetchAt timeout i d st)
           = st_shopifyUrls (processDomain w fetchAt timeout i d st)).
Proof.
  cbv zeta. split.
  - destruct (processDomain_step i d st) as (item & E & Hd & Hu & Ha & _).
    eexists item, _. split; [rewrite E, Hu; reflexivity|].
    split; [exact Ha|]. split.
    + unfold ctOutcome.
      destruct (lookup w i d) as [a|e]; [|reflexivity].
      cbn [List.filter isHtmlFetch].
      destruct (retried _ _) as [[[|c s]|]|e];
        try destruct (String.length (String c s) <? 100);
        first [ rewrite <- (app_nil_r (if retries _ then _ else _));
                apply isHtmlFetch_count; constructor
              | apply isHtmlFetch_count; repeat constructor ].
    + split.
      * intros Hp.
        destruct (agrees_positive _ _ Ha Hp) as (html & Ho & Hv & _).
        apply ctOutcome_classified in Ho as (a & Hl & Hr & Hlen).
        exists a, html. auto.
      * intros (a & html & Hl & Hr & Hlen & Hv).
        assert (Ho : ctOutcome w fetchAt timeout i d = Classified html)
          by (apply ctOutcome_classified; eauto).
        rewrite Ho in Ha. destruct Ha as (_ & _ & Hs & _).
        change (itemIsShopify item) with (isShopify item) in Hs. congruence.
  - intros w' Hl. unfold processDomain, dnsLookup. rewrite Hl.
    destruct st as [rs us es]. destruct (lookup w i d) as [a|e]; [|split; reflexivity].
    cbn -[fetchLoop Detect.isShopifyHtml fetchHtml String.length Nat.ltb
          msg_apresTentatives BingBulk.msg_nonRecupere].
    rewrite !fetchLoop_two.
    destruct (retried _ _) as [[[|c s]|]|e];
      cbn -[Detect.isShopifyHtml fetchHtml String.length Nat.ltb retries
            msg_apresTentatives BingBulk.msg_nonRecupere];
      try destruct (String.length (String c s) <? 100);
      try destruct (Detect.isShopifyHtml (Some (String c s)));
      cbn -[Detect.isShopifyHtml fetchHtml String.length Nat.ltb retries
            msg_apresTentatives BingBulk.msg_nonRecupere];
      rewrite !map_app; split; reflexivity.
Qed.






End ScanCtFacts.

Section ScanCtReport.
Import Network Pipeline ScanCT.



End ScanCtReport.

Lemma processDomain_retries_once_witness :
  Pipeline.st_shopifyUrls (ScanCT.processDomain ctScenarioWorld (secondAttemptAnswers tierAPage)
                    15000 0 "shop.example" Pipeline.emptyRun)
  = Pipeline.st_shopifyUrls (ScanCT.processDomain (scenarioWorld tierAPage)
                      (secondAttemptAnswers tierAPage)
                      15000 0 "shop.example" Pipeline.emptyRun).
Proof.
  destruct (processDomain_retries_once (scenarioWorld tierAPage)
              (secondAttemptAnswers tierAPage) 15000 0 "shop.example" Pipeline.emptyRun)
    as (_ & Hcname).
  destruct (Hcname ctScenarioWorld) as (_ & Hpos); [reflexivity | exact Hpos].
Defined.


(** ** The verdict and the confidence together *)

Section VerdictMore.
Import JsString Detect.

#[local] Set Warnings "-inexact-float".

Lemma matchCount_sublist (ps qs : list string) (html : string) :
  ps `sublist_of` qs -> matchCount ps html <= matchCount qs html.
Proof.
  unfold matchCount. induction 1 as [|p ps qs _ IH|p ps qs _ IH]; cbn [List.filter].
  - lia.
  - destruct (test_ci p html); cbn [length]; lia.
  - destruct (test_ci p html); cbn [length]; lia.
Qed.

Lemma matchCount_mono (ps : list string) (html html' : string) :
  (forall p, test_ci p html = true -> test_ci p html' = true) ->
  matchCount ps html <= matchCount ps html'.
Proof.
  intros Hm. unfold matchCount. induction ps as [|p ps IH]; [reflexivity|].
  cbn [List.filter]. specialize (Hm p).
  destruct (test_ci p html); [rewrite Hm by reflexivity; cbn [length]; lia|].
  destruct (test_ci p html'); cbn [length]; lia.
Qed.

(** X19: a confidence above 0.4 comes with a positive verdict: content that
    [isShopifyHtml] rejects never scores more than 0.4.  The bound is
    reached: the mention of [.myshopify.com] alone scores 0.4 and is
    rejected. *)
Theorem verdict_follows_confidence (html : string) :
  (PrimFloat.ltb 0.4 (getShopifyConfidence (Some html)) = true ->
   isShopifyHtml (Some html) = true)
  /\ getShopifyConfidence (Some "x.myshopify.com") = 0.4%float
  /\ isShopifyHtml (Some "x.myshopify.com") = false.
Proof.
  split; [|split; vm_compute; reflexivity].
  rewrite isShopifyHtml_rule. unfold getShopifyConfidence.
  destruct html as [|c html]; [vm_compute; discriminate|].
  cbn [String.length Nat.eqb negb andb].
  pose proof (matchCount_sublist
                [ "cdn.shopify.com"; "shopifycdn.com"; "window.shopify"; "shopify.theme" ]
                highConfidencePatterns (String c html)) as Hh.
  pose proof (matchCount_sublist
                [ ".myshopify.com"; "data-shopify"; "shopify-section";
                  "/collections/"; "/products/" ]
                mediumConfidencePatterns (String c html)) as Hm.
  assert (Hh' := Hh ltac:(unfold highConfidencePatterns;
                          repeat first [apply sublist_nil | apply sublist_skip
                                       | apply sublist_cons])).
  assert (Hm' := Hm ltac:(unfold mediumConfidencePatterns;
                          repeat first [apply sublist_nil | apply sublist_skip
                                       | apply sublist_cons])).
  clear Hh Hm. revert Hh' Hm'.
  generalize (matchCount highConfidencePatterns (String c html)).
  generalize (matchCount mediumConfidencePatterns (String c html)).
  generalize (matchCount lowConfidencePatterns (String c html)).
  intros low medium high.
  unfold matchCount, weightedPatterns. cbn [scoreLoop List.filter].
  rewrite !test_ci_lower.
  generalize (String c html). intros h.
  repeat match goal with
    | |- context [test_ci ?p h] => generalize (test_ci p h); intros []
    end;
    cbn [length]; intros Hh Hm Hc;
    solve [ vm_compute in Hc; discriminate
          | destruct (Nat.leb_spec 1 high); [reflexivity | lia]
          | destruct (Nat.leb_spec 2 medium);
            [cbn [orb]; now rewrite ?orb_true_r | lia] ].
Qed.

Lemma verdict_follows_confidence_witness :
  isShopifyHtml (Some "<div data-shopify class=shopify-section href=/products/x>") = true.
Proof.
  apply (proj1 (verdict_follows_confidence _)). vm_compute. reflexivity.
Defined.

Lemma append_assoc (a b c : string) : (a +:+ b) +:+ c = a +:+ b +:+ c.
Proof.
  induction a as [|x a IH]; [reflexivity|].
  change (String x ((a +:+ b) +:+ c) = String x (a +:+ b +:+ c)). now rewrite IH.
Qed.

Lemma length_append (a b : string) :
  String.length (a +:+ b) = String.length a + String.length b.
Proof.
  induction a as [|x a IH]; [reflexivity|].
  change (S (String.length (a +:+ b)) = S (String.length a + String.length b)).
  now rewrite IH.
Qed.

Lemma Occurs_extend (p before html after : string) :
  Occurs p html -> Occurs p (before +:+ html +:+ after).
Proof.
  intros (pre & mid & post & -> & Hm).
  exists (before +:+ pre), mid, (post +:+ after). split; [|exact Hm].
  now rewrite !append_assoc.
Qed.

(** X20: text around it never hides a shop.  Content that [isShopifyHtml]
    accepts is still accepted with anything written before and after it. *)
Theorem isShopifyHtml_monotone (before html after : string) :
  isShopifyHtml (Some html) = true ->
  isShopifyHtml (Some (before +:+ html +:+ after)) = true.
Proof.
  rewrite !isShopifyHtml_rule.
  assert (Ht : forall p, test_ci p html = true ->
                         test_ci p (before +:+ html +:+ after) = true).
  { intros p H. apply test_ci_Occurs, Occurs_extend, test_ci_Occurs, H. }
  pose proof (matchCount_mono highConfidencePatterns _ _ Ht) as Hh.
  pose proof (matchCount_mono mediumConfidencePatterns _ _ Ht) as Hm.
  pose proof (matchCount_mono lowConfidencePatterns _ _ Ht) as Hl.
  specialize (Ht ".myshopify.com").
  assert (Hlen : String.length html <= String.length (before +:+ html +:+ after)).
  { rewrite !length_append. lia. }
  revert Hh Hm Hl Ht Hlen.
  generalize (matchCount highConfidencePatterns (before +:+ html +:+ after)).
  generalize (matchCount mediumConfidencePatterns (before +:+ html +:+ after)).
  generalize (matchCount lowConfidencePatterns (before +:+ html +:+ after)).
  generalize (matchCount highConfidencePatterns html).
  generalize (matchCount mediumConfidencePatterns html).
  generalize (matchCount lowConfidencePatterns html).
  generalize (test_ci ".myshopify.com" (before +:+ html +:+ after)).
  generalize (test_ci ".myshopify.com" html).
  generalize (String.length (before +:+ html +:+ after)).
  generalize (String.length html).
  intros n n' b b' l m h l' m' h' Hh Hm Hl Hb Hlen.
  rewrite !andb_true_iff, !orb_true_iff, !andb_true_iff, !negb_true_iff,
    !Nat.eqb_neq, !Nat.leb_le.
  intros (Hn & H). split; [lia|].
  destruct H as [[[H|H]|[H1 H2]]|[H1 H2]].
  - left. left. left. lia.
  - left. left. right. lia.
  - left. right. split; lia.
  - right. split; [auto | lia].
Qed.

Lemma isShopifyHtml_monotone_witness :
  isShopifyHtml (Some ("<html><head>" +:+ "<script src=//cdn.shopify.com/a.js>"
                       +:+ "</head></html>")) = true.
Proof. apply isShopifyHtml_monotone. vm_compute. reflexivity. Defined.

End VerdictMore.
